(** * question-generator.py: the question generator and its upload client

    A shallow embedding of [src/question-generator.py]: the class
    [QuestionGenerator] with its methods [generate_questions] and
    [upload_questions], and the driver [main].

    Python values live in a store of mutable objects (dicts and lists),
    exceptions are results, and the two external services (the chat
    completion endpoint and the HTTP upload endpoint) are oracles whose
    answers may depend on everything that happened before.  The calls to
    them are recorded in a trace.

    What the program prints is not recorded, but whether a [print]
    succeeds is: the standard output writes the ASCII characters and, of
    the others, those its encoding has, and a [print] of a text with a
    character it cannot write raises [UnicodeEncodeError].  The log lines
    that show what a service sent (lines 86, 87, 90, 135, 137 and 138: the
    completion text, the message of an exception, the body of a response)
    are modelled with this.  The other lines cannot fail in this way and
    are left out: they show constants and counts (lines 104, 131, 152 and
    154), the payload, which [json.dumps] writes in ASCII (line 121), and a
    category of [main], one of its ASCII literals (lines 153 to 173).  So
    is line 120, which shows the URL the generator was made with: that
    URL, [API_URL] in [main], is taken to be text the standard output can
    write. *)

From Stdlib Require Import ZArith NArith List Bool Lia String Ascii DecimalString.
From stdpp Require Import base tactics option list.
Import ListNotations.

Set Warnings "-register-all".
Local Open Scope N_scope.

(** ** Python strings

    A [str] is a sequence of Unicode code points. *)

Definition pychar := N.
Definition pystr := list pychar.

(** ASCII literals. *)
Definition lit (s : string) : pystr :=
  map N_of_ascii (list_ascii_of_string s).

Definition char_in (chars : pystr) (c : pychar) : bool :=
  existsb (N.eqb c) chars.

Fixpoint pystr_eqb (a b : pystr) : bool :=
  match a, b with
  | [], [] => true
  | x :: a', y :: b' => N.eqb x y && pystr_eqb a' b'
  | _, _ => false
  end.

(** [str.isspace] on one code point: the characters [str.strip()] removes
    when it is called without an argument. *)
Definition is_py_space (c : pychar) : bool :=
  ((9 <=? c) && (c <=? 13)) || ((28 <=? c) && (c <=? 32))
  || (c =? 133) || (c =? 160) || (c =? 5760)
  || ((8192 <=? c) && (c <=? 8202))
  || (c =? 8232) || (c =? 8233) || (c =? 8239) || (c =? 8287) || (c =? 12288).

Fixpoint drop_while (f : pychar -> bool) (s : pystr) : pystr :=
  match s with
  | [] => []
  | c :: s' => if f c then drop_while f s' else s
  end.

Definition lstrip_by (f : pychar -> bool) (s : pystr) : pystr := drop_while f s.
Definition rstrip_by (f : pychar -> bool) (s : pystr) : pystr :=
  rev (drop_while f (rev s)).

(** [s.strip()] and [s.strip(chars)]: the longest run of matching
    characters is removed from the left end, then from the right end. *)
Definition strip_by (f : pychar -> bool) (s : pystr) : pystr :=
  rstrip_by f (lstrip_by f s).

Definition py_strip (s : pystr) : pystr := strip_by is_py_space s.
Definition py_strip_chars (chars s : pystr) : pystr := strip_by (char_in chars) s.

Definition fence_json : pystr := Eval vm_compute in lit "```json".
Definition fence : pystr := Eval vm_compute in lit "```".

(** Line 76: [content.strip().strip("```json").strip("```").strip()]. *)
Definition clean_content (content : pystr) : pystr :=
  py_strip (py_strip_chars fence (py_strip_chars fence_json (py_strip content))).

(** ** [json.loads]

    The decoder of Python's [json] module (the default, strict decoder),
    as a lexer followed by a parser over tokens.  It accepts RFC 8259 JSON
    and, like Python, the constants [NaN], [Infinity] and [-Infinity].
    A float is kept as the decimal number it was written as,
    [(-1)^neg * m * 10^e]; Python rounds it to the nearest binary64, which
    this program can observe only through the truth value of the float.
    The recursion limit of the interpreter is not modelled. *)

Inductive pyfloat : Type :=
| FDec (neg : bool) (m : Z) (e : Z)
| FNaN
| FInf
| FNegInf.

Inductive token : Type :=
| TLBracket | TRBracket | TLBrace | TRBrace | TComma | TColon
| TString (s : pystr)
| TInt (z : Z)
| TFloat (f : pyfloat)
| TTrue | TFalse | TNull.

(** The decoder's own whitespace, the regular expression [[ \t\n\r]*]. *)
Definition is_json_ws (c : pychar) : bool :=
  (c =? 32) || (c =? 9) || (c =? 10) || (c =? 13).

Definition is_digit (c : pychar) : bool := (48 <=? c) && (c <=? 57).

Definition skip_ws (s : pystr) : pystr := drop_while is_json_ws s.

Fixpoint strip_prefix (p s : pystr) : option pystr :=
  match p, s with
  | [], _ => Some s
  | x :: p', y :: s' => if x =? y then strip_prefix p' s' else None
  | _ :: _, [] => None
  end.

Definition hex_val (c : pychar) : option N :=
  if is_digit c then Some (c - 48)
  else if (97 <=? c) && (c <=? 102) then Some (c - 87)
  else if (65 <=? c) && (c <=? 70) then Some (c - 55)
  else None.

Definition hex4 (s : pystr) : option (N * pystr) :=
  match s with
  | a :: b :: c :: d :: r =>
      match hex_val a, hex_val b, hex_val c, hex_val d with
      | Some x, Some y, Some z, Some t => Some (((x * 16 + y) * 16 + z) * 16 + t, r)
      | _, _, _, _ => None
      end
  | _ => None
  end.

Definition is_high_surrogate (c : N) : bool := (55296 <=? c) && (c <=? 56319).
Definition is_low_surrogate (c : N) : bool := (56320 <=? c) && (c <=? 57343).
Definition join_surrogates (hi lo : N) : N :=
  65536 + (hi - 55296) * 1024 + (lo - 56320).

(** The text after a backslash-u: four hex digits; a high surrogate
    directly followed by an escaped low surrogate is one code point. *)
Definition unicode_escape (s : pystr) : option (pychar * pystr) :=
  match hex4 s with
  | None => None
  | Some (c, r) =>
      if is_high_surrogate c then
        match strip_prefix [92; 117] r with
        | Some r2 =>
            match hex4 r2 with
            | None => None
            | Some (c2, r3) =>
                if is_low_surrogate c2 then Some (join_surrogates c c2, r3)
                else Some (c, r)
            end
        | None => Some (c, r)
        end
      else Some (c, r)
  end.

Definition escape_char (e : pychar) : option pychar :=
  if e =? 34 then Some 34        (* quote *)
  else if e =? 92 then Some 92   (* backslash *)
  else if e =? 47 then Some 47   (* slash *)
  else if e =? 98 then Some 8    (* b *)
  else if e =? 102 then Some 12  (* f *)
  else if e =? 110 then Some 10  (* n *)
  else if e =? 114 then Some 13  (* r *)
  else if e =? 116 then Some 9   (* t *)
  else None.

Definition consc {A B : Type} (a : A) (r : option (list A * B)) : option (list A * B) :=
  match r with
  | Some (l, b) => Some (a :: l, b)
  | None => None
  end.

(** The body of a string literal, after its opening quote. *)
Fixpoint scan_string (fuel : nat) (s : pystr) : option (pystr * pystr) :=
  match fuel with
  | O => None
  | S fuel' =>
      match s with
      | [] => None
      | c :: r =>
          if c =? 34 then Some ([], r)
          else if c =? 92 then
            match r with
            | [] => None
            | e :: r' =>
                if e =? 117 then
                  match unicode_escape r' with
                  | Some (u, r'') => consc u (scan_string fuel' r'')
                  | None => None
                  end
                else
                  match escape_char e with
                  | Some u => consc u (scan_string fuel' r')
                  | None => None
                  end
            end
          else if c <=? 31 then None
          else consc c (scan_string fuel' r)
      end
  end.

Fixpoint span_digits (s : pystr) : pystr * pystr :=
  match s with
  | [] => ([], [])
  | c :: r =>
      if is_digit c then let '(ds, rest) := span_digits r in (c :: ds, rest)
      else ([], s)
  end.

Definition lex_sign (s : pystr) : bool * pystr :=
  match s with
  | c :: r => if c =? 45 then (true, r) else (false, s)
  | [] => (false, s)
  end.

Definition lex_int_part (s : pystr) : option (pystr * pystr) :=
  match s with
  | [] => None
  | c :: r =>
      if c =? 48 then Some ([c], r)
      else if is_digit c then let '(ds, rest) := span_digits r in Some (c :: ds, rest)
      else None
  end.

(** The digits after the decimal point; none when there is no fraction. *)
Definition lex_frac (s : pystr) : pystr * pystr :=
  match s with
  | [] => ([], s)
  | c :: r =>
      if c =? 46 then
        match span_digits r with
        | ([], _) => ([], s)
        | (ds, rest) => (ds, rest)
        end
      else ([], s)
  end.

Definition lex_exp_sign (s : pystr) : bool * pystr :=
  match s with
  | c :: r =>
      if c =? 43 then (false, r) else if c =? 45 then (true, r) else (false, s)
  | [] => (false, s)
  end.

Definition digits_value (ds : pystr) : Z :=
  fold_left (fun acc d => (acc * 10 + Z.of_N (d - 48))%Z) ds 0%Z.

Definition lex_exp (s : pystr) : option Z * pystr :=
  match s with
  | [] => (None, s)
  | e :: r =>
      if (e =? 101) || (e =? 69) then
        let '(neg, r1) := lex_exp_sign r in
        match span_digits r1 with
        | ([], _) => (None, s)
        | (ds, rest) =>
            (Some (if neg then - digits_value ds else digits_value ds)%Z, rest)
        end
      else (None, s)
  end.

Definition lit_Infinity : pystr := Eval vm_compute in lit "Infinity".

(** A number, or [-Infinity].  A number is an optional minus sign, then
    either a single 0 or a non-zero digit followed by digits, then
    optionally a point with at least one digit, then optionally e or E, an
    optional sign and at least one digit.  A literal with a fraction or an
    exponent is a float, any other an int. *)
Definition lex_number (s : pystr) : option (token * pystr) :=
  let '(neg, s1) := lex_sign s in
  match lex_int_part s1 with
  | Some (ds, r1) =>
      let '(fr, r2) := lex_frac r1 in
      let '(ex, r3) := lex_exp r2 in
      match fr, ex with
      | [], None =>
          Some (TInt (if neg then - digits_value ds else digits_value ds)%Z, r3)
      | _, _ =>
          Some (TFloat (FDec neg (digits_value (ds ++ fr))
                          (default 0 ex - Z.of_nat (length fr))%Z), r3)
      end
  | None =>
      if neg then
        match strip_prefix lit_Infinity s1 with
        | Some r => Some (TFloat FNegInf, r)
        | None => None
        end
      else None
  end.

Definition keyword (rest_of_word : pystr) (t : token) (r : pystr) : option (token * pystr) :=
  match strip_prefix rest_of_word r with
  | Some r' => Some (t, r')
  | None => None
  end.

(** One token at the head of [s]. *)
Definition lex1 (fuel : nat) (s : pystr) : option (token * pystr) :=
  match s with
  | [] => None
  | c :: r =>
      if c =? 91 then Some (TLBracket, r)
      else if c =? 93 then Some (TRBracket, r)
      else if c =? 123 then Some (TLBrace, r)
      else if c =? 125 then Some (TRBrace, r)
      else if c =? 44 then Some (TComma, r)
      else if c =? 58 then Some (TColon, r)
      else if c =? 34 then
        match scan_string fuel r with
        | Some (str, r') => Some (TString str, r')
        | None => None
        end
      else if c =? 110 then keyword [117; 108; 108] TNull r
      else if c =? 116 then keyword [114; 117; 101] TTrue r
      else if c =? 102 then keyword [97; 108; 115; 101] TFalse r
      else if c =? 78 then keyword [97; 78] (TFloat FNaN) r
      else if c =? 73 then keyword [110; 102; 105; 110; 105; 116; 121] (TFloat FInf) r
      else lex_number s
  end.

Fixpoint tokenize (fuel : nat) (s : pystr) : option (list token) :=
  match fuel with
  | O => None
  | S fuel' =>
      match skip_ws s with
      | [] => Some []
      | s' =>
          match lex1 fuel' s' with
          | Some (t, rest) =>
              match tokenize fuel' rest with
              | Some ts => Some (t :: ts)
              | None => None
              end
          | None => None
          end
      end
  end.

(** Python dicts keep insertion order; assigning to a key that is present
    replaces its value in place. *)
Fixpoint dict_get {V : Type} (k : pystr) (d : list (pystr * V)) : option V :=
  match d with
  | [] => None
  | (k', v) :: d' => if pystr_eqb k k' then Some v else dict_get k d'
  end.

Fixpoint dict_set {V : Type} (k : pystr) (v : V) (d : list (pystr * V)) : list (pystr * V) :=
  match d with
  | [] => [(k, v)]
  | (k', v') :: d' =>
      if pystr_eqb k k' then (k, v) :: d' else (k', v') :: dict_set k v d'
  end.

Definition dict_of_pairs {V : Type} (kvs : list (pystr * V)) : list (pystr * V) :=
  fold_left (fun d kv => dict_set (fst kv) (snd kv) d) kvs [].

(** Decoded JSON, as a tree. *)
Inductive json : Type :=
| JNull
| JBool (b : bool)
| JInt (z : Z)
| JFloat (f : pyfloat)
| JStr (s : pystr)
| JList (l : list json)
| JDict (d : list (pystr * json)).

Fixpoint parse_value (fuel : nat) (ts : list token) : option (json * list token) :=
  match fuel with
  | O => None
  | S fuel' =>
      match ts with
      | TNull :: r => Some (JNull, r)
      | TTrue :: r => Some (JBool true, r)
      | TFalse :: r => Some (JBool false, r)
      | TInt z :: r => Some (JInt z, r)
      | TFloat f :: r => Some (JFloat f, r)
      | TString s :: r => Some (JStr s, r)
      | TLBracket :: TRBracket :: r => Some (JList [], r)
      | TLBracket :: r =>
          match parse_elems fuel' r with
          | Some (vs, r') => Some (JList vs, r')
          | None => None
          end
      | TLBrace :: TRBrace :: r => Some (JDict [], r)
      | TLBrace :: r =>
          match parse_members fuel' r with
          | Some (kvs, r') => Some (JDict (dict_of_pairs kvs), r')
          | None => None
          end
      | _ => None
      end
  end
with parse_elems (fuel : nat) (ts : list token) : option (list json * list token) :=
  match fuel with
  | O => None
  | S fuel' =>
      match parse_value fuel' ts with
      | Some (v, TComma :: r) => consc v (parse_elems fuel' r)
      | Some (v, TRBracket :: r) => Some ([v], r)
      | _ => None
      end
  end
with parse_members (fuel : nat) (ts : list token) : option (list (pystr * json) * list token) :=
  match fuel with
  | O => None
  | S fuel' =>
      match ts with
      | TString k :: TColon :: r =>
          match parse_value fuel' r with
          | Some (v, TComma :: r') => consc (k, v) (parse_members fuel' r')
          | Some (v, TRBrace :: r') => Some ([(k, v)], r')
          | _ => None
          end
      | _ => None
      end
  end.

(** [json.loads(s)]: [None] stands for [json.JSONDecodeError]. *)
Definition json_loads (s : pystr) : option json :=
  match tokenize (S (length s)) s with
  | Some ts =>
      match parse_value (2 * length ts + 1) ts with
      | Some (v, []) => Some v
      | _ => None
      end
  | None => None
  end.

(** ** Python values and the object store

    Dicts and lists are mutable objects with an identity: a value refers
    to one by its address in the store.  Two references to the same
    address are aliases. *)

Abbreviation addr := nat (only parsing).

Inductive pyval : Type :=
| VNone
| VBool (b : bool)
| VInt (z : Z)
| VFloat (f : pyfloat)
| VStr (s : pystr)
| VRef (a : addr).
Arguments VRef a%_nat.

Inductive pyobj : Type :=
| OList (items : list pyval)
| ODict (d : list (pystr * pyval)).

(** [requests.Response]: the status and the body of a completed request,
    and the reason phrase and the URL that the message of an [HTTPError]
    shows. *)
Record http_response : Type := {
  status_code : Z;
  reason : pystr;
  response_url : pystr;
  text : pystr
}.

(** The exceptions of the program.  All of them derive from [Exception];
    [KeyboardInterrupt] and [SystemExit], which do not, are requests to
    stop the interpreter and not behaviour of the program.  An exception
    of a library carries its message [what].  An [HTTPError] carries the
    response it was raised for; of the other exceptions of the requests
    library some carry a response ([TooManyRedirects] does) and some do
    not. *)
Inductive exn : Type :=
| JSONDecodeError
| TypeError
| AttributeError
| IndexError
| ValueError
| UnicodeEncodeError
| KeyError (key : pystr)
| HTTPError (what : pystr) (response : http_response)
                                         (* requests.exceptions.HTTPError *)
| ConnectionError (what : pystr)         (* requests.exceptions.ConnectionError *)
| Timeout (what : pystr)                 (* requests.exceptions.Timeout *)
| RequestException (what : pystr) (response : option http_response)
                                         (* any other requests exception *)
| APIError (what : pystr)                (* openai.OpenAIError and subclasses *)
| SystemError.                           (* a reference to no object *)

Definition is_JSONDecodeError (e : exn) : bool :=
  match e with JSONDecodeError => true | _ => false end.

Definition is_RequestException (e : exn) : bool :=
  match e with
  | HTTPError _ _ | ConnectionError _ | Timeout _ | RequestException _ _ => true
  | _ => false
  end.

Definition is_Exception (e : exn) : bool := true.

(** [str(e)], as a log line shows an exception.  An exception of a
    library shows its message, a [KeyError] its key between quotes.  The
    interpreter's own exceptions have ASCII messages whose wording depends
    on the place that raised them; a usual one stands for them here, since
    the program does nothing with a message but print it. *)
Definition exn_str (e : exn) : pystr :=
  match e with
  | HTTPError what _ | ConnectionError what | Timeout what
  | RequestException what _ | APIError what => what
  | KeyError key => [39] ++ key ++ [39]
  | JSONDecodeError => lit "Expecting value: line 1 column 1 (char 0)"
  | TypeError => lit "'str' object does not support item assignment"
  | AttributeError => lit "'NoneType' object has no attribute 'strip'"
  | IndexError => lit "list index out of range"
  | ValueError => lit "Circular reference detected"
  | UnicodeEncodeError => lit "'utf-8' codec can't encode character: surrogates not allowed"
  | SystemError => lit "bad reference"
  end.

(** [e.response], when [e] has one that is not [None] (line 136). *)
Definition exn_response (e : exn) : option http_response :=
  match e with
  | HTTPError _ response => Some response
  | RequestException _ response => response
  | _ => None
  end.

Inductive result (A : Type) : Type :=
| Ok (a : A)
| Raise (e : exn).
Arguments Ok {A} a.
Arguments Raise {A} e.

(** ** The two external services *)

Record chat_message : Type := {
  role : pystr;
  content : pystr
}.

Record chat_request : Type := {
  model : pystr;
  messages : list chat_message;
  temperature : pyfloat;
  max_tokens : Z
}.

(** [response.choices[i].message.content], a string or [None]. *)
Record chat_choice : Type := { message_content : option pystr }.
Record chat_response : Type := { choices : list chat_choice }.

Record http_request : Type := {
  url : pystr;
  json_body : json;
  headers_sent : list (pystr * pystr);
  timeout : Z
}.

Inductive event : Type :=
| EvCreate (r : chat_request)
| EvPost (r : http_request).

(** What the services answer, given the calls made so far, and which
    characters beyond ASCII the encoding of the standard output has. *)
Record env : Type := {
  chat_completions_create : list event -> chat_request -> result chat_response;
  requests_post : list event -> http_request -> result http_response;
  stdout_encodes : pychar -> bool
}.

Record world : Type := {
  heap : list pyobj;
  trace : list event
}.

(** ** Computations: a state and exception monad over [world] *)

Definition M (A : Type) : Type := world -> result A * world.

Definition ret {A : Type} (a : A) : M A := fun w => (Ok a, w).
Definition raise {A : Type} (e : exn) : M A := fun w => (Raise e, w).
Definition bind {A B : Type} (m : M A) (k : A -> M B) : M B :=
  fun w =>
    match m w with
    | (Ok a, w') => k a w'
    | (Raise e, w') => (Raise e, w')
    end.

Notation "x <- m ;; k" := (bind m (fun x => k))
  (at level 65, m at next level, right associativity).
Notation "m ;;; k" := (bind m (fun _ => k))
  (at level 65, right associativity).

(** [try: body except C1: h1 except C2: h2]: the first clause whose class
    matches handles the exception; with no match it propagates. *)
Fixpoint pick_handler {A : Type} (clauses : list ((exn -> bool) * (exn -> M A)))
    (e : exn) : option (M A) :=
  match clauses with
  | [] => None
  | (cls, h) :: rest => if cls e then Some (h e) else pick_handler rest e
  end.

Definition try_except {A : Type} (body : M A)
    (clauses : list ((exn -> bool) * (exn -> M A))) : M A :=
  fun w =>
    match body w with
    | (Ok a, w') => (Ok a, w')
    | (Raise e, w') =>
        match pick_handler clauses e with
        | Some h => h w'
        | None => (Raise e, w')
        end
    end.

Fixpoint for_each {A : Type} (l : list A) (body : A -> M unit) : M unit :=
  match l with
  | [] => ret tt
  | x :: l' => body x ;;; for_each l' body
  end.

(** [try: x = m; k x except ...], where the handlers read the local
    variable [x]: they find it bound when [m] completed. *)
Definition try_except_local {A B : Type} (m : M A) (k : A -> M B)
    (clauses : option A -> list ((exn -> bool) * (exn -> M B))) : M B :=
  fun w =>
    match m w with
    | (Ok a, w1) => try_except (k a) (clauses (Some a)) w1
    | (Raise e, w1) => try_except (raise e) (clauses None) w1
    end.

(** ** The standard output

    Every encoding Python opens the standard output with has the ASCII
    characters.  The stream is taken to be open: a [print] fails on a
    character that cannot be written, and in no other way. *)
Definition can_write (E : env) (c : pychar) : bool := (c <? 128) || stdout_encodes E c.

Definition printable (E : env) (s : pystr) : bool := forallb (can_write E) s.

(** [print(s)] *)
Definition py_print (E : env) (s : pystr) : M unit :=
  if printable E s then ret tt else raise UnicodeEncodeError.

Definition get_heap : M (list pyobj) := fun w => (Ok (heap w), w).

(** A new object gets the next free address. *)
Definition alloc (o : pyobj) : M pyval :=
  fun w => (Ok (VRef (length (heap w))),
            {| heap := heap w ++ [o]; trace := trace w |}).

Definition store (a : addr) (o : pyobj) : M unit :=
  fun w => (Ok tt, {| heap := <[a := o]> (heap w); trace := trace w |}).

Definition deref (a : addr) : M pyobj :=
  fun w =>
    match heap w !! a with
    | Some o => (Ok o, w)
    | None => (Raise SystemError, w)
    end.

(** ** Operations on values *)

(** [float(x) == 0.0] for [x = m * 10^e]: the nearest binary64 is zero
    when [x <= 2^-1075]. *)
Definition rounds_to_zero (m e : Z) : bool :=
  ((m =? 0) || ((e <? 0) && (m * 2 ^ 1075 <=? 10 ^ (- e))))%Z.

Definition float_truth (f : pyfloat) : bool :=
  match f with
  | FDec _ m e => negb (rounds_to_zero m e)
  | FNaN | FInf | FNegInf => true
  end.

(** [bool(v)], as [if v] and [not v] use it. *)
Definition truthy (v : pyval) : M bool :=
  match v with
  | VNone => ret false
  | VBool b => ret b
  | VInt z => ret (negb (z =? 0)%Z)
  | VFloat f => ret (float_truth f)
  | VStr s => ret (match s with [] => false | _ => true end)
  | VRef a =>
      o <- deref a ;;
      match o with
      | OList [] => ret false
      | ODict [] => ret false
      | _ => ret true
      end
  end.

(** The elements [for q in v] visits: the items of a list, the keys of a
    dict, the characters of a string.  The loops of this program never
    change the object they iterate over. *)
Definition py_iter (v : pyval) : M (list pyval) :=
  match v with
  | VStr s => ret (map (fun c => VStr [c]) s)
  | VRef a =>
      o <- deref a ;;
      match o with
      | OList items => ret items
      | ODict d => ret (map (fun kv => VStr (fst kv)) d)
      end
  | _ => raise TypeError
  end.

(** [q[key]] for a string [key]. *)
Definition py_getitem (q : pyval) (key : pystr) : M pyval :=
  match q with
  | VRef a =>
      o <- deref a ;;
      match o with
      | ODict d =>
          match dict_get key d with
          | Some v => ret v
          | None => raise (KeyError key)
          end
      | OList _ => raise TypeError
      end
  | _ => raise TypeError
  end.

(** [q[key] = v] for a string [key]. *)
Definition py_setitem (q : pyval) (key : pystr) (v : pyval) : M unit :=
  match q with
  | VRef a =>
      o <- deref a ;;
      match o with
      | ODict d => store a (ODict (dict_set key v d))
      | OList _ => raise TypeError
      end
  | _ => raise TypeError
  end.

(** [l.append(v)] *)
Definition list_append (l : pyval) (v : pyval) : M unit :=
  match l with
  | VRef a =>
      o <- deref a ;;
      match o with
      | OList items => store a (OList (items ++ [v]))
      | ODict _ => raise AttributeError
      end
  | _ => raise AttributeError
  end.

(** The objects [json.loads] builds for a decoded tree, all new. *)
Fixpoint alloc_json (j : json) (h : list pyobj) : pyval * list pyobj :=
  match j with
  | JNull => (VNone, h)
  | JBool b => (VBool b, h)
  | JInt z => (VInt z, h)
  | JFloat f => (VFloat f, h)
  | JStr s => (VStr s, h)
  | JList l =>
      let '(vs, h') :=
        (fix go (l : list json) (h : list pyobj) : list pyval * list pyobj :=
           match l with
           | [] => ([], h)
           | x :: l' =>
               let '(v, h1) := alloc_json x h in
               let '(vs, h2) := go l' h1 in
               (v :: vs, h2)
           end) l h in
      (VRef (length h'), h' ++ [OList vs])
  | JDict d =>
      let '(kvs, h') :=
        (fix go (d : list (pystr * json)) (h : list pyobj)
           : list (pystr * pyval) * list pyobj :=
           match d with
           | [] => ([], h)
           | (k, x) :: d' =>
               let '(v, h1) := alloc_json x h in
               let '(kvs, h2) := go d' h1 in
               ((k, v) :: kvs, h2)
           end) d h in
      (VRef (length h'), h' ++ [ODict kvs])
  end.

Definition py_json_loads (s : pystr) : M pyval :=
  match json_loads s with
  | Some j =>
      fun w =>
        let '(v, h') := alloc_json j (heap w) in
        (Ok v, {| heap := h'; trace := trace w |})
  | None => raise JSONDecodeError
  end.

(** The tree [json.dumps] writes for a value.  Each level of nesting
    spends one unit of fuel: with as much fuel as the store has objects,
    running out means that an object contains itself, which Python
    reports as [ValueError: Circular reference detected]. *)
Fixpoint to_json (fuel : nat) (h : list pyobj) (v : pyval) {struct fuel} : option json :=
  match v with
  | VNone => Some JNull
  | VBool b => Some (JBool b)
  | VInt z => Some (JInt z)
  | VFloat f => Some (JFloat f)
  | VStr s => Some (JStr s)
  | VRef a =>
      match fuel with
      | O => None
      | S fuel' =>
          match h !! a with
          | Some (OList items) =>
              option_map JList (mapM (to_json fuel' h) items)
          | Some (ODict d) =>
              option_map JDict
                (mapM (fun kv => option_map (pair (fst kv)) (to_json fuel' h (snd kv))) d)
          | None => None
          end
      end
  end.

Definition json_dumps (v : pyval) : M json :=
  h <- get_heap ;;
  match to_json (length h) h v with
  | Some j => ret j
  | None => raise ValueError
  end.

(** ** The program *)

(** [str(n)] for an int, as an f-string formats it. *)
Definition str_of_int (n : Z) : pystr :=
  lit (NilZero.string_of_int (Z.to_int n)).

Definition dq : pystr := [34].
Definition quoted (s : string) : pystr := dq ++ lit s ++ dq.

(** Lines 39-61, the f-string. *)
Definition prompt_text (category : pystr) (num_questions num_fillers : Z) : pystr :=
  lit "Generate " ++ str_of_int num_questions ++ lit " questions about " ++ category
  ++ lit ".
For each question, provide:
1. A clear, concise question text
2. A single correct answer (factually accurate)
3. " ++ str_of_int num_fillers ++ lit " incorrect but plausible filler answers

Important guidelines:
- Questions should be factually accurate and verifiable
- Avoid opinion-based questions
- Ensure answers are not too similar to each other
- Keep questions and answers concise
- Format filler_answers as a JSON array of strings

Format the response as a JSON array of objects with this exact structure:
[
  {
    " ++ quoted "text" ++ lit ": " ++ quoted "What is the capital of France?" ++ lit ",
    " ++ quoted "answer" ++ lit ": " ++ quoted "Paris" ++ lit ",
    " ++ quoted "filler_answers" ++ lit ": [" ++ quoted "London" ++ lit ", "
  ++ quoted "Berlin" ++ lit ", " ++ quoted "Madrid" ++ lit "]
  }
]

ONLY return the JSON array, no other text or markdown formatting.".

Definition system_text : pystr :=
  lit "You are a helpful assistant that creates high-quality, factually accurate quiz questions.".

Record QuestionGenerator : Type := {
  api_url : pystr;
  headers : list (pystr * pystr)
}.

(** [__init__]: [headers or {...}] takes the default when [headers] is
    [None] or empty. *)
Definition QuestionGenerator_init (api_url : pystr)
    (headers : option (list (pystr * pystr))) : QuestionGenerator :=
  {| api_url := api_url;
     headers :=
       match headers with
       | Some (h :: hs) => h :: hs
       | _ => [(lit "Content-Type", lit "application/json")]
       end |}.

(** [client.chat.completions.create(...)]: one call to the service. *)
Definition create (E : env) (r : chat_request) : M chat_response :=
  fun w =>
    (chat_completions_create E (trace w) r,
     {| heap := heap w; trace := trace w ++ [EvCreate r] |}).

(** [requests.post(url, json=payload, headers=..., timeout=...)]: the
    payload is written out when the call is made. *)
Definition post (E : env) (url : pystr) (payload : pyval)
    (hs : list (pystr * pystr)) (timeout : Z) : M http_response :=
  body <- json_dumps payload ;;
  let r := {| url := url; json_body := body; headers_sent := hs; timeout := timeout |} in
  fun w =>
    (requests_post E (trace w) r,
     {| heap := heap w; trace := trace w ++ [EvPost r] |}).

(** The message [raise_for_status] gives its [HTTPError]. *)
Definition http_error_message (response : http_response) : pystr :=
  str_of_int (status_code response)
  ++ (if (status_code response <? 500)%Z
      then lit " Client Error: " else lit " Server Error: ")
  ++ reason response ++ lit " for url: " ++ response_url response.

(** [response.raise_for_status()] of the requests library: an
    [HTTPError] for a status from 400 to 599, nothing otherwise. *)
Definition raise_for_status (response : http_response) : M unit :=
  if ((400 <=? status_code response) && (status_code response <? 600))%Z
  then raise (HTTPError (http_error_message response) response)
  else ret tt.

Definition key_text : pystr := Eval vm_compute in lit "text".
Definition key_answer : pystr := Eval vm_compute in lit "answer".
Definition key_category : pystr := Eval vm_compute in lit "category".
Definition key_filler_answers : pystr := Eval vm_compute in lit "filler_answers".
Definition key_questions : pystr := Eval vm_compute in lit "questions".

(** Lines 64-72, the arguments of the completion call. *)
Definition chat_request_of (prompt : pystr) : chat_request :=
  {| model := lit "gpt-4-turbo";
     messages := [ {| role := lit "system"; content := system_text |};
                   {| role := lit "user"; content := prompt |} ];
     temperature := FDec false 7 (-1);
     max_tokens := 2000 |}.

(** Lines 64-76: the completion call, and the local [content], which is
    the cleaned text once line 76 completed. *)
Definition generate_content (E : env) (prompt : pystr) : M pystr :=
  response <- create E (chat_request_of prompt) ;;
  (* response.choices[0].message.content, then content.strip() *)
  content <- match choices response with
             | [] => raise IndexError
             | c :: _ =>
                 match message_content c with
                 | None => raise AttributeError
                 | Some s => ret s
                 end
             end ;;
  ret (clean_content content).

(** Lines 77-83. *)
Definition generate_decode (category content : pystr) : M pyval :=
  questions <- py_json_loads content ;;
  qs <- py_iter questions ;;
  for_each qs (fun q => py_setitem q key_category (VStr category)) ;;;
  ret questions.

(** Lines 64-83, the body of the [try]. *)
Definition generate_try (E : env) (category prompt : pystr) : M pyval :=
  content <- generate_content E prompt ;;
  generate_decode category content.

(** Lines 85-91, the two handlers.  Line 87 shows the local [content]
    when it is bound and the words [No content] otherwise.  An exception
    that line 85 catches before line 76 completed comes from the
    completion call, when [content] is not bound yet. *)
Definition generate_except (E : env) (content : option pystr)
    : list ((exn -> bool) * (exn -> M pyval)) :=
  [ (is_JSONDecodeError, fun e =>
       py_print E (lit "Error parsing JSON response: " ++ exn_str e) ;;;
       py_print E (lit "Raw response: "
                   ++ match content with
                      | Some c => c
                      | None => lit "No content"
                      end) ;;;
       alloc (OList []));
    (is_Exception, fun e =>
       py_print E (lit "Error generating questions: " ++ exn_str e) ;;;
       alloc (OList [])) ].

(** Lines 18-91. *)
Definition generate_questions (E : env) (self : QuestionGenerator)
    (category : pystr) (num_questions num_fillers : Z) : M pyval :=
  let num_questions := Z.max 1 (Z.min 10 num_questions) in
  let num_fillers := Z.max 3 (Z.min 5 num_fillers) in
  let prompt := prompt_text category num_questions num_fillers in
  try_except_local (generate_content E prompt) (generate_decode category)
    (generate_except E).

(** Lines 109-115, the body of the reshaping loop. *)
Definition reshape (formatted_questions : pyval) (q : pyval) : M unit :=
  t <- py_getitem q key_text ;;
  a <- py_getitem q key_answer ;;
  c <- py_getitem q key_category ;;
  f <- py_getitem q key_filler_answers ;;
  d <- alloc (ODict [ (key_text, t); (key_answer, a);
                      (key_category, c); (key_filler_answers, f) ]) ;;
  list_append formatted_questions d.

(** Lines 134-139, the handler: the exception, and for one that carries
    a response the status and the body, are shown before [False] is
    returned. *)
Definition upload_except (E : env) (e : exn) : M bool :=
  py_print E (lit "Error uploading questions: " ++ exn_str e) ;;;
  match exn_response e with
  | Some response =>
      py_print E (lit "Status code: " ++ str_of_int (status_code response)) ;;;
      py_print E (lit "Response: " ++ text response)
  | None => ret tt
  end ;;;
  ret false.

(** Lines 93-139.  Line 121 writes the payload out for the log, which
    fails on a payload that cannot be written as JSON. *)
Definition upload_questions (E : env) (self : QuestionGenerator)
    (questions : pyval) : M bool :=
  nonempty <- truthy questions ;;
  if negb nonempty then ret false
  else
    formatted_questions <- alloc (OList []) ;;
    qs <- py_iter questions ;;
    for_each qs (reshape formatted_questions) ;;;
    payload <- alloc (ODict [ (key_questions, formatted_questions) ]) ;;
    try_except
      (json_dumps payload ;;;
       response <- post E (api_url self) payload (headers self) 30 ;;
       raise_for_status response ;;;
       ret true)
      [ (is_RequestException, upload_except E) ].

Definition API_URL : pystr := lit "http://localhost:8080/api/games/questions/bulk".
Definition CATEGORIES : list pystr :=
  [ lit "Science"; lit "History"; lit "Geography"; lit "Sports"; lit "Entertainment" ].
Definition QUESTIONS_PER_CATEGORY : Z := 5.

(** Lines 151-173, one turn of the loop over the categories. *)
Definition process_category (E : env) (generator : QuestionGenerator)
    (category : pystr) : M unit :=
  questions <- generate_questions E generator category QUESTIONS_PER_CATEGORY 3 ;;
  nonempty <- truthy questions ;;
  if negb nonempty then ret tt
  else
    uploaded <- upload_questions E generator questions ;;
    ret tt.

Definition main (E : env) : M unit :=
  let generator := QuestionGenerator_init API_URL None in
  for_each CATEGORIES (process_category E generator).

Definition initial_world : world := {| heap := []; trace := [] |}.

(** ** Vocabulary of the statements *)

(** The characters outside 33..132, the range that holds every character
    of a JSON token other than the inside of a string: every character
    that [str.strip()] removes is one of them. *)
Definition outside_tokens (w : pychar) : Prop := w <= 32 \/ 133 <= w.

(** [fuel] is enough for [p]: what it parses is parsed with twice as much
    fuel as tokens are read. *)
Definition enough_fuel {A : Type}
    (p : nat -> list token -> option (A * list token)) (fuel : nat) : Prop :=
  forall ts x r, p fuel ts = Some (x, r) ->
    (length r < length ts)%nat
    /\ forall fuel', (2 * (length ts - length r) <= fuel')%nat -> p fuel' ts = Some (x, r).

(** [keeps I m Q]: running [m] maintains the invariant [I] of the world,
    whether it returns or raises, and a returned value satisfies [Q]. *)
Definition keeps {A : Type} (I : world -> Prop) (m : M A) (Q : A -> Prop) : Prop :=
  forall w, I w -> I (snd (m w)) /\ (forall a, fst (m w) = Ok a -> Q a).

(** The postcondition that holds of every value. *)
Definition any {A : Type} : A -> Prop := fun _ => True.

(** Reading the store changes nothing. *)
Definition pure_read {A : Type} (m : M A) : Prop := forall w, snd (m w) = w.

(** The store of [w] is [h0] with new objects after it: every object of
    [h0] is at its address, unchanged. *)
Definition extends_heap (h0 : list pyobj) (w : world) : Prop := h0 `prefix_of` heap w.

(** The calls made so far are [t]. *)
Definition trace_is (t : list event) (w : world) : Prop := trace w = t.

(** The call returned, and its value is a list object without elements. *)
Definition returns_empty_list (r : result pyval * world) : Prop :=
  exists a w', r = (Ok (VRef a), w') /\ heap w' !! a = Some (OList []).

(** [q] refers to a dict whose [category] is the string [c]. *)
Definition stamped (c : pystr) (w : world) (q : pyval) : Prop :=
  exists a d, q = VRef a /\ heap w !! a = Some (ODict d)
              /\ dict_get key_category d = Some (VStr c).

(** The keys [upload_questions] reads from every record. *)
Definition required_keys : list pystr :=
  [key_text; key_answer; key_category; key_filler_answers].

(** The values of the four required keys of a record: of a dict of the
    store that has them all. *)
Definition record_fields (h : list pyobj) (q : pyval)
    : option (pyval * pyval * pyval * pyval) :=
  match q with
  | VRef b =>
      match h !! b with
      | Some (ODict d) =>
          match dict_get key_text d, dict_get key_answer d,
                dict_get key_category d, dict_get key_filler_answers d with
          | Some t, Some a, Some c, Some f => Some (t, a, c, f)
          | _, _, _, _ => None
          end
      | _ => None
      end
  | _ => None
  end.

(** The dict lines 110-115 build from them. *)
Definition reshaped_obj (fs : pyval * pyval * pyval * pyval) : pyobj :=
  let '(t, a, c, f) := fs in
  ODict [ (key_text, t); (key_answer, a); (key_category, c); (key_filler_answers, f) ].

(** The reshaped form of a record as the specification words it: exactly
    the four keys, each with the value the input record has under it. *)
Definition record_json (h : list pyobj) (q : pyval) : option json :=
  match record_fields h q with
  | Some (t, a, c, f) =>
      match to_json (length h) h t, to_json (length h) h a,
            to_json (length h) h c, to_json (length h) h f with
      | Some jt, Some ja, Some jc, Some jf =>
          Some (JDict [ (key_text, jt); (key_answer, ja);
                        (key_category, jc); (key_filler_answers, jf) ])
      | _, _, _, _ => None
      end
  | None => None
  end.

(** The request [upload_questions] makes for the record trees [bodies]. *)
Definition upload_request (self : QuestionGenerator) (bodies : list json) : http_request :=
  {| url := api_url self;
     json_body := JDict [ (key_questions, JList bodies) ];
     headers_sent := headers self;
     timeout := 30 |}.

(** The log lines of the handler of [upload_questions] for [e] can be
    written: the message of [e] and, when it carries one, the body of its
    response (everything else in these lines is ASCII). *)
Definition upload_log_ok (E : env) (e : exn) : bool :=
  printable E (exn_str e)
  && match exn_response e with
     | Some response => printable E (text response)
     | None => true
     end.

(** What the handler of [upload_questions] answers to [e]: [False]
    after its log lines, or the [UnicodeEncodeError] of one of them. *)
Definition upload_handled (E : env) (e : exn) : result bool :=
  if upload_log_ok E e then Ok false else Raise UnicodeEncodeError.

(** What [upload_questions] answers once the request is made: lines
    130-139. *)
Definition upload_outcome (E : env) (t : list event) (r : http_request) : result bool :=
  match requests_post E t r with
  | Ok response =>
      if ((400 <=? status_code response) && (status_code response <? 600))%Z
      then upload_handled E (HTTPError (http_error_message response) response)
      else Ok true
  | Raise e => if is_RequestException e then upload_handled E e else Raise e
  end.

(** The local [content] of [generate_questions] when the [try] is left:
    bound once line 76 completed. *)
Definition content_bound (E : env) (prompt : pystr) (w : world) : option pystr :=
  match generate_content E prompt w with
  | (Ok c, _) => Some c
  | (Raise _, _) => None
  end.

(** The log lines of the handlers of [generate_questions] for [e] can be
    written: the content for a [JSONDecodeError], the message of [e] for
    another exception. *)
Definition generate_log_ok (E : env) (content : option pystr) (e : exn) : bool :=
  if is_JSONDecodeError e
  then match content with Some c => printable E c | None => true end
  else printable E (exn_str e).

(** What the handlers of [generate_questions] answer to [e] in the world
    [w1]: a new empty list after their log lines, or the
    [UnicodeEncodeError] of one of them. *)
Definition generate_handled (E : env) (content : option pystr) (e : exn) (w1 : world)
    : result pyval * world :=
  if generate_log_ok E content e
  then (Ok (VRef (length (heap w1))),
        {| heap := heap w1 ++ [OList []]; trace := trace w1 |})
  else (Raise UnicodeEncodeError, w1).

(** [q] refers to a dict. *)
Definition is_dict (h : list pyobj) (q : pyval) : Prop :=
  exists b d, q = VRef b /\ h !! b = Some (ODict d).

(** What a parser reads is a prefix of its input. *)
Definition reads_prefix {A : Type}
    (p : nat -> list token -> option (A * list token)) (fuel : nat) : Prop :=
  forall ts x r, p fuel ts = Some (x, r) -> exists pre, ts = pre ++ r.

(** ** Example services and inputs *)

(** A standard output in UTF-8: every character but the surrogates. *)
Definition utf8_encodes (c : pychar) : bool := negb ((55296 <=? c) && (c <=? 57343)).

(** A completion that is no JSON. *)
Definition env_sorry : env :=
  {| chat_completions_create := fun _ _ =>
       Ok {| choices := [ {| message_content := Some (lit "sorry, I can't help") |} ] |};
     requests_post := fun _ _ => Raise (ConnectionError []);
     stdout_encodes := utf8_encodes |}.

(** A completion of one character that UTF-8 cannot write: the
    surrogate U+D800, as the completion service decodes it from the escape
    backslash-u-d800 of its JSON reply. *)
Definition env_surrogate : env :=
  {| chat_completions_create := fun _ _ =>
       Ok {| choices := [ {| message_content := Some [55296] |} ] |};
     requests_post := fun _ _ => Raise (ConnectionError []);
     stdout_encodes := utf8_encodes |}.

(** A reply with a fence and a category of the model's own. *)
Definition env_geography : env :=
  {| chat_completions_create := fun _ _ =>
       Ok {| choices := [ {| message_content := Some (
         lit "```json
[{" ++ quoted "text" ++ lit ": " ++ quoted "Q" ++ lit ", "
         ++ quoted "category" ++ lit ": " ++ quoted "Geography" ++ lit "}]
```") |} ] |};
     requests_post := fun _ _ => Raise (ConnectionError []);
     stdout_encodes := utf8_encodes |}.

(** A completion that is an empty JSON object. *)
Definition env_braces : env :=
  {| chat_completions_create := fun _ _ =>
       Ok {| choices := [ {| message_content := Some (lit "{}") |} ] |};
     requests_post := fun _ _ => Raise (ConnectionError []);
     stdout_encodes := utf8_encodes |}.

(** The record of the specification's example, with a key too many. *)
Definition example_heap : list pyobj :=
  [ OList [VStr (lit "B"); VStr (lit "D"); VStr (lit "E")];
    ODict [ (lit "id", VInt 7);
            (key_text, VStr (lit "Q"));
            (key_answer, VStr (lit "A"));
            (key_category, VStr (lit "C"));
            (key_filler_answers, VRef 0) ];
    OList [VRef 1] ].

(** A world whose store holds it, with the list of records at address 2. *)
Definition example_world : world := {| heap := example_heap; trace := [] |}.


(** An upload endpoint that answers every POST with [status]. *)
Definition env_status (status : Z) : env :=
  {| chat_completions_create := fun _ _ => Raise (APIError []);
     requests_post := fun _ _ =>
       Ok {| status_code := status; reason := []; response_url := API_URL; text := [] |};
     stdout_encodes := utf8_encodes |}.

(** An upload endpoint that answers every POST with the status 502 and
    a body that UTF-8 cannot write. *)
Definition env_bad_gateway : env :=
  {| chat_completions_create := fun _ _ => Raise (APIError []);
     requests_post := fun _ _ =>
       Ok {| status_code := 502; reason := lit "Bad Gateway"; response_url := API_URL;
             text := [55296] |};
     stdout_encodes := utf8_encodes |}.

(** A completion whose records have a [text] and nothing else. *)
Definition env_text_only : env :=
  {| chat_completions_create := fun _ _ =>
       Ok {| choices := [ {| message_content := Some (
         lit "[{" ++ quoted "text" ++ lit ": " ++ quoted "Q" ++ lit "}]") |} ] |};
     requests_post := fun _ _ =>
       Ok {| status_code := 201; reason := lit "Created"; response_url := API_URL;
             text := [] |};
     stdout_encodes := utf8_encodes |}.

(** ** Vocabulary of the further properties *)

(** A character that line 76 may remove at an end of the text: white
    space, a backtick, or one of the letters j, s, o, n. *)
Definition strippable (c : pychar) : bool := is_py_space c || char_in fence_json c.

(** The first and the last character of [s] are not [strippable]. *)
Definition plain_ends (s : pystr) : Prop :=
  exists c c', head s = Some c /\ last s = Some c'
               /\ strippable c = false /\ strippable c' = false.

(** The request [upload_questions] makes with the body [body]. *)
Definition post_request (self : QuestionGenerator) (body : json) : http_request :=
  {| url := api_url self; json_body := body; headers_sent := headers self; timeout := 30 |}.

(** [m] makes no call when the calls so far are [t], and raises no
    exception of the requests library. *)
Definition quiet {A : Type} (t : list event) (m : M A) : Prop :=
  forall w, trace w = t ->
    trace (snd (m w)) = t
    /\ forall e, fst (m w) = Raise e -> is_RequestException e = false.

(** How a call of [upload_questions] in the world [w] can end: at the
    test of line 103, with [False] and nothing done; before the POST, with
    an exception that is none of the requests library; or with one POST,
    and the answer that follows from its outcome. *)
Definition upload_shape (E : env) (self : QuestionGenerator) (w : world)
    (r : result bool * world) : Prop :=
  r = (Ok false, w)
  \/ (trace (snd r) = trace w
      /\ exists e, fst r = Raise e /\ is_RequestException e = false)
  \/ (exists body,
        fst r = upload_outcome E (trace w) (post_request self body)
        /\ trace (snd r) = trace w ++ [EvPost (post_request self body)]).

(** The first of the required keys, in the order of lines 111-114, that
    a dict lacks. *)
Definition first_missing_key (d : list (pystr * pyval)) : option pystr :=
  find (fun k => match dict_get k d with None => true | Some _ => false end)
       required_keys.

(** [q] is an object or a value that has no string keys: a list, a
    string, a number, a boolean or [None]. *)
Definition not_a_dict (h : list pyobj) (q : pyval) : Prop :=
  match q with
  | VRef b => exists items, h !! b = Some (OList items)
  | _ => True
  end.

(** The two loops of [alloc_json], by name. *)
Fixpoint alloc_list (l : list json) (h : list pyobj) : list pyval * list pyobj :=
  match l with
  | [] => ([], h)
  | x :: l' =>
      let '(v, h1) := alloc_json x h in
      let '(vs, h2) := alloc_list l' h1 in
      (v :: vs, h2)
  end.

Fixpoint alloc_fields (d : list (pystr * json)) (h : list pyobj)
    : list (pystr * pyval) * list pyobj :=
  match d with
  | [] => ([], h)
  | (k, x) :: d' =>
      let '(v, h1) := alloc_json x h in
      let '(kvs, h2) := alloc_fields d' h1 in
      ((k, v) :: kvs, h2)
  end.

(** The stores [H] and [h] hold the same objects at the addresses from
    [lo] up to [hi]. *)
Definition agree (lo hi : nat) (H h : list pyobj) : Prop :=
  forall a, (lo <= a < hi)%nat -> H !! a = h !! a.

(** The objects built for [j] are new, after the objects there were, and
    the value they are built into is written as [j] again in every store
    that holds them. *)
Definition builds (j : json) : Prop :=
  forall h v h', alloc_json j h = (v, h') ->
    exists ext, h' = h ++ ext
      /\ forall H, agree (length h) (length h') H h' -> to_json (length ext) H v = Some j.

(** [v] refers to no object of the store [h0]: it is a value without
    identity, or a reference to an object made after [h0]. *)
Definition new_value (h0 : list pyobj) (v : pyval) : Prop :=
  match v with
  | VRef b => (length h0 <= b)%nat
  | _ => True
  end.

(** [v] is written as the tree [j], with the fuel [fuel]. *)
Definition written_as (fuel : nat) (h : list pyobj) (v : pyval) (j : json) : Prop :=
  to_json fuel h v = Some j.

(** The items of a dict of the store against the members of a JSON
    object: the same keys in the same order, each value written as the
    member's tree. *)
Definition fields_written (fuel : nat) (h : list pyobj)
    (kvs : list (pystr * pyval)) (d : list (pystr * json)) : Prop :=
  Forall2 (fun kv' kv => fst kv' = fst kv /\ written_as fuel h (snd kv') (snd kv)) kvs d.

Definition is_object (j : json) : bool :=
  match j with JDict _ => true | _ => false end.

(** The decoded values that the loop of lines 80-81 accepts: an array of
    objects and, because it has nothing to visit in them, an empty object
    and an empty string. *)
Definition loop_accepts (j : json) : bool :=
  match j with
  | JList l => forallb is_object l
  | JDict [] => true
  | JStr [] => true
  | _ => false
  end.

(** A decoded record with its [category] set. *)
Definition stamp_record (category : pystr) (d : list (pystr * json)) : json :=
  JDict (dict_set key_category (JStr category) d).

(** What is uploaded of a decoded record: its [text], [answer] and
    [filler_answers], and the category of the call. *)
Definition uploaded_record (category : pystr) (d : list (pystr * json)) : option json :=
  match dict_get key_text d, dict_get key_answer d, dict_get key_filler_answers d with
  | Some t, Some a, Some f =>
      Some (JDict [ (key_text, t); (key_answer, a);
                    (key_category, JStr category); (key_filler_answers, f) ])
  | _, _, _ => None
  end.

(** The completion request of the driver for a category. *)
Definition category_request (category : pystr) : chat_request :=
  chat_request_of (prompt_text category QUESTIONS_PER_CATEGORY 3).

(** An answer of the completion service from which no questions come,
    and that the handlers of lines 85-91 can log: the call raises an
    exception whose message can be written, there is no choice, the
    content is [None], or the cleaned content is not JSON and can be
    written. *)
Definition no_questions (E : env) (r : result chat_response) : Prop :=
  match r with
  | Raise e => printable E (exn_str e) = true
  | Ok response =>
      match choices response with
      | [] => True
      | c :: _ =>
          match message_content c with
          | None => True
          | Some s => json_loads (clean_content s) = None
                      /\ printable E (clean_content s) = true
          end
      end
  end.

(** An answer of the completion service that holds a non-empty array of
    records with the keys [upload_questions] reads. *)
Definition good_questions (r : result chat_response) : Prop :=
  exists s rest records,
    r = Ok {| choices := {| message_content := Some s |} :: rest |}
    /\ json_loads (clean_content s) = Some (JList (map JDict records))
    /\ records <> []
    /\ Forall (fun d => dict_get key_text d <> None /\ dict_get key_answer d <> None
                        /\ dict_get key_filler_answers d <> None) records.

(** The POST completes or fails with an exception of the requests
    library, and when it fails (with that exception, or with a status
    from 400 to 599) the log lines of the handler of line 134 can be
    written. *)
Definition settles (E : env) (r : result http_response) : Prop :=
  match r with
  | Ok response =>
      (400 <= status_code response < 600)%Z ->
      upload_log_ok E (HTTPError (http_error_message response) response) = true
  | Raise e => is_RequestException e = true /\ upload_log_ok E e = true
  end.

(** The calls of one turn of the driver's loop: the completion request
    for the category, then at most one POST. *)
Definition turn_of (generator : QuestionGenerator) (category : pystr)
    (evs : list event) : Prop :=
  evs = [EvCreate (category_request category)]
  \/ exists body, evs = [EvCreate (category_request category);
                         EvPost (post_request generator body)].

(** A turn that uploads, after the calls [t]: the completion request for
    the category, then one POST of the records that the completion
    decodes to, reshaped. *)
Definition uploading_turn (E : env) (generator : QuestionGenerator) (t : list event)
    (category : pystr) (evs : list event) : Prop :=
  exists text rest records bodies,
    chat_completions_create E t (category_request category)
      = Ok {| choices := {| message_content := Some text |} :: rest |}
    /\ json_loads (clean_content text) = Some (JList (map JDict records))
    /\ mapM (uploaded_record category) records = Some bodies
    /\ bodies <> []
    /\ evs = [EvCreate (category_request category);
              EvPost (upload_request generator bodies)].

(** Uploading turns for the categories in their order, each after the
    calls of the turns before it. *)
Fixpoint uploading_turns (E : env) (generator : QuestionGenerator) (t : list event)
    (categories : list pystr) (turns : list (list event)) : Prop :=
  match categories, turns with
  | [], [] => True
  | category :: categories', turn :: turns' =>
      uploading_turn E generator t category turn
      /\ uploading_turns E generator (t ++ turn) categories' turns'
  | _, _ => False
  end.

(** The generator [main] builds. *)
Definition main_generator : QuestionGenerator := QuestionGenerator_init API_URL None.

(** A completion of two records, the second with a category of the
    model's own and a key too many. *)
Definition two_records_text : pystr :=
  lit "```json
[{" ++ quoted "text" ++ lit ": " ++ quoted "Q1" ++ lit ", "
  ++ quoted "answer" ++ lit ": " ++ quoted "A1" ++ lit ", "
  ++ quoted "filler_answers" ++ lit ": [" ++ quoted "B" ++ lit ", " ++ quoted "C" ++ lit "]},
 {" ++ quoted "id" ++ lit ": 7, "
  ++ quoted "category" ++ lit ": " ++ quoted "Art" ++ lit ", "
  ++ quoted "text" ++ lit ": " ++ quoted "Q2" ++ lit ", "
  ++ quoted "answer" ++ lit ": " ++ quoted "A2" ++ lit ", "
  ++ quoted "filler_answers" ++ lit ": []}]
```".

Definition two_records : list (list (pystr * json)) :=
  [ [ (key_text, JStr (lit "Q1")); (key_answer, JStr (lit "A1"));
      (key_filler_answers, JList [JStr (lit "B"); JStr (lit "C")]) ];
    [ (lit "id", JInt 7); (key_category, JStr (lit "Art"));
      (key_text, JStr (lit "Q2")); (key_answer, JStr (lit "A2"));
      (key_filler_answers, JList []) ] ].

(** Services that answer every completion request with it and every
    POST with [outcome]. *)
Definition env_two_records (outcome : result http_response) : env :=
  {| chat_completions_create := fun _ _ =>
       Ok {| choices := [ {| message_content := Some two_records_text |} ] |};
     requests_post := fun _ _ => outcome;
     stdout_encodes := utf8_encodes |}.

(** * Properties *)

#[local] Arguments N.eqb : simpl never.
#[local] Arguments N.leb : simpl never.
#[local] Arguments N.sub : simpl never.

(** ** Stripping *)

Lemma drop_while_app (f : pychar -> bool) (t l : pystr) :
  drop_while f (t ++ l) =
  if forallb f t then drop_while f l else drop_while f t ++ l.
Proof.
  induction t as [|c t IH]; simpl; [reflexivity|].
  destruct (f c); simpl; [exact IH | reflexivity].
Qed.

Lemma drop_while_all (f : pychar -> bool) (t : pystr) :
  forallb f t = true -> drop_while f t = [].
Proof.
  induction t as [|c t IH]; simpl; [reflexivity|].
  destruct (f c); simpl; [exact IH | discriminate].
Qed.

Lemma rstrip_by_snoc_keep (f : pychar -> bool) (s : pystr) (c : pychar) :
  f c = false -> rstrip_by f (s ++ [c]) = s ++ [c].
Proof.
  intros Hc. unfold rstrip_by. rewrite rev_app_distr. simpl. rewrite Hc.
  simpl. now rewrite rev_involutive.
Qed.

Lemma rstrip_by_snoc_drop (f : pychar -> bool) (s : pystr) (c : pychar) :
  f c = true -> rstrip_by f (s ++ [c]) = rstrip_by f s.
Proof.
  intros Hc. unfold rstrip_by. rewrite rev_app_distr. simpl. now rewrite Hc.
Qed.

Lemma rstrip_by_app_drop (f : pychar -> bool) (s b : pystr) :
  forallb f b = true -> rstrip_by f (s ++ b) = rstrip_by f s.
Proof.
  revert s. induction b as [|c b IH] using rev_ind; intros s Hb.
  - now rewrite app_nil_r.
  - rewrite forallb_app in Hb. apply andb_true_iff in Hb as [Hb Hc].
    simpl in Hc. rewrite andb_true_r in Hc.
    rewrite app_assoc, rstrip_by_snoc_drop by exact Hc. now apply IH.
Qed.

Lemma strip_by_keep (f : pychar -> bool) (c c' : pychar) (s : pystr) :
  f c = false -> f c' = false ->
  strip_by f (c :: s ++ [c']) = c :: s ++ [c'].
Proof.
  intros Hc Hc'. unfold strip_by, lstrip_by. simpl. rewrite Hc.
  now rewrite app_comm_cons, rstrip_by_snoc_keep.
Qed.

Lemma strip_by_drop_ends (f : pychar -> bool) (c c' : pychar) (t : pystr) :
  f c = true -> f c' = true ->
  strip_by f (c :: t ++ [c']) = strip_by f t.
Proof.
  intros Hc Hc'. unfold strip_by, lstrip_by. simpl. rewrite Hc.
  rewrite drop_while_app. destruct (forallb f t) eqn:Ht.
  - simpl. rewrite Hc'. now rewrite drop_while_all.
  - now apply rstrip_by_snoc_drop.
Qed.

Lemma strip_by_frame (f : pychar -> bool) (pre post s : pystr) (c c' : pychar) :
  forallb f pre = true -> forallb f post = true ->
  f c = false -> f c' = false ->
  strip_by f (pre ++ (c :: s ++ [c']) ++ post) = c :: s ++ [c'].
Proof.
  intros Hpre Hpost Hc Hc'. unfold strip_by, lstrip_by.
  rewrite drop_while_app, Hpre.
  assert (E : drop_while f ((c :: s ++ [c']) ++ post) = (c :: s ++ [c']) ++ post).
  { simpl. now rewrite Hc. }
  rewrite E, rstrip_by_app_drop by exact Hpost.
  now rewrite app_comm_cons, rstrip_by_snoc_keep.
Qed.

(** What the cleaning step leaves of a fenced text: the text between the
    fence lines, stripped of its surrounding white space. *)
Lemma clean_content_fenced (t : pystr) :
  clean_content (fence_json ++ [10] ++ t ++ [10] ++ fence) = py_strip t.
Proof.
  unfold clean_content.
  set (x := 10 :: t ++ [10]).
  assert (E1 : py_strip (fence_json ++ [10] ++ t ++ [10] ++ fence)
               = fence_json ++ x ++ fence).
  { replace (fence_json ++ [10] ++ t ++ [10] ++ fence)
      with ([] ++ (96 :: ([96; 96; 106; 115; 111; 110; 10] ++ t ++ [10; 96; 96]) ++ [96]) ++ []).
    - unfold py_strip. rewrite strip_by_frame by reflexivity.
      unfold fence_json, fence, x. simpl. now rewrite <- !app_assoc.
    - unfold fence_json, fence. simpl. rewrite app_nil_r. now rewrite <- !app_assoc. }
  rewrite E1.
  assert (E2 : py_strip_chars fence_json (fence_json ++ x ++ fence) = x).
  { unfold py_strip_chars, x. apply strip_by_frame; reflexivity. }
  rewrite E2.
  assert (E3 : py_strip_chars fence x = x).
  { unfold py_strip_chars, x.
    change (10 :: t ++ [10]) with ([] ++ (10 :: t ++ [10])) at 1.
    rewrite <- (app_nil_r ([] ++ (10 :: t ++ [10]))).
    rewrite <- app_assoc. apply strip_by_frame; reflexivity. }
  rewrite E3. unfold py_strip, x. now apply strip_by_drop_ends.
Qed.

(** ** The decoder and white space

    A character that [str.strip()] removes is never part of a token: at
    the end of a text the lexer either skips it or fails on it. *)

Lemma py_space_outside (w : pychar) : is_py_space w = true -> outside_tokens w.
Proof.
  unfold is_py_space, outside_tokens. intros H.
  repeat rewrite ?orb_true_iff, ?andb_true_iff, ?N.leb_le, ?N.eqb_eq in H. lia.
Qed.

Ltac bool_to_prop :=
  repeat match goal with
    | H : (_ =? _) = true |- _ => apply N.eqb_eq in H
    | H : (_ =? _) = false |- _ => apply N.eqb_neq in H
    | H : (_ <=? _) = true |- _ => apply N.leb_le in H
    | H : (_ <=? _) = false |- _ => apply N.leb_gt in H
    | H : (_ && _) = true |- _ => apply andb_true_iff in H as [? ?]
    | H : (_ || _) = false |- _ => apply orb_false_iff in H as [? ?]
    end.

Lemma outside_not_digit (w : pychar) : outside_tokens w -> is_digit w = false.
Proof.
  unfold outside_tokens, is_digit. intros H.
  destruct (48 <=? w) eqn:E1, (w <=? 57) eqn:E2; try reflexivity.
  bool_to_prop. lia.
Qed.

Lemma outside_not_hex (w : pychar) : outside_tokens w -> hex_val w = None.
Proof.
  intros H. unfold hex_val. rewrite outside_not_digit by exact H.
  unfold outside_tokens in H.
  destruct (97 <=? w) eqn:E1, (w <=? 102) eqn:E2, (65 <=? w) eqn:E3, (w <=? 70) eqn:E4;
    try reflexivity; bool_to_prop; lia.
Qed.

Lemma outside_neq (w k : pychar) :
  outside_tokens w -> 33 <= k <= 132 -> (w =? k) = false.
Proof. unfold outside_tokens. intros H Hk. apply N.eqb_neq. lia. Qed.

Lemma outside_neq' (w k : pychar) :
  outside_tokens w -> 33 <= k <= 132 -> (k =? w) = false.
Proof. unfold outside_tokens. intros H Hk. apply N.eqb_neq. lia. Qed.

Ltac outside_simpl Hw :=
  repeat first
    [ rewrite (outside_not_digit _ Hw) in *
    | rewrite (outside_not_hex _ Hw) in *
    | rewrite (outside_neq _ _ Hw) in * by lia
    | rewrite (outside_neq' _ _ Hw) in * by lia ].

Lemma strip_prefix_snoc (w : pychar) (p s rest : pystr) :
  outside_tokens w -> Forall (fun k => 33 <= k <= 132) p ->
  strip_prefix p (s ++ [w]) = Some rest ->
  exists r, rest = r ++ [w] /\ strip_prefix p s = Some r.
Proof.
  intros Hw Hp. revert s. induction Hp as [|k p Hk Hp IH]; intros s H.
  - simpl in H. injection H as <-. exists s. split; [reflexivity|]. now destruct s.
  - destruct s as [|c s]; simpl in *.
    + rewrite (outside_neq' _ _ Hw) in H by lia. discriminate.
    + destruct (k =? c); [now apply IH | discriminate].
Qed.

Lemma hex4_snoc (w : pychar) (s rest : pystr) (v : N) :
  outside_tokens w ->
  hex4 (s ++ [w]) = Some (v, rest) ->
  exists r, rest = r ++ [w] /\ hex4 s = Some (v, r).
Proof.
  intros Hw H.
  destruct s as [|a [|b [|c [|d s]]]]; simpl in H;
    try discriminate;
    try (rewrite (outside_not_hex _ Hw) in H;
         repeat match type of H with
           | context [match hex_val ?x with _ => _ end] => destruct (hex_val x)
           end; discriminate).
  simpl.
  destruct (hex_val a), (hex_val b), (hex_val c), (hex_val d); try discriminate.
  injection H as <- <-. eauto.
Qed.

Lemma unicode_escape_snoc (w : pychar) (s rest : pystr) (u : pychar) :
  outside_tokens w ->
  unicode_escape (s ++ [w]) = Some (u, rest) ->
  exists r, rest = r ++ [w] /\ unicode_escape s = Some (u, r).
Proof.
  intros Hw H. unfold unicode_escape in *.
  destruct (hex4 (s ++ [w])) as [[c r0]|] eqn:E; [|discriminate].
  apply hex4_snoc in E as (r & -> & ->); [|exact Hw].
  destruct (is_high_surrogate c); [|injection H as <- <-; eauto].
  destruct (strip_prefix [92; 117] (r ++ [w])) as [r2|] eqn:E2.
  - apply strip_prefix_snoc in E2 as (r2' & -> & ->); [|exact Hw|].
    2:{ repeat constructor; lia. }
    destruct (hex4 (r2' ++ [w])) as [[c2 r3]|] eqn:E3; [|discriminate].
    apply hex4_snoc in E3 as (r3' & -> & ->); [|exact Hw].
    destruct (is_low_surrogate c2); injection H as <- <-; eauto.
  - injection H as <- <-.
    destruct (strip_prefix [92; 117] r) as [r2|] eqn:E4; [|eauto].
    exfalso. revert E2 E4. clear. intros E2 E4.
    destruct r as [|a [|b r]]; simpl in *; try discriminate.
    + destruct (92 =? a); discriminate.
    + destruct (92 =? a); [|discriminate]. destruct (117 =? b); discriminate.
Qed.

Lemma consc_Some {A B : Type} (a : A) (o : option (list A * B)) l b :
  consc a o = Some (l, b) -> exists l', l = a :: l' /\ o = Some (l', b).
Proof.
  destruct o as [[l' b']|]; simpl; [|discriminate].
  intros H. injection H as <- <-. eauto.
Qed.

Lemma escape_char_outside (w : pychar) : outside_tokens w -> escape_char w = None.
Proof. intros Hw. unfold escape_char. now outside_simpl Hw. Qed.

Lemma scan_string_snoc (w : pychar) (fuel : nat) :
  outside_tokens w ->
  forall s str rest,
    scan_string fuel (s ++ [w]) = Some (str, rest) ->
    exists r, rest = r ++ [w] /\ scan_string fuel s = Some (str, r).
Proof.
  intros Hw. induction fuel as [|fuel IH]; intros s str rest H; [discriminate|].
  assert (Hend : scan_string fuel [] = None) by (destruct fuel; reflexivity).
  destruct s as [|c s].
  - exfalso. simpl in H. outside_simpl Hw.
    destruct (w <=? 31); [discriminate|]. now rewrite Hend in H.
  - cbn [app scan_string] in *.
    destruct (c =? 34). { injection H as <- <-. eauto. }
    destruct (c =? 92).
    + destruct s as [|e s]; cbn [app] in *.
      * exfalso. outside_simpl Hw. rewrite escape_char_outside in H by exact Hw.
        discriminate.
      * destruct (e =? 117).
        -- destruct (unicode_escape (s ++ [w])) as [[u r'']|] eqn:E; [|discriminate].
           apply unicode_escape_snoc in E as (r & -> & ->); [|exact Hw].
           apply consc_Some in H as (l' & -> & H).
           apply IH in H as (r1 & -> & ->). eauto.
        -- destruct (escape_char e); [|discriminate].
           apply consc_Some in H as (l' & -> & H).
           apply IH in H as (r1 & -> & ->). eauto.
    + destruct (c <=? 31); [discriminate|].
      apply consc_Some in H as (l' & -> & H).
      apply IH in H as (r1 & -> & ->). eauto.
Qed.

Lemma span_digits_snoc (w : pychar) (s : pystr) :
  outside_tokens w ->
  span_digits (s ++ [w]) = (fst (span_digits s), snd (span_digits s) ++ [w]).
Proof.
  intros Hw. induction s as [|c s IH]; simpl.
  - now outside_simpl Hw.
  - destruct (is_digit c); [|reflexivity].
    rewrite IH. now destruct (span_digits s).
Qed.

Lemma lex_sign_snoc (w : pychar) (s : pystr) :
  outside_tokens w ->
  lex_sign (s ++ [w]) = (fst (lex_sign s), snd (lex_sign s) ++ [w]).
Proof.
  intros Hw. destruct s as [|c s]; simpl.
  - now outside_simpl Hw.
  - now destruct (c =? 45).
Qed.

Lemma lex_exp_sign_snoc (w : pychar) (s : pystr) :
  outside_tokens w ->
  lex_exp_sign (s ++ [w]) = (fst (lex_exp_sign s), snd (lex_exp_sign s) ++ [w]).
Proof.
  intros Hw. destruct s as [|c s]; simpl.
  - now outside_simpl Hw.
  - now destruct (c =? 43), (c =? 45).
Qed.

Lemma lex_int_part_snoc (w : pychar) (s : pystr) :
  outside_tokens w ->
  lex_int_part (s ++ [w]) =
  match lex_int_part s with
  | Some (ds, r) => Some (ds, r ++ [w])
  | None => None
  end.
Proof.
  intros Hw. destruct s as [|c s]; simpl.
  - now outside_simpl Hw.
  - destruct (c =? 48); [reflexivity|].
    destruct (is_digit c); [|reflexivity].
    rewrite span_digits_snoc by exact Hw. now destruct (span_digits s).
Qed.

Lemma lex_frac_snoc (w : pychar) (s : pystr) :
  outside_tokens w ->
  lex_frac (s ++ [w]) = (fst (lex_frac s), snd (lex_frac s) ++ [w]).
Proof.
  intros Hw. destruct s as [|c s]; simpl.
  - now outside_simpl Hw.
  - destruct (c =? 46); [|reflexivity].
    rewrite span_digits_snoc by exact Hw.
    now destruct (span_digits s) as [[|d ds] r].
Qed.

Lemma lex_exp_snoc (w : pychar) (s : pystr) :
  outside_tokens w ->
  lex_exp (s ++ [w]) = (fst (lex_exp s), snd (lex_exp s) ++ [w]).
Proof.
  intros Hw. destruct s as [|c s]; simpl.
  - now outside_simpl Hw.
  - destruct ((c =? 101) || (c =? 69)); [|reflexivity].
    rewrite lex_exp_sign_snoc by exact Hw.
    destruct (lex_exp_sign s) as [neg r1]. simpl.
    rewrite span_digits_snoc by exact Hw.
    now destruct (span_digits r1) as [[|d ds] r].
Qed.

Lemma lex_number_snoc (w : pychar) (s rest : pystr) (t : token) :
  outside_tokens w ->
  lex_number (s ++ [w]) = Some (t, rest) ->
  exists r, rest = r ++ [w] /\ lex_number s = Some (t, r).
Proof.
  intros Hw. unfold lex_number.
  rewrite lex_sign_snoc by exact Hw. destruct (lex_sign s) as [neg s1]. cbn [fst snd].
  rewrite lex_int_part_snoc by exact Hw.
  destruct (lex_int_part s1) as [[ds r1]|].
  - rewrite lex_frac_snoc by exact Hw. destruct (lex_frac r1) as [fr r2]. cbn [fst snd].
    rewrite lex_exp_snoc by exact Hw. destruct (lex_exp r2) as [ex r3]. cbn [fst snd].
    destruct fr, ex; intros H; injection H as <- <-; eauto.
  - destruct neg; [|discriminate].
    destruct (strip_prefix lit_Infinity (s1 ++ [w])) as [r|] eqn:E; [|discriminate].
    apply strip_prefix_snoc in E as (r' & -> & ->); [|exact Hw|].
    + intros H. injection H as <- <-. eauto.
    + repeat constructor; lia.
Qed.

Lemma keyword_snoc (w : pychar) (p : pystr) (t0 t : token) (s rest : pystr) :
  outside_tokens w -> Forall (fun k => 33 <= k <= 132) p ->
  keyword p t0 (s ++ [w]) = Some (t, rest) ->
  exists r, rest = r ++ [w] /\ keyword p t0 s = Some (t, r).
Proof.
  intros Hw Hp. unfold keyword.
  destruct (strip_prefix p (s ++ [w])) as [r|] eqn:E; [|discriminate].
  apply strip_prefix_snoc in E as (r' & -> & ->); [|exact Hw|exact Hp].
  intros H. injection H as <- <-. eauto.
Qed.

Lemma lex_number_outside (w : pychar) : outside_tokens w -> lex_number [w] = None.
Proof.
  intros Hw. unfold lex_number, lex_sign, lex_int_part. now outside_simpl Hw.
Qed.

Lemma lex1_outside (w : pychar) (fuel : nat) (s : pystr) :
  outside_tokens w -> lex1 fuel (w :: s) = None.
Proof.
  intros Hw. unfold lex1. outside_simpl Hw.
  unfold lex_number, lex_sign, lex_int_part. now outside_simpl Hw.
Qed.

Lemma lex1_snoc (w : pychar) (fuel : nat) (s rest : pystr) (t : token) :
  outside_tokens w ->
  lex1 fuel (s ++ [w]) = Some (t, rest) ->
  exists r, rest = r ++ [w] /\ lex1 fuel s = Some (t, r).
Proof.
  intros Hw H. destruct s as [|c s].
  - simpl app in H. now rewrite lex1_outside in H.
  - change ((c :: s) ++ [w]) with (c :: (s ++ [w])) in H.
    unfold lex1 in *.
    repeat match type of H with
      | (if ?b then Some (?tok, _) else _) = _ =>
          destruct b; [injection H as <- <-; eauto|]
      end.
    destruct (c =? 34).
    { destruct (scan_string fuel (s ++ [w])) as [[str r']|] eqn:E; [|discriminate].
      apply scan_string_snoc in E as (r & -> & ->); [|exact Hw].
      injection H as <- <-. eauto. }
    repeat match type of H with
      | (if ?b then keyword _ _ _ else _) = _ =>
          destruct b;
          [apply keyword_snoc in H; [exact H | exact Hw | repeat constructor; lia]|]
      end.
    change (c :: s ++ [w]) with ((c :: s) ++ [w]) in H.
    now apply lex_number_snoc in H.
Qed.

Lemma drop_while_nonempty (f : pychar -> bool) (s : pystr) :
  forallb f s = false -> drop_while f s <> [].
Proof.
  induction s as [|c s IH]; simpl; [discriminate|].
  destruct (f c) eqn:E; simpl; [exact IH | discriminate].
Qed.

(** A trailing white-space character can be dropped. *)
Lemma tokenize_snoc (w : pychar) (fuel : nat) :
  outside_tokens w ->
  forall s ts, tokenize fuel (s ++ [w]) = Some ts -> tokenize fuel s = Some ts.
Proof.
  intros Hw. induction fuel as [|fuel IH]; intros s ts H; [discriminate|].
  cbn [tokenize] in *. unfold skip_ws in *. rewrite drop_while_app in H.
  destruct (forallb is_json_ws s) eqn:Hall.
  - rewrite drop_while_all by exact Hall.
    cbn [drop_while] in H. destruct (is_json_ws w); [exact H|].
    now rewrite lex1_outside in H.
  - pose proof (drop_while_nonempty _ _ Hall) as Hne.
    destruct (drop_while is_json_ws s) as [|c s'] eqn:Es; [contradiction|].
    change ((c :: s') ++ [w]) with (c :: (s' ++ [w])) in H.
    cbv beta iota in H.
    change (c :: (s' ++ [w])) with ((c :: s') ++ [w]) in H.
    destruct (lex1 fuel ((c :: s') ++ [w])) as [[t rest]|] eqn:E; [|discriminate].
    apply lex1_snoc in E as (r & -> & ->); [|exact Hw].
    destruct (tokenize fuel (r ++ [w])) as [ts'|] eqn:E'; [|discriminate].
    apply IH in E'. now rewrite E'.
Qed.

(** Every token takes at least one character, so the length of the text
    is fuel enough for the lexer. *)

Lemma strip_prefix_length (p s r : pystr) :
  strip_prefix p s = Some r -> (length r <= length s)%nat.
Proof.
  revert s. induction p as [|k p IH]; intros s H.
  - destruct s; injection H as <-; reflexivity.
  - destruct s as [|c s]; simpl in H; [discriminate|].
    destruct (k =? c); [|discriminate]. apply IH in H. simpl. lia.
Qed.

Lemma hex4_length (s r : pystr) (v : N) :
  hex4 s = Some (v, r) -> (length r < length s)%nat.
Proof.
  destruct s as [|a [|b [|c [|d s]]]]; simpl; try discriminate.
  destruct (hex_val a), (hex_val b), (hex_val c), (hex_val d); try discriminate.
  intros H. injection H as <- <-. lia.
Qed.

Lemma unicode_escape_length (s r : pystr) (u : pychar) :
  unicode_escape s = Some (u, r) -> (length r < length s)%nat.
Proof.
  unfold unicode_escape.
  destruct (hex4 s) as [[c r0]|] eqn:E; [|discriminate].
  apply hex4_length in E.
  destruct (is_high_surrogate c); [|intros H; injection H as <- <-; exact E].
  destruct (strip_prefix [92; 117] r0) as [r2|] eqn:E2;
    [|intros H; injection H as <- <-; exact E].
  apply strip_prefix_length in E2.
  destruct (hex4 r2) as [[c2 r3]|] eqn:E3; [|discriminate].
  apply hex4_length in E3.
  destruct (is_low_surrogate c2); intros H; injection H as <- <-; lia.
Qed.

Lemma scan_string_length (fuel : nat) :
  forall s str r, scan_string fuel s = Some (str, r) -> (length r < length s)%nat.
Proof.
  induction fuel as [|fuel IH]; intros s str r H; [discriminate|].
  destruct s as [|c s]; [discriminate|]. cbn [scan_string] in H.
  destruct (c =? 34). { injection H as <- <-. simpl. lia. }
  destruct (c =? 92).
  - destruct s as [|e s]; [discriminate|].
    destruct (e =? 117).
    + destruct (unicode_escape s) as [[u r'']|] eqn:E; [|discriminate].
      apply unicode_escape_length in E.
      apply consc_Some in H as (l' & -> & H). apply IH in H. simpl. lia.
    + destruct (escape_char e); [|discriminate].
      apply consc_Some in H as (l' & -> & H). apply IH in H. simpl. lia.
  - destruct (c <=? 31); [discriminate|].
    apply consc_Some in H as (l' & -> & H). apply IH in H. simpl. lia.
Qed.

Lemma scan_string_fuel (fuel : nat) :
  forall s x fuel', scan_string fuel s = Some x -> (length s <= fuel')%nat ->
    scan_string fuel' s = Some x.
Proof.
  induction fuel as [|fuel IH]; intros s [str r] fuel' H Hlen; [discriminate|].
  destruct s as [|c s]; [discriminate|].
  destruct fuel' as [|fuel']; [simpl in Hlen; lia|].
  cbn [scan_string] in *. simpl in Hlen.
  destruct (c =? 34); [exact H|].
  destruct (c =? 92).
  - destruct s as [|e s]; [discriminate|]. simpl in Hlen.
    destruct (e =? 117).
    + destruct (unicode_escape s) as [[u r'']|] eqn:E; [|discriminate].
      apply unicode_escape_length in E.
      apply consc_Some in H as (l' & -> & H).
      rewrite (IH _ _ fuel' H) by lia. reflexivity.
    + destruct (escape_char e); [|discriminate].
      apply consc_Some in H as (l' & -> & H).
      rewrite (IH _ _ fuel' H) by lia. reflexivity.
  - destruct (c <=? 31); [discriminate|].
    apply consc_Some in H as (l' & -> & H).
    rewrite (IH _ _ fuel' H) by lia. reflexivity.
Qed.

Lemma span_digits_length (s : pystr) :
  (length (snd (span_digits s)) <= length s)%nat.
Proof.
  induction s as [|c s IH]; simpl; [lia|].
  destruct (is_digit c); [|simpl; lia].
  destruct (span_digits s). simpl in *. lia.
Qed.

Lemma lex_frac_length (s : pystr) : (length (snd (lex_frac s)) <= length s)%nat.
Proof.
  destruct s as [|c s]; simpl; [lia|].
  destruct (c =? 46); [|simpl; lia].
  pose proof (span_digits_length s) as Hs.
  destruct (span_digits s) as [[|d ds] r]; simpl in *; lia.
Qed.

Lemma lex_exp_length (s : pystr) : (length (snd (lex_exp s)) <= length s)%nat.
Proof.
  destruct s as [|c s]; simpl; [lia|].
  destruct ((c =? 101) || (c =? 69)); [|simpl; lia].
  assert (Hsg : (length (snd (lex_exp_sign s)) <= length s)%nat).
  { destruct s as [|k s]; simpl; [lia|].
    destruct (k =? 43); [simpl; lia|]. destruct (k =? 45); simpl; lia. }
  destruct (lex_exp_sign s) as [neg r1]. simpl in Hsg.
  pose proof (span_digits_length r1) as Hs.
  destruct (span_digits r1) as [[|d ds] r]; simpl in *; lia.
Qed.

Lemma lex_number_length (s r : pystr) (t : token) :
  lex_number s = Some (t, r) -> (length r < length s)%nat.
Proof.
  unfold lex_number.
  assert (Hsg : (length (snd (lex_sign s)) <= length s)%nat
                /\ (fst (lex_sign s) = true -> (length (snd (lex_sign s)) < length s)%nat)).
  { destruct s as [|c s]; simpl; [split; [lia|discriminate]|].
    destruct (c =? 45); simpl; split; try lia; discriminate. }
  destruct (lex_sign s) as [neg s1]. cbn [fst snd] in Hsg. destruct Hsg as [Hsg Hneg].
  destruct (lex_int_part s1) as [[ds r1]|] eqn:Ei.
  - assert (Hi : (length r1 < length s1)%nat).
    { destruct s1 as [|c s1]; [discriminate|]. simpl in Ei.
      destruct (c =? 48); [injection Ei as <- <-; simpl; lia|].
      destruct (is_digit c); [|discriminate].
      pose proof (span_digits_length s1) as Hs.
      destruct (span_digits s1). injection Ei as <- <-. simpl in *. lia. }
    pose proof (lex_frac_length r1) as Hf. destruct (lex_frac r1) as [fr r2].
    pose proof (lex_exp_length r2) as He. destruct (lex_exp r2) as [ex r3].
    cbn [fst snd] in *.
    destruct fr, ex; intros H; injection H as <- <-; lia.
  - destruct neg; [|discriminate].
    destruct (strip_prefix lit_Infinity s1) as [r'|] eqn:E; [|discriminate].
    apply strip_prefix_length in E. intros H. injection H as <- <-.
    specialize (Hneg eq_refl). lia.
Qed.

Lemma keyword_length (p : pystr) (t0 t : token) (s r : pystr) :
  keyword p t0 s = Some (t, r) -> (length r <= length s)%nat.
Proof.
  unfold keyword. destruct (strip_prefix p s) as [r'|] eqn:E; [|discriminate].
  apply strip_prefix_length in E. intros H. injection H as <- <-. exact E.
Qed.

Lemma lex1_length (fuel : nat) (s r : pystr) (t : token) :
  lex1 fuel s = Some (t, r) -> (length r < length s)%nat.
Proof.
  destruct s as [|c s]; [discriminate|]. unfold lex1. intros H.
  repeat match type of H with
    | (if ?b then Some (?tok, _) else _) = _ =>
        destruct b; [injection H as <- <-; simpl; lia|]
    end.
  destruct (c =? 34).
  { destruct (scan_string fuel s) as [[str r']|] eqn:E; [|discriminate].
    apply scan_string_length in E. injection H as <- <-. simpl. lia. }
  repeat match type of H with
    | (if ?b then keyword _ _ _ else _) = _ =>
        destruct b; [apply keyword_length in H; simpl; lia|]
    end.
  now apply lex_number_length in H.
Qed.

Lemma lex1_fuel (fuel fuel' : nat) (s : pystr) (x : token * pystr) :
  lex1 fuel s = Some x -> (length s <= S fuel')%nat -> lex1 fuel' s = Some x.
Proof.
  destruct s as [|c s]; [discriminate|]. unfold lex1. simpl length. intros H Hlen.
  repeat match type of H with
    | (if ?b then Some (?tok, _) else _) = _ => destruct b; [exact H|]
    end.
  destruct (c =? 34); [|exact H].
  destruct (scan_string fuel s) as [[str r']|] eqn:E; [|discriminate].
  rewrite (scan_string_fuel _ _ _ fuel' E) by lia. exact H.
Qed.

Lemma drop_while_length (f : pychar -> bool) (s : pystr) :
  (length (drop_while f s) <= length s)%nat.
Proof.
  induction s as [|c s IH]; simpl; [lia|]. destruct (f c); simpl; lia.
Qed.

Lemma tokenize_fuel (fuel : nat) :
  forall s ts fuel', tokenize fuel s = Some ts -> (length s < fuel')%nat ->
    tokenize fuel' s = Some ts.
Proof.
  induction fuel as [|fuel IH]; intros s ts fuel' H Hlen; [discriminate|].
  destruct fuel' as [|fuel']; [lia|].
  cbn [tokenize] in *.
  pose proof (drop_while_length is_json_ws s) as Hws. fold (skip_ws s) in Hws.
  destruct (skip_ws s) as [|c s']; [exact H|].
  destruct (lex1 fuel (c :: s')) as [[t rest]|] eqn:E; [|discriminate].
  pose proof (lex1_length _ _ _ _ E) as Hr.
  rewrite (lex1_fuel _ fuel' _ _ E) by lia.
  destruct (tokenize fuel rest) as [ts'|] eqn:E'; [|discriminate].
  rewrite (IH _ _ fuel' E') by lia. exact H.
Qed.

Lemma tokenize_head (w : pychar) (fuel : nat) (s : pystr) (ts : list token) :
  outside_tokens w ->
  tokenize fuel (w :: s) = Some ts -> tokenize fuel s = Some ts.
Proof.
  intros Hw. destruct fuel as [|fuel]; [discriminate|].
  cbn [tokenize]. unfold skip_ws. cbn [drop_while].
  destruct (is_json_ws w); [trivial|].
  now rewrite lex1_outside.
Qed.

Lemma tokenize_lstrip (fuel : nat) (s : pystr) (ts : list token) :
  tokenize fuel s = Some ts ->
  tokenize fuel (lstrip_by is_py_space s) = Some ts.
Proof.
  unfold lstrip_by. induction s as [|c s IH]; simpl; [trivial|].
  destruct (is_py_space c) eqn:Ec; [|trivial].
  intros H. apply IH. eapply tokenize_head; [|exact H].
  now apply py_space_outside.
Qed.

Lemma tokenize_rstrip (fuel : nat) (s : pystr) (ts : list token) :
  tokenize fuel s = Some ts ->
  tokenize fuel (rstrip_by is_py_space s) = Some ts.
Proof.
  induction s as [|c s IH] using rev_ind; [trivial|].
  destruct (is_py_space c) eqn:Ec.
  - rewrite rstrip_by_snoc_drop by exact Ec.
    intros H. apply IH. eapply tokenize_snoc; [|exact H].
    now apply py_space_outside.
  - now rewrite rstrip_by_snoc_keep.
Qed.

Lemma strip_by_length (f : pychar -> bool) (s : pystr) :
  (length (strip_by f s) <= length s)%nat.
Proof.
  unfold strip_by, rstrip_by, lstrip_by. rewrite length_rev.
  pose proof (drop_while_length f (rev (drop_while f s))) as H1.
  pose proof (drop_while_length f s) as H2.
  rewrite length_rev in H1. lia.
Qed.

(** A text that [json.loads] accepts is decoded to the same value after
    [str.strip()]. *)
Lemma json_loads_strip (t : pystr) (v : json) :
  json_loads t = Some v -> json_loads (py_strip t) = Some v.
Proof.
  unfold json_loads.
  destruct (tokenize (S (length t)) t) as [ts|] eqn:E; [|discriminate].
  apply tokenize_lstrip, tokenize_rstrip in E.
  fold (strip_by is_py_space t) in E. fold (py_strip t) in E.
  pose proof (strip_by_length is_py_space t) as Hlen. fold (py_strip t) in Hlen.
  rewrite (tokenize_fuel _ _ _ (S (length (py_strip t))) E) by lia.
  trivial.
Qed.

(** ** The fuel of the parser

    A value, a run of elements or a run of members that is parsed with
    some fuel is parsed, to the same result, with twice as much fuel as it
    has tokens: the fuel [json_loads] gives the parser never runs out on a
    text that can be parsed. *)

Lemma parse_value_nil (fuel : nat) : parse_value fuel [] = None.
Proof. now destruct fuel. Qed.

Lemma parse_elems_nil (fuel : nat) : parse_elems fuel [] = None.
Proof. destruct fuel; [reflexivity|]. cbn [parse_elems]. now rewrite parse_value_nil. Qed.

Lemma parse_members_nil (fuel : nat) : parse_members fuel [] = None.
Proof. now destruct fuel. Qed.

Lemma parse_fuel (fuel : nat) :
  enough_fuel parse_value fuel /\ enough_fuel parse_elems fuel
  /\ enough_fuel parse_members fuel.
Proof.
  induction fuel as [|fuel (IHv & IHe & IHm)];
    [split; [|split]; intros ts x r H; discriminate|].
  split; [|split].
  - (* a value *)
    intros ts v r H.
    assert (Hleaf : forall (t : token) (rest : list token),
               ts = t :: rest -> r = rest ->
               (forall fuel', parse_value (S fuel') ts = Some (v, r)) ->
               (length r < length ts)%nat
               /\ forall fuel', (2 * (length ts - length r) <= fuel')%nat ->
                 parse_value fuel' ts = Some (v, r)).
    { intros t rest -> -> Hall. split; [simpl; lia|].
      intros [|fuel'] Hf; [simpl in Hf; lia | apply Hall]. }
    destruct ts as [|t ts0]; [discriminate|].
    destruct t; try discriminate;
      try (injection H as <- <-; eapply Hleaf; [reflexivity | reflexivity |];
           intros; reflexivity).
    + (* an array *)
      destruct ts0 as [|t' ts'].
      { cbn [parse_value] in H. now rewrite parse_elems_nil in H. }
      assert (Hcases :
        (t' = TRBracket /\ v = JList [] /\ r = ts')
        \/ (t' <> TRBracket /\ exists vs, v = JList vs
                              /\ parse_elems fuel (t' :: ts') = Some (vs, r))).
      { destruct t'; cbn [parse_value] in H;
          try (right; split; [discriminate|];
               destruct (parse_elems fuel _) as [[vs r']|] eqn:Ee; [|discriminate];
               injection H as <- <-; eauto).
        left. injection H as <- <-. auto. }
      destruct Hcases as [(-> & -> & ->)|(Hne & vs & -> & He)].
      * split; [simpl; lia|]. intros [|fuel'] Hf; [simpl in Hf; lia | reflexivity].
      * destruct (IHe _ _ _ He) as [Hlen Hmore]. split; [simpl in *; lia|].
        intros [|fuel'] Hf; [simpl in *; lia|].
        assert (Hg : parse_elems fuel' (t' :: ts') = Some (vs, r))
          by (apply Hmore; simpl in *; lia).
        destruct t'; cbn [parse_value]; rewrite ?Hg; try reflexivity. contradiction.
    + (* an object *)
      destruct ts0 as [|t' ts'].
      { cbn [parse_value] in H. now rewrite parse_members_nil in H. }
      assert (Hcases :
        (t' = TRBrace /\ v = JDict [] /\ r = ts')
        \/ (t' <> TRBrace /\ exists kvs, v = JDict (dict_of_pairs kvs)
                              /\ parse_members fuel (t' :: ts') = Some (kvs, r))).
      { destruct t'; cbn [parse_value] in H;
          try (right; split; [discriminate|];
               destruct (parse_members fuel _) as [[kvs r']|] eqn:Ee; [|discriminate];
               injection H as <- <-; eauto).
        left. injection H as <- <-. auto. }
      destruct Hcases as [(-> & -> & ->)|(Hne & kvs & -> & He)].
      * split; [simpl; lia|]. intros [|fuel'] Hf; [simpl in Hf; lia | reflexivity].
      * destruct (IHm _ _ _ He) as [Hlen Hmore]. split; [simpl in *; lia|].
        intros [|fuel'] Hf; [simpl in *; lia|].
        assert (Hg : parse_members fuel' (t' :: ts') = Some (kvs, r))
          by (apply Hmore; simpl in *; lia).
        destruct t'; cbn [parse_value]; rewrite ?Hg; try reflexivity. contradiction.
  - (* elements *)
    intros ts vs r H. cbn [parse_elems] in H.
    destruct (parse_value fuel ts) as [[v r1]|] eqn:Ev; [|discriminate].
    destruct (IHv _ _ _ Ev) as [Hlen1 Hmore1].
    destruct r1 as [|t r1]; [discriminate|].
    destruct t; try discriminate.
    + injection H as <- <-. split; [simpl in *; lia|].
      intros [|fuel'] Hf; [simpl in *; lia|]. cbn [parse_elems].
      rewrite (Hmore1 fuel') by (simpl in *; lia). reflexivity.
    + apply consc_Some in H as (vs' & -> & He).
      destruct (IHe _ _ _ He) as [Hlen2 Hmore2]. split; [simpl in *; lia|].
      intros [|fuel'] Hf; [simpl in *; lia|]. cbn [parse_elems].
      rewrite (Hmore1 fuel') by (simpl in *; lia).
      rewrite (Hmore2 fuel') by (simpl in *; lia). reflexivity.
  - (* members *)
    intros ts kvs r H. cbn [parse_members] in H.
    destruct ts as [|t0 ts0]; [discriminate|]. destruct t0; try discriminate.
    destruct ts0 as [|t1 ts1]; [discriminate|]. destruct t1; try discriminate.
    destruct (parse_value fuel ts1) as [[v r1]|] eqn:Ev; [|discriminate].
    destruct (IHv _ _ _ Ev) as [Hlen1 Hmore1].
    destruct r1 as [|t r1]; [discriminate|].
    destruct t; try discriminate.
    + injection H as <- <-. split; [simpl in *; lia|].
      intros [|fuel'] Hf; [simpl in *; lia|]. cbn [parse_members].
      rewrite (Hmore1 fuel') by (simpl in *; lia). reflexivity.
    + apply consc_Some in H as (kvs' & -> & He).
      destruct (IHm _ _ _ He) as [Hlen2 Hmore2]. split; [simpl in *; lia|].
      intros [|fuel'] Hf; [simpl in *; lia|]. cbn [parse_members].
      rewrite (Hmore1 fuel') by (simpl in *; lia).
      rewrite (Hmore2 fuel') by (simpl in *; lia). reflexivity.
Qed.

Lemma json_loads_fuel (fuel : nat) (ts : list token) (v : json) :
  parse_value fuel ts = Some (v, []) ->
  parse_value (2 * length ts + 1) ts = Some (v, []).
Proof.
  intros H. destruct (parse_fuel fuel) as (Hv & _ & _).
  destruct (Hv _ _ _ H) as [_ Hmore]. apply Hmore. simpl. lia.
Qed.

(** ** A text that decodes to an array begins and ends with a bracket *)

Ltac app_eq := cbn [app]; rewrite <- ?app_assoc; cbn [app]; reflexivity.

Lemma strip_prefix_app (p s r : pystr) : strip_prefix p s = Some r -> s = p ++ r.
Proof.
  revert s. induction p as [|k p IH]; intros s H.
  - destruct s; injection H as <-; reflexivity.
  - destruct s as [|c s]; simpl in H; [discriminate|].
    destruct (N.eqb_spec k c) as [->|]; [|discriminate].
    simpl. f_equal. now apply IH.
Qed.

Lemma hex4_suffix (s r : pystr) (v : N) :
  hex4 s = Some (v, r) -> exists pre, s = pre ++ r.
Proof.
  destruct s as [|a [|b [|c [|d s]]]]; simpl; try discriminate.
  destruct (hex_val a), (hex_val b), (hex_val c), (hex_val d); try discriminate.
  intros [= <- <-]. now exists [a; b; c; d].
Qed.

Lemma unicode_escape_suffix (s r : pystr) (u : pychar) :
  unicode_escape s = Some (u, r) -> exists pre, s = pre ++ r.
Proof.
  unfold unicode_escape.
  destruct (hex4 s) as [[c r0]|] eqn:E; [|discriminate].
  apply hex4_suffix in E as [pre0 ->].
  destruct (is_high_surrogate c); [|intros [= <- <-]; eauto].
  destruct (strip_prefix [92; 117] r0) as [r2|] eqn:E2; [|intros [= <- <-]; eauto].
  apply strip_prefix_app in E2 as ->.
  destruct (hex4 r2) as [[c2 r3]|] eqn:E3; [|discriminate].
  apply hex4_suffix in E3 as [pre3 ->].
  destruct (is_low_surrogate c2); intros [= <- <-]; [|eauto].
  exists (pre0 ++ [92; 117] ++ pre3). app_eq.
Qed.

Lemma scan_string_suffix (fuel : nat) :
  forall s str r, scan_string fuel s = Some (str, r) -> exists pre, s = pre ++ r.
Proof.
  induction fuel as [|fuel IH]; intros s str r H; [discriminate|].
  destruct s as [|c s]; [discriminate|]. cbn [scan_string] in H.
  destruct (c =? 34). { injection H as <- <-. now exists [c]. }
  destruct (c =? 92).
  - destruct s as [|e s]; [discriminate|].
    destruct (e =? 117).
    + destruct (unicode_escape s) as [[u r'']|] eqn:E; [|discriminate].
      apply unicode_escape_suffix in E as [pre1 ->].
      apply consc_Some in H as (l' & -> & H). apply IH in H as [pre2 ->].
      exists (c :: e :: pre1 ++ pre2). app_eq.
    + destruct (escape_char e); [|discriminate].
      apply consc_Some in H as (l' & -> & H). apply IH in H as [pre2 ->].
      now exists (c :: e :: pre2).
  - destruct (c <=? 31); [discriminate|].
    apply consc_Some in H as (l' & -> & H). apply IH in H as [pre2 ->].
    now exists (c :: pre2).
Qed.

Lemma span_digits_suffix (s : pystr) : exists pre, s = pre ++ snd (span_digits s).
Proof.
  induction s as [|c s [pre IH]]; simpl; [now exists []|].
  destruct (is_digit c); [|now exists []].
  destruct (span_digits s) as [ds r]. simpl in *. exists (c :: pre). now rewrite IH at 1.
Qed.

Lemma lex_number_suffix (s r : pystr) (t : token) :
  lex_number s = Some (t, r) -> exists pre, s = pre ++ r.
Proof.
  unfold lex_number.
  assert (Hsg : exists pre, s = pre ++ snd (lex_sign s)).
  { destruct s as [|c s]; simpl; [now exists []|].
    destruct (c =? 45); simpl; [now exists [c] | now exists []]. }
  destruct (lex_sign s) as [neg s1]. cbn [snd] in Hsg. destruct Hsg as [pre0 ->].
  destruct (lex_int_part s1) as [[ds r1]|] eqn:Ei.
  - assert (Hi : exists pre, s1 = pre ++ r1).
    { destruct s1 as [|c s1]; [discriminate|]. simpl in Ei.
      destruct (c =? 48); [injection Ei as <- <-; now exists [c]|].
      destruct (is_digit c); [|discriminate].
      destruct (span_digits_suffix s1) as [pre Hs].
      destruct (span_digits s1). injection Ei as <- <-. simpl in Hs.
      exists (c :: pre). now rewrite Hs at 1. }
    destruct Hi as [pre1 ->].
    assert (Hf : exists pre, r1 = pre ++ snd (lex_frac r1)).
    { destruct r1 as [|c r1]; simpl; [now exists []|].
      destruct (c =? 46); [|now exists []].
      destruct (span_digits_suffix r1) as [pre Hs].
      destruct (span_digits r1) as [[|d ds'] r']; simpl in *; [now exists []|].
      exists (c :: pre). now rewrite Hs at 1. }
    destruct (lex_frac r1) as [fr r2]. cbn [snd] in Hf. destruct Hf as [pre2 ->].
    assert (He : exists pre, r2 = pre ++ snd (lex_exp r2)).
    { destruct r2 as [|c r2]; simpl; [now exists []|].
      destruct ((c =? 101) || (c =? 69)); [|now exists []].
      assert (Hes : exists pre, r2 = pre ++ snd (lex_exp_sign r2)).
      { destruct r2 as [|k r2]; simpl; [now exists []|].
        destruct (k =? 43); [now exists [k]|].
        destruct (k =? 45); [now exists [k] | now exists []]. }
      destruct (lex_exp_sign r2) as [ng r3]. cbn [snd] in Hes. destruct Hes as [pre3 ->].
      destruct (span_digits_suffix r3) as [pre Hs].
      destruct (span_digits r3) as [[|d ds'] r']; simpl in *; [now exists []|].
      exists (c :: pre3 ++ pre). rewrite Hs at 1. app_eq. }
    destruct (lex_exp r2) as [ex r3]. cbn [snd] in He. destruct He as [pre3 ->].
    intros H.
    assert (r = r3) as -> by (destruct fr, ex; injection H as <- <-; reflexivity).
    exists (pre0 ++ pre1 ++ pre2 ++ pre3). app_eq.
  - destruct neg; [|discriminate].
    destruct (strip_prefix lit_Infinity s1) as [r'|] eqn:E; [|discriminate].
    apply strip_prefix_app in E as ->. intros [= <- <-].
    exists (pre0 ++ lit_Infinity). app_eq.
Qed.

(** The token and what follows it; a bracket is one character. *)
Lemma lex1_suffix (fuel : nat) (s r : pystr) (t : token) :
  lex1 fuel s = Some (t, r) ->
  (exists pre, s = pre ++ r)
  /\ (t = TLBracket -> s = 91 :: r)
  /\ (t = TRBracket -> s = 93 :: r).
Proof.
  destruct s as [|c s]; [discriminate|]. unfold lex1. intros H.
  repeat match type of H with
    | (if ?a =? ?k then Some (?tok, _) else _) = _ =>
        destruct (N.eqb_spec a k) as [->|];
        [injection H as <- <-;
         split; [now exists [k] | split; intros Ht; (reflexivity || discriminate)]|]
    end.
  destruct (c =? 34).
  { destruct (scan_string fuel s) as [[str r']|] eqn:E; [|discriminate].
    apply scan_string_suffix in E as [pre ->]. injection H as <- <-.
    split; [now exists (c :: pre) | split; discriminate]. }
  repeat match type of H with
    | (if ?b then keyword ?p ?tok _ else _) = _ =>
        destruct b;
        [unfold keyword in H;
         destruct (strip_prefix p s) as [r'|] eqn:E; [|discriminate];
         apply strip_prefix_app in E as ->; injection H as <- <-;
         split; [now exists (c :: p) | split; discriminate]|]
    end.
  split; [now apply lex_number_suffix in H|].
  unfold lex_number in H.
  destruct (lex_sign (c :: s)) as [neg s1].
  destruct (lex_int_part s1) as [[ds r1]|].
  - destruct (lex_frac r1) as [fr r2]. destruct (lex_exp r2) as [ex r3].
    destruct fr, ex; injection H as <- <-; split; discriminate.
  - destruct neg; [|discriminate].
    destruct (strip_prefix lit_Infinity s1); [|discriminate].
    injection H as <- <-. split; discriminate.
Qed.

Lemma tokenize_nil_ws (fuel : nat) (s : pystr) :
  tokenize fuel s = Some [] -> forallb is_json_ws s = true.
Proof.
  destruct fuel as [|fuel]; [discriminate|]. cbn [tokenize]. unfold skip_ws.
  destruct (forallb is_json_ws s) eqn:Hall; [reflexivity|].
  pose proof (drop_while_nonempty _ _ Hall) as Hne.
  destruct (drop_while is_json_ws s) as [|c s']; [contradiction|].
  destruct (lex1 fuel (c :: s')) as [[t rest]|]; [|discriminate].
  destruct (tokenize fuel rest); discriminate.
Qed.

Lemma drop_while_split (f : pychar -> bool) (s : pystr) :
  exists ws, s = ws ++ drop_while f s /\ forallb f ws = true.
Proof.
  induction s as [|c s (ws & IH & Hws)]; simpl; [now exists []|].
  destruct (f c) eqn:Ec; [|now exists []].
  exists (c :: ws). simpl. rewrite Ec, Hws. split; [now rewrite IH at 1 | reflexivity].
Qed.

(** The text of a token list that starts with an opening bracket. *)
Lemma tokenize_first_bracket (fuel : nat) (s : pystr) (ts : list token) :
  tokenize fuel s = Some (TLBracket :: ts) ->
  exists ws rest, s = ws ++ 91 :: rest /\ forallb is_json_ws ws = true.
Proof.
  destruct fuel as [|fuel]; [discriminate|]. cbn [tokenize].
  destruct (drop_while_split is_json_ws s) as (ws & Hs & Hws).
  unfold skip_ws. destruct (drop_while is_json_ws s) as [|c s']; [discriminate|].
  destruct (lex1 fuel (c :: s')) as [[t rest]|] eqn:E; [|discriminate].
  destruct (tokenize fuel rest); [|discriminate]. intros [= -> <-].
  apply lex1_suffix in E as (_ & Hl & _). specialize (Hl eq_refl).
  exists ws, rest. now rewrite <- Hl.
Qed.

(** The text of a token list that ends with a closing bracket. *)
Lemma tokenize_last_bracket (fuel : nat) :
  forall s ts, tokenize fuel s = Some (ts ++ [TRBracket]) ->
    exists pre ws, s = pre ++ 93 :: ws /\ forallb is_json_ws ws = true.
Proof.
  induction fuel as [|fuel IH]; intros s ts H; [discriminate|].
  cbn [tokenize] in H.
  destruct (drop_while_split is_json_ws s) as (ws0 & Hs & _).
  unfold skip_ws in H. destruct (drop_while is_json_ws s) as [|c s'].
  { destruct ts; discriminate. }
  destruct (lex1 fuel (c :: s')) as [[t rest]|] eqn:E; [|discriminate].
  destruct (tokenize fuel rest) as [ts'|] eqn:E'; [|discriminate].
  injection H as H. apply lex1_suffix in E as ([pre1 Hpre] & _ & Hr).
  destruct ts as [|t0 ts]; cbn [app] in H.
  - injection H as -> ->. specialize (Hr eq_refl). apply tokenize_nil_ws in E'.
    exists ws0, rest. now rewrite <- Hr.
  - injection H as -> ->. apply IH in E' as (pre2 & ws2 & -> & Hws2).
    exists (ws0 ++ pre1 ++ pre2), ws2. split; [|exact Hws2].
    rewrite Hs, Hpre. app_eq.
Qed.

Lemma parse_reads_prefix (fuel : nat) :
  reads_prefix parse_value fuel /\ reads_prefix parse_elems fuel
  /\ reads_prefix parse_members fuel.
Proof.
  induction fuel as [|fuel (IHv & IHe & IHm)];
    [split; [|split]; intros ts x r H; discriminate|].
  split; [|split].
  - intros ts v r H. destruct ts as [|t ts0]; [discriminate|].
    destruct t; try discriminate;
      try (injection H as <- <-; eexists [_]; reflexivity).
    + destruct ts0 as [|t' ts'].
      { cbn [parse_value] in H. now rewrite parse_elems_nil in H. }
      destruct t'; cbn [parse_value] in H;
        try (destruct (parse_elems fuel _) as [[vs r']|] eqn:Ee; [|discriminate];
             injection H as <- <-; apply IHe in Ee as [pre Hp];
             exists (TLBracket :: pre); cbn [app]; now rewrite <- Hp).
      injection H as <- <-. now exists [TLBracket; TRBracket].
    + destruct ts0 as [|t' ts'].
      { cbn [parse_value] in H. now rewrite parse_members_nil in H. }
      destruct t'; cbn [parse_value] in H;
        try (destruct (parse_members fuel _) as [[kvs r']|] eqn:Ee; [|discriminate];
             injection H as <- <-; apply IHm in Ee as [pre Hp];
             exists (TLBrace :: pre); cbn [app]; now rewrite <- Hp).
      injection H as <- <-. now exists [TLBrace; TRBrace].
  - intros ts vs r H. cbn [parse_elems] in H.
    destruct (parse_value fuel ts) as [[v r1]|] eqn:Ev; [|discriminate].
    apply IHv in Ev as [pre1 ->].
    destruct r1 as [|t r1]; [discriminate|]. destruct t; try discriminate.
    + injection H as <- <-. exists (pre1 ++ [TRBracket]). app_eq.
    + apply consc_Some in H as (vs' & -> & He). apply IHe in He as [pre2 ->].
      exists (pre1 ++ TComma :: pre2). app_eq.
  - intros ts kvs r H. cbn [parse_members] in H.
    destruct ts as [|t0 ts0]; [discriminate|]. destruct t0; try discriminate.
    destruct ts0 as [|t1 ts1]; [discriminate|]. destruct t1; try discriminate.
    destruct (parse_value fuel ts1) as [[v r1]|] eqn:Ev; [|discriminate].
    apply IHv in Ev as [pre1 ->].
    destruct r1 as [|t r1]; [discriminate|]. destruct t; try discriminate.
    + injection H as <- <-. exists (TString s :: TColon :: pre1 ++ [TRBrace]).
      cbn [app]. app_eq.
    + apply consc_Some in H as (kvs' & -> & He). apply IHm in He as [pre2 ->].
      exists (TString s :: TColon :: pre1 ++ TComma :: pre2).
      cbn [app]. app_eq.
Qed.

Lemma parse_elems_last (fuel : nat) :
  forall ts vs, parse_elems fuel ts = Some (vs, []) ->
    exists pre, ts = pre ++ [TRBracket].
Proof.
  induction fuel as [|fuel IH]; intros ts vs H; [discriminate|].
  cbn [parse_elems] in H.
  destruct (parse_value fuel ts) as [[v r1]|] eqn:Ev; [|discriminate].
  destruct (parse_reads_prefix fuel) as (Hv & _ & _). apply Hv in Ev as [pre1 ->].
  destruct r1 as [|t r1]; [discriminate|]. destruct t; try discriminate.
  - injection H as <- <-. now exists pre1.
  - apply consc_Some in H as (vs' & -> & He). apply IH in He as [pre2 ->].
    exists (pre1 ++ TComma :: pre2). app_eq.
Qed.

(** The tokens of an array are bracketed. *)
Lemma parse_list_brackets (fuel : nat) (ts : list token) (items : list json) :
  parse_value fuel ts = Some (JList items, []) ->
  exists mid, ts = TLBracket :: mid ++ [TRBracket].
Proof.
  destruct fuel as [|fuel]; [discriminate|]. intros H.
  destruct ts as [|t ts0]; [discriminate|].
  destruct t; try discriminate.
  - destruct ts0 as [|t' ts'].
    { cbn [parse_value] in H. now rewrite parse_elems_nil in H. }
    destruct t'; cbn [parse_value] in H;
      try (destruct (parse_elems fuel _) as [[vs r']|] eqn:Ee; [|discriminate];
           injection H as <- ->; apply parse_elems_last in Ee as [pre Hp];
           exists pre; now rewrite <- Hp).
    injection H as <- ->. now exists [].
  - destruct ts0 as [|t' ts']; [cbn [parse_value] in H; now rewrite parse_members_nil in H|].
    destruct t'; cbn [parse_value] in H;
      try (destruct (parse_members fuel _) as [[kvs r']|]; discriminate).
    discriminate.
Qed.

Lemma drop_while_head (f : pychar -> bool) (s r : pystr) (c : pychar) :
  drop_while f s = c :: r -> f c = false.
Proof.
  induction s as [|x s IH]; simpl; [discriminate|].
  destruct (f x) eqn:Ex; [exact IH|]. now intros [= <- <-].
Qed.

Lemma rstrip_by_prefix (f : pychar -> bool) (u : pystr) :
  exists tail, u = rstrip_by f u ++ tail.
Proof.
  unfold rstrip_by. destruct (drop_while_split f (rev u)) as (ws & Hs & _).
  exists (rev ws). rewrite <- rev_app_distr, <- Hs. now rewrite rev_involutive.
Qed.

(** What [strip] leaves neither starts nor ends with a stripped character. *)
Lemma strip_by_first (f : pychar -> bool) (t r : pystr) (c : pychar) :
  strip_by f t = c :: r -> f c = false.
Proof.
  unfold strip_by, lstrip_by. intros H.
  destruct (rstrip_by_prefix f (drop_while f t)) as [tail Ht].
  rewrite H in Ht. now apply drop_while_head in Ht.
Qed.

Lemma strip_by_last (f : pychar -> bool) (t x : pystr) (c : pychar) :
  strip_by f t = x ++ [c] -> f c = false.
Proof.
  unfold strip_by, rstrip_by. intros H.
  apply (f_equal (@rev pychar)) in H.
  rewrite rev_involutive, rev_app_distr in H. simpl in H.
  now apply drop_while_head in H.
Qed.

Lemma json_ws_py_space (c : pychar) : is_json_ws c = true -> is_py_space c = true.
Proof.
  unfold is_json_ws, is_py_space. intros H.
  repeat rewrite ?orb_true_iff, ?N.eqb_eq in H.
  destruct H as [[[-> | ->] | ->] | ->]; reflexivity.
Qed.

(** Stripped of white space, a text that decodes to an array is a
    bracket, something, and a bracket. *)
Lemma array_text_brackets (t : pystr) (items : list json) :
  json_loads t = Some (JList items) ->
  exists mid, py_strip t = 91 :: mid ++ [93].
Proof.
  intros Ht. apply json_loads_strip in Ht. unfold json_loads in Ht.
  destruct (tokenize (S (length (py_strip t))) (py_strip t)) as [ts|] eqn:Etok;
    [|discriminate].
  destruct (parse_value (2 * length ts + 1) ts) as [[v [|? ?]]|] eqn:Ep; try discriminate.
  injection Ht as ->. apply parse_list_brackets in Ep as [tmid ->].
  pose proof (tokenize_first_bracket _ _ _ Etok) as (ws & rest & Hfirst & Hws).
  change (TLBracket :: tmid ++ [TRBracket]) with ((TLBracket :: tmid) ++ [TRBracket]) in Etok.
  pose proof (tokenize_last_bracket _ _ _ Etok) as (pre & ws' & Hlast & Hws').
  assert (ws = []) as ->.
  { destruct ws as [|w ws]; [reflexivity|]. exfalso.
    simpl in Hws. apply andb_true_iff in Hws as [Hw _].
    apply json_ws_py_space in Hw.
    apply strip_by_first in Hfirst. congruence. }
  assert (ws' = []) as ->.
  { destruct ws' as [|w ws' _] using rev_ind; [reflexivity|]. exfalso.
    rewrite forallb_app in Hws'. apply andb_true_iff in Hws' as [_ Hw].
    simpl in Hw. rewrite andb_true_r in Hw. apply json_ws_py_space in Hw.
    rewrite app_comm_cons, app_assoc in Hlast.
    apply strip_by_last in Hlast. congruence. }
  simpl in Hfirst. destruct pre as [|c pre].
  - rewrite Hlast in Hfirst. discriminate.
  - exists pre. rewrite Hlast in Hfirst. injection Hfirst as -> _. exact Hlast.
Qed.

(** The cleaning step trims nothing but white space off such a text. *)
Lemma clean_content_array (t : pystr) (items : list json) :
  json_loads t = Some (JList items) -> clean_content t = py_strip t.
Proof.
  intros Ht. destruct (array_text_brackets t items Ht) as [mid Hs].
  unfold clean_content. rewrite Hs. unfold py_strip_chars, py_strip.
  now rewrite !strip_by_keep.
Qed.

(** ** Reasoning about computations *)

Lemma bind_Ok {A B : Type} (m : M A) (k : A -> M B) (w w1 : world) (a : A) :
  m w = (Ok a, w1) -> bind m k w = k a w1.
Proof. unfold bind. now intros ->. Qed.

Lemma bind_Raise {A B : Type} (m : M A) (k : A -> M B) (w w1 : world) (e : exn) :
  m w = (Raise e, w1) -> bind m k w = (Raise e, w1).
Proof. unfold bind. now intros ->. Qed.

Lemma bind_inv_Ok {A B : Type} (m : M A) (k : A -> M B) (w w' : world) (b : B) :
  bind m k w = (Ok b, w') ->
  exists a w1, m w = (Ok a, w1) /\ k a w1 = (Ok b, w').
Proof.
  unfold bind. destruct (m w) as [[a|e] w1]; [eauto | discriminate].
Qed.

Section Keeps.
Variable I : world -> Prop.

Lemma keeps_ret {A : Type} (a : A) (Q : A -> Prop) : Q a -> keeps I (ret a) Q.
Proof. intros Ha w Hw. split; [exact Hw|]. simpl. now intros ? [= <-]. Qed.

Lemma keeps_raise {A : Type} (e : exn) (Q : A -> Prop) : keeps I (raise e) Q.
Proof. intros w Hw. split; [exact Hw|]. simpl. discriminate. Qed.

Lemma keeps_bind {A B : Type} (m : M A) (k : A -> M B) (Q : A -> Prop) (R : B -> Prop) :
  keeps I m Q -> (forall a, Q a -> keeps I (k a) R) -> keeps I (bind m k) R.
Proof.
  intros Hm Hk w Hw. specialize (Hm w Hw) as [Hm1 Hm2]. unfold bind.
  destruct (m w) as [[a|e] w1]; simpl in *.
  - apply Hk; [apply Hm2; reflexivity | exact Hm1].
  - split; [exact Hm1 | discriminate].
Qed.

Lemma keeps_weaken {A : Type} (m : M A) (Q Q' : A -> Prop) :
  keeps I m Q -> (forall a, Q a -> Q' a) -> keeps I m Q'.
Proof. intros Hm HQ w Hw. specialize (Hm w Hw) as [H1 H2]. split; auto. Qed.

Lemma keeps_for_each {A : Type} (l : list A) (body : A -> M unit) :
  (forall x, keeps I (body x) any) -> keeps I (for_each l body) any.
Proof.
  intros Hb. induction l as [|x l IH]; simpl.
  - now apply keeps_ret.
  - eapply keeps_bind; [apply Hb|]. intros _ _. exact IH.
Qed.

Lemma keeps_try_except {A : Type} (body : M A)
    (clauses : list ((exn -> bool) * (exn -> M A))) (Q : A -> Prop) :
  keeps I body Q ->
  Forall (fun c => forall e, keeps I (snd c e) Q) clauses ->
  keeps I (try_except body clauses) Q.
Proof.
  intros Hb Hc w Hw. specialize (Hb w Hw) as [Hb1 Hb2]. unfold try_except.
  destruct (body w) as [[a|e] w1]; simpl in *; [split; assumption|].
  clear Hb2. induction Hc as [|[cls h] clauses Hh Hc IH]; simpl.
  - split; [exact Hb1 | discriminate].
  - destruct (cls e); [|exact IH]. now apply Hh.
Qed.
End Keeps.

Lemma pure_read_keeps {A : Type} (I : world -> Prop) (m : M A) :
  pure_read m -> keeps I m any.
Proof. intros Hm w Hw. rewrite Hm. split; [exact Hw | now intros]. Qed.

Lemma deref_pure (a : addr) : pure_read (deref a).
Proof. intros w. unfold deref. now destruct (heap w !! a). Qed.

Lemma truthy_pure (v : pyval) : pure_read (truthy v).
Proof.
  intros w. destruct v; try reflexivity. simpl. unfold bind, deref.
  destruct (heap w !! a) as [[[|? ?]|[|? ?]]|]; reflexivity.
Qed.

Lemma py_iter_pure (v : pyval) : pure_read (py_iter v).
Proof.
  intros w. destruct v; try reflexivity. simpl. unfold bind, deref.
  destruct (heap w !! a) as [[?|?]|]; reflexivity.
Qed.

Lemma py_getitem_pure (q : pyval) (key : pystr) : pure_read (py_getitem q key).
Proof.
  intros w. destruct q; try reflexivity. simpl. unfold bind, deref.
  destruct (heap w !! a) as [[?|d]|]; try reflexivity.
  now destruct (dict_get key d).
Qed.

Lemma json_dumps_pure (v : pyval) : pure_read (json_dumps v).
Proof.
  intros w. unfold json_dumps, bind, get_heap.
  now destruct (to_json (length (heap w)) (heap w) v).
Qed.

Lemma raise_for_status_pure (r : http_response) : pure_read (raise_for_status r).
Proof. intros w. unfold raise_for_status. now destruct (_ && _). Qed.

Lemma pure_read_bind {A B : Type} (m : M A) (k : A -> M B) :
  pure_read m -> (forall a, pure_read (k a)) -> pure_read (bind m k).
Proof.
  intros Hm Hk w. unfold bind. specialize (Hm w).
  destruct (m w) as [[a|e] w1]; cbn [snd] in Hm; subst w1; [apply Hk | reflexivity].
Qed.

Lemma py_print_pure (E : env) (s : pystr) : pure_read (py_print E s).
Proof. intros w. unfold py_print. now destruct (printable E s). Qed.

Lemma upload_except_pure (E : env) (e : exn) : pure_read (upload_except E e).
Proof.
  unfold upload_except.
  apply pure_read_bind; [apply py_print_pure | intros _].
  apply pure_read_bind; [|intros _ w; reflexivity].
  destruct (exn_response e) as [response|]; [|intros w; reflexivity].
  apply pure_read_bind; [apply py_print_pure | intros _; apply py_print_pure].
Qed.

(** ** The publisher leaves every existing object as it was *)

Lemma keeps_alloc (h0 : list pyobj) (o : pyobj) :
  keeps (extends_heap h0) (alloc o)
        (fun v => exists a, v = VRef a /\ (length h0 <= a)%nat).
Proof.
  intros w [ext Hw]. unfold alloc, extends_heap. simpl. split.
  - exists (ext ++ [o]). rewrite Hw. now rewrite app_assoc.
  - intros v [= <-]. eexists. split; [reflexivity|]. rewrite Hw, length_app. lia.
Qed.

Lemma keeps_store_new (h0 : list pyobj) (a : addr) (o : pyobj) :
  (length h0 <= a)%nat -> keeps (extends_heap h0) (store a o) any.
Proof.
  intros Ha w [ext Hw]. unfold store, extends_heap. simpl. split; [|now intros].
  rewrite Hw. rewrite insert_app_r_alt by exact Ha.
  now apply prefix_app_r.
Qed.

Lemma keeps_list_append_new (h0 : list pyobj) (a : addr) (v : pyval) :
  (length h0 <= a)%nat -> keeps (extends_heap h0) (list_append (VRef a) v) any.
Proof.
  intros Ha. unfold list_append.
  eapply keeps_bind; [apply pure_read_keeps, deref_pure|].
  intros [items|d] _; [now apply keeps_store_new | apply keeps_raise].
Qed.

Lemma keeps_reshape (h0 : list pyobj) (a : addr) (q : pyval) :
  (length h0 <= a)%nat -> keeps (extends_heap h0) (reshape (VRef a) q) any.
Proof.
  intros Ha. unfold reshape.
  repeat (eapply keeps_bind; [apply pure_read_keeps, py_getitem_pure|]; intros ? _).
  eapply keeps_bind; [apply keeps_alloc|]. intros d _.
  now apply keeps_list_append_new.
Qed.

Lemma keeps_post (h0 : list pyobj) (E : env) (u : pystr) (p : pyval)
    (hs : list (pystr * pystr)) (t : Z) :
  keeps (extends_heap h0) (post E u p hs t) any.
Proof.
  unfold post. eapply keeps_bind; [apply pure_read_keeps, json_dumps_pure|].
  intros body _ w Hw. split; [exact Hw | now intros].
Qed.

Lemma keeps_upload_questions (h0 : list pyobj) (E : env) (self : QuestionGenerator)
    (questions : pyval) :
  keeps (extends_heap h0) (upload_questions E self questions) any.
Proof.
  unfold upload_questions.
  eapply keeps_bind; [apply pure_read_keeps, truthy_pure|]. intros nonempty _.
  destruct (negb nonempty); [now apply keeps_ret|].
  eapply keeps_bind; [apply keeps_alloc|]. intros fq (a & -> & Ha).
  eapply keeps_bind; [apply pure_read_keeps, py_iter_pure|]. intros qs _.
  eapply keeps_bind; [apply keeps_for_each; intros q; now apply keeps_reshape|].
  intros _ _.
  eapply keeps_bind; [apply keeps_alloc|]. intros payload _.
  apply keeps_try_except.
  - eapply keeps_bind; [apply pure_read_keeps, json_dumps_pure|]. intros _ _.
    eapply keeps_bind; [apply keeps_post|]. intros response _.
    eapply keeps_bind; [apply pure_read_keeps, raise_for_status_pure|]. intros _ _.
    now apply keeps_ret.
  - constructor; [|constructor]. intros e0. simpl.
    apply pure_read_keeps, upload_except_pure.
Qed.

(** C10. [upload_questions] does not mutate its input: whatever it is
    called with and whether it returns or raises, every object that
    existed before the call (the input list and each of its records among
    them) is the same object with the same contents after it; the reshaped
    records and the payload are new objects. *)
Theorem upload_questions_leaves_input (E : env) (self : QuestionGenerator)
    (questions : pyval) (w : world) (a : addr) (o : pyobj) :
  heap w !! a = Some o ->
  heap (snd (upload_questions E self questions w)) !! a = Some o.
Proof.
  intros Ha.
  destruct (keeps_upload_questions (heap w) E self questions w) as [[ext Hext] _].
  { exists []. now rewrite app_nil_r. }
  rewrite Hext. now apply lookup_app_l_Some.
Qed.

Lemma upload_questions_leaves_input_witness :
  heap (snd (upload_questions (env_status 201) (QuestionGenerator_init API_URL None)
               (VRef 2) example_world)) !! 1%nat
  = Some (ODict [ (lit "id", VInt 7);
                  (key_text, VStr (lit "Q"));
                  (key_answer, VStr (lit "A"));
                  (key_category, VStr (lit "C"));
                  (key_filler_answers, VRef 0) ]).
Proof.
  apply (upload_questions_leaves_input (env_status 201)
           (QuestionGenerator_init API_URL None) (VRef 2) example_world 1%nat).
  reflexivity.
Defined.

(** ** The empty-input short-circuit *)

(** C6. [upload_questions] applied to an empty list returns [False] and
    leaves the world as it was: nothing is allocated and no call is made,
    so no HTTP POST is issued. *)
Theorem upload_questions_empty (E : env) (self : QuestionGenerator)
    (w : world) (a : addr) :
  heap w !! a = Some (OList []) ->
  upload_questions E self (VRef a) w = (Ok false, w)
  /\ trace (snd (upload_questions E self (VRef a) w)) = trace w.
Proof.
  intros Ha.
  assert (E1 : upload_questions E self (VRef a) w = (Ok false, w)).
  { unfold upload_questions, truthy. unfold bind, deref. now rewrite Ha. }
  now rewrite E1.
Qed.

Lemma upload_questions_empty_witness :
  let w := {| heap := [OList []]; trace := [] |} in
  let E := {| chat_completions_create := fun _ _ => Raise (APIError []);
              requests_post := fun _ _ => Raise (ConnectionError []);
     stdout_encodes := utf8_encodes |} in
  let self := QuestionGenerator_init API_URL None in
  upload_questions E self (VRef 0) w = (Ok false, w)
  /\ trace (snd (upload_questions E self (VRef 0) w)) = trace w.
Proof. intros w E self. apply (upload_questions_empty E self w 0%nat). reflexivity. Defined.

(** ** Fence stripping *)

(** C2. For every text [t] that [json.loads] decodes to an array, cleaning
    the fenced form (the line "```json", then [t], then the line "```")
    and decoding it gives exactly what decoding [t] gives: to
    [json.loads(t)] itself, and to the generator's own cleaning and
    decoding of [t] without the fence. *)
Theorem fence_stripping_round_trip (t : pystr) (items : list json) :
  json_loads t = Some (JList items) ->
  let fenced := fence_json ++ [10] ++ t ++ [10] ++ fence in
  json_loads (clean_content fenced) = json_loads t
  /\ json_loads (clean_content fenced) = json_loads (clean_content t)
  /\ py_json_loads (clean_content fenced) = py_json_loads (clean_content t).
Proof.
  intros Ht fenced.
  assert (E1 : clean_content fenced = py_strip t) by apply clean_content_fenced.
  assert (E2 : clean_content t = py_strip t) by now apply clean_content_array with items.
  rewrite E1, E2. repeat split.
  rewrite Ht. now apply json_loads_strip.
Qed.

Lemma fence_stripping_round_trip_witness :
  let t := lit " [1, [true, null], {}]
" in
  let fenced := fence_json ++ [10] ++ t ++ [10] ++ fence in
  json_loads (clean_content fenced) = json_loads t
  /\ json_loads (clean_content fenced) = json_loads (clean_content t)
  /\ py_json_loads (clean_content fenced) = py_json_loads (clean_content t).
Proof.
  intros t.
  apply (fence_stripping_round_trip t [JInt 1; JList [JBool true; JNull]; JDict []]).
  vm_compute. reflexivity.
Defined.

(** ** The generator *)

Lemma keeps_trace_alloc (t : list event) (o : pyobj) : keeps (trace_is t) (alloc o) any.
Proof. intros w Hw. split; [exact Hw | now intros]. Qed.

Lemma keeps_trace_store (t : list event) (a : addr) (o : pyobj) :
  keeps (trace_is t) (store a o) any.
Proof. intros w Hw. split; [exact Hw | now intros]. Qed.

Lemma keeps_trace_setitem (t : list event) (q : pyval) (k : pystr) (v : pyval) :
  keeps (trace_is t) (py_setitem q k v) any.
Proof.
  destruct q; try apply keeps_raise. simpl.
  eapply keeps_bind; [apply pure_read_keeps, deref_pure|].
  intros [items|d] _; [apply keeps_raise | apply keeps_trace_store].
Qed.

Lemma keeps_trace_json_loads (t : list event) (s : pystr) :
  keeps (trace_is t) (py_json_loads s) any.
Proof.
  unfold py_json_loads. destruct (json_loads s) as [j|]; [|apply keeps_raise].
  intros w Hw. destruct (alloc_json j (heap w)). split; [exact Hw | now intros].
Qed.

(** The body of the [try], line after line. *)
Lemma generate_try_unfold (E : env) (category prompt : pystr) (w : world) :
  generate_try E category prompt w
  = (response <- create E (chat_request_of prompt) ;;
     content <- match choices response with
                | [] => raise IndexError
                | c :: _ =>
                    match message_content c with
                    | None => raise AttributeError
                    | Some s => ret s
                    end
                end ;;
     let content := clean_content content in
     questions <- py_json_loads content ;;
     qs <- py_iter questions ;;
     for_each qs (fun q => py_setitem q key_category (VStr category)) ;;;
     ret questions) w.
Proof.
  unfold generate_try, generate_content, generate_decode, bind, create.
  destruct (chat_completions_create E (trace w) (chat_request_of prompt))
    as [response|e]; [|reflexivity].
  destruct (choices response) as [|c cs]; [reflexivity|].
  destruct (message_content c); reflexivity.
Qed.

(** After the completion call, the rest of the [try] makes no call. *)
Lemma generate_try_trace (E : env) (category prompt : pystr) (w : world) :
  trace (snd (generate_try E category prompt w))
  = trace w ++ [EvCreate (chat_request_of prompt)].
Proof.
  rewrite generate_try_unfold. unfold bind at 1. unfold create at 1.
  destruct (chat_completions_create E (trace w) (chat_request_of prompt))
    as [response|e]; [|reflexivity].
  match goal with
  | |- trace (snd (?m ?w1)) = ?t =>
      enough (Hk : keeps (trace_is t) m any) by (apply Hk; reflexivity)
  end.
  eapply keeps_bind with (Q := any).
  { destruct (choices response) as [|c ?]; [apply keeps_raise|].
    destruct (message_content c); [now apply keeps_ret | apply keeps_raise]. }
  intros content _.
  eapply keeps_bind; [apply keeps_trace_json_loads|]. intros questions _.
  eapply keeps_bind; [apply pure_read_keeps, py_iter_pure|]. intros qs _.
  eapply keeps_bind; [apply keeps_for_each; intros q; apply keeps_trace_setitem|].
  intros _ _. now apply keeps_ret.
Qed.

(** *** What a [print] can write *)

Lemma printable_app (E : env) (a b : pystr) :
  printable E (a ++ b) = printable E a && printable E b.
Proof. apply forallb_app. Qed.

Lemma string_of_uint_printable (E : env) (u : Decimal.uint) :
  printable E (lit (NilEmpty.string_of_uint u)) = true.
Proof.
  induction u as [|u IH|u IH|u IH|u IH|u IH|u IH|u IH|u IH|u IH|u IH];
    [reflexivity | exact IH ..].
Qed.

Lemma string_of_int_printable (E : env) (u : Decimal.uint) :
  printable E (lit (NilZero.string_of_uint u)) = true.
Proof. destruct u; try reflexivity; apply (string_of_uint_printable E). Qed.

Lemma str_of_int_printable (E : env) (z : Z) : printable E (str_of_int z) = true.
Proof.
  unfold str_of_int, NilZero.string_of_int.
  destruct (Z.to_int z) as [u|u]; apply (string_of_int_printable E).
Qed.

Lemma py_print_run (E : env) (s : pystr) (w : world) :
  py_print E s w = (if printable E s then Ok tt else Raise UnicodeEncodeError, w).
Proof. unfold py_print. now destruct (printable E s). Qed.

(** The messages of the interpreter's own exceptions can be written. *)
Lemma builtin_message_printable (E : env) (e : exn) :
  match e with
  | HTTPError _ _ | ConnectionError _ | Timeout _ | RequestException _ _
  | APIError _ | KeyError _ => True
  | _ => printable E (exn_str e) = true
  end.
Proof. destruct e; try exact I; reflexivity. Qed.

(** What the handlers of lines 85-91 do with an exception. *)
Lemma generate_except_run (E : env) (content : option pystr) (e : exn) (w1 : world) :
  try_except (raise e) (generate_except E content) w1 = generate_handled E content e w1.
Proof.
  unfold try_except, raise, generate_except, generate_handled, generate_log_ok.
  cbn [pick_handler]. destruct (is_JSONDecodeError e) eqn:He.
  - destruct e; try discriminate. unfold bind. rewrite !py_print_run.
    rewrite (printable_app E (lit "Raw response: ")).
    change (printable E (lit "Error parsing JSON response: " ++ exn_str JSONDecodeError))
      with true.
    change (printable E (lit "Raw response: ")) with true. cbn [andb].
    destruct content as [c|].
    + now destruct (printable E c).
    + reflexivity.
  - cbn [is_Exception]. unfold bind. rewrite py_print_run.
    rewrite (printable_app E (lit "Error generating questions: ")).
    change (printable E (lit "Error generating questions: ")) with true. cbn [andb].
    now destruct (printable E (exn_str e)).
Qed.

Lemma generate_questions_cases (E : env) (self : QuestionGenerator)
    (category : pystr) (n m : Z) (w : world) :
  let prompt := prompt_text category (Z.max 1 (Z.min 10 n)) (Z.max 3 (Z.min 5 m)) in
  match generate_try E category prompt w with
  | (Ok v, w1) => generate_questions E self category n m w = (Ok v, w1)
  | (Raise e, w1) =>
      generate_questions E self category n m w
      = generate_handled E (content_bound E prompt w) e w1
  end.
Proof.
  intros prompt.
  unfold generate_questions, try_except_local, generate_try, content_bound, bind.
  fold prompt.
  destruct (generate_content E prompt w) as [[c|e] w1].
  - unfold try_except at 1 2.
    destruct (generate_decode category c w1) as [[v|e] w2]; [reflexivity|].
    now rewrite <- generate_except_run.
  - apply generate_except_run.
Qed.

(** The handlers end in one of two ways. *)
Lemma generate_handled_cases (E : env) (content : option pystr) (e : exn) (w1 : world) :
  generate_handled E content e w1
  = (Ok (VRef (length (heap w1))),
     {| heap := heap w1 ++ [OList []]; trace := trace w1 |})
  \/ generate_handled E content e w1 = (Raise UnicodeEncodeError, w1).
Proof.
  unfold generate_handled. destruct (generate_log_ok E content e); [now left | now right].
Qed.

Lemma generate_questions_trace (E : env) (self : QuestionGenerator)
    (category : pystr) (n m : Z) (w : world) :
  trace (snd (generate_questions E self category n m w))
  = trace w ++ [EvCreate (chat_request_of
                            (prompt_text category (Z.max 1 (Z.min 10 n))
                                                  (Z.max 3 (Z.min 5 m))))].
Proof.
  pose proof (generate_questions_cases E self category n m w) as Hc.
  pose proof (generate_try_trace E category
                (prompt_text category (Z.max 1 (Z.min 10 n)) (Z.max 3 (Z.min 5 m))) w) as Ht.
  cbv zeta in Hc.
  destruct (generate_try E category _ w) as [[v|e] w1]; rewrite Hc; [exact Ht|].
  match goal with
  | |- context [generate_handled E ?c e w1] =>
      destruct (generate_handled_cases E c e w1) as [-> | ->]; exact Ht
  end.
Qed.

(** An exception leaves [generate_questions] only as the
    [UnicodeEncodeError] of a log line. *)
Lemma generate_questions_ends (E : env) (self : QuestionGenerator)
    (category : pystr) (n m : Z) (w : world) :
  (exists v, fst (generate_questions E self category n m w) = Ok v)
  \/ fst (generate_questions E self category n m w) = Raise UnicodeEncodeError.
Proof.
  pose proof (generate_questions_cases E self category n m w) as Hc. cbv zeta in Hc.
  destruct (generate_try E category _ w) as [[v|e] w1]; rewrite Hc; [left; eauto|].
  match goal with
  | |- context [generate_handled E ?c e w1] =>
      destruct (generate_handled_cases E c e w1) as [-> | ->]; [left; eauto | now right]
  end.
Qed.

(** C1. With any integers [n] and [m], [generate_questions] does exactly
    what it does with [max(1, min(10, n))] and [max(3, min(5, m))]: the
    same result in the same world.  These lie in 1..10 and 3..5, and they
    are the numbers written into the prompt that is sent.  No count makes
    the call raise: it returns a value, unless a handler of lines 85-91
    cannot write its log line, which does not depend on the counts given
    but on what the service answered to the clamped ones. *)
Theorem generate_questions_clamps (E : env) (self : QuestionGenerator)
    (category : pystr) (n m : Z) (w : world) :
  let n' := Z.max 1 (Z.min 10 n) in
  let m' := Z.max 3 (Z.min 5 m) in
  generate_questions E self category n m w = generate_questions E self category n' m' w
  /\ (1 <= n' <= 10 /\ 3 <= m' <= 5)%Z
  /\ trace (snd (generate_questions E self category n m w))
     = trace w ++ [EvCreate (chat_request_of (prompt_text category n' m'))]
  /\ ((exists v, fst (generate_questions E self category n m w) = Ok v)
      \/ fst (generate_questions E self category n m w) = Raise UnicodeEncodeError).
Proof.
  intros n' m'. split; [|split; [|split]].
  - unfold generate_questions. fold n' m'.
    replace (Z.max 1 (Z.min 10 n')) with n' by (subst n'; lia).
    replace (Z.max 3 (Z.min 5 m')) with m' by (subst m'; lia).
    reflexivity.
  - subst n' m'. lia.
  - apply generate_questions_trace.
  - apply generate_questions_ends.
Qed.

(** ** Failing to the empty list *)

Lemma lookup_snoc_new (h : list pyobj) (o : pyobj) : (h ++ [o]) !! length h = Some o.
Proof. rewrite lookup_app_r by lia. now rewrite Nat.sub_diag. Qed.

(** The [try] raises [JSONDecodeError] when the cleaned text of the first
    choice is not JSON. *)
Lemma generate_try_parse_error (E : env) (category prompt text : pystr)
    (rest : list chat_choice) (w : world) :
  chat_completions_create E (trace w) (chat_request_of prompt)
    = Ok {| choices := {| message_content := Some text |} :: rest |} ->
  json_loads (clean_content text) = None ->
  generate_try E category prompt w
  = (Raise JSONDecodeError,
     {| heap := heap w; trace := trace w ++ [EvCreate (chat_request_of prompt)] |}).
Proof.
  intros Hc Hj. rewrite generate_try_unfold. unfold bind, create. rewrite Hc. simpl.
  unfold py_json_loads. now rewrite Hj.
Qed.

(** The local [content] once the completion has a text. *)
Lemma content_bound_text (E : env) (prompt text : pystr) (rest : list chat_choice)
    (w : world) :
  chat_completions_create E (trace w) (chat_request_of prompt)
    = Ok {| choices := {| message_content := Some text |} :: rest |} ->
  content_bound E prompt w = Some (clean_content text).
Proof.
  intros Hc. unfold content_bound, generate_content, bind, create. now rewrite Hc.
Qed.

(** A handled exception gives the empty list when its log line can be
    written. *)
Lemma generate_handled_empty (E : env) (content : option pystr) (e : exn) (w1 : world) :
  generate_log_ok E content e = true ->
  returns_empty_list (generate_handled E content e w1).
Proof.
  intros Hok. unfold generate_handled. rewrite Hok.
  eexists _, _. split; [reflexivity|]. cbn [heap]. apply lookup_snoc_new.
Qed.

(** X19. Failing to the empty list, where the log can be written.  When
    the text the completion capability returns does not decode as JSON in
    the function's parsing step (line 77, after the cleaning of line 76)
    and the standard output can write that text, and likewise when
    anything else in the [try] raises (the capability itself, a missing
    choice, a content that is [None], a decoded value of the wrong shape)
    with a message the standard output can write, [generate_questions]
    does not raise: it returns a new empty list. *)
Theorem generate_questions_fails_to_empty (E : env) (self : QuestionGenerator)
    (category : pystr) (n m : Z) (w : world) :
  let prompt := prompt_text category (Z.max 1 (Z.min 10 n)) (Z.max 3 (Z.min 5 m)) in
  (exists text rest,
      chat_completions_create E (trace w) (chat_request_of prompt)
        = Ok {| choices := {| message_content := Some text |} :: rest |}
      /\ json_loads (clean_content text) = None
      /\ printable E (clean_content text) = true)
  \/ (exists e w1, generate_try E category prompt w = (Raise e, w1)
                   /\ is_JSONDecodeError e = false
                   /\ printable E (exn_str e) = true) ->
  returns_empty_list (generate_questions E self category n m w).
Proof.
  intros prompt H.
  pose proof (generate_questions_cases E self category n m w) as Hc.
  cbv zeta in Hc. fold prompt in Hc.
  destruct H as [(text & rest & Hcall & Hj & Hp)|(e & w1 & Hr & He & Hp)].
  - rewrite (generate_try_parse_error E category prompt text rest w Hcall Hj) in Hc.
    rewrite (content_bound_text E prompt text rest w Hcall) in Hc.
    rewrite Hc. now apply generate_handled_empty.
  - rewrite Hr in Hc. rewrite Hc. apply generate_handled_empty.
    unfold generate_log_ok. now rewrite He.
Qed.

Lemma generate_questions_fails_to_empty_witness :
  returns_empty_list
    (generate_questions env_sorry (QuestionGenerator_init API_URL None)
       (lit "Science") 5 3 initial_world).
Proof.
  apply (generate_questions_fails_to_empty env_sorry
           (QuestionGenerator_init API_URL None) (lit "Science") 5 3 initial_world).
  left. exists (lit "sorry, I can't help"), [].
  split; [|split]; vm_compute; reflexivity.
Defined.

(** C5.  The claim fails on the code where the text that is not JSON is
    one the standard output cannot write: with the completion the single
    character U+D800 and a standard output in UTF-8, line 87 raises
    [UnicodeEncodeError] inside the handler, and the exception leaves
    [generate_questions]. *)
Theorem generate_questions_raises_in_handler :
  let r := generate_questions env_surrogate (QuestionGenerator_init API_URL None)
             (lit "Science") 5 3 initial_world in
  json_loads (clean_content [55296]) = None
  /\ fst r = Raise UnicodeEncodeError
  /\ trace (snd r) = [EvCreate (chat_request_of (prompt_text (lit "Science") 5 3))].
Proof. vm_compute. repeat split; reflexivity. Qed.

(** ** Category stamping *)

Lemma pystr_eqb_refl (s : pystr) : pystr_eqb s s = true.
Proof. induction s as [|c s IH]; simpl; [reflexivity|]. now rewrite N.eqb_refl. Qed.

Lemma dict_get_set_same {V : Type} (k : pystr) (v : V) (d : list (pystr * V)) :
  dict_get k (dict_set k v d) = Some v.
Proof.
  induction d as [|[k' v'] d IH]; simpl.
  - now rewrite pystr_eqb_refl.
  - destruct (pystr_eqb k k') eqn:Ek; simpl.
    + now rewrite pystr_eqb_refl.
    + now rewrite Ek.
Qed.

Lemma stamped_getitem (c : pystr) (w : world) (q : pyval) :
  stamped c w q -> py_getitem q key_category w = (Ok (VStr c), w).
Proof.
  intros (a & d & -> & Ha & Hd). unfold py_getitem, bind, deref. now rewrite Ha, Hd.
Qed.

Lemma setitem_inv (q : pyval) (k : pystr) (v : pyval) (w w1 : world) :
  py_setitem q k v w = (Ok tt, w1) ->
  exists a d, q = VRef a /\ heap w !! a = Some (ODict d)
    /\ w1 = {| heap := <[a := ODict (dict_set k v d)]> (heap w); trace := trace w |}.
Proof.
  destruct q; try discriminate. simpl. unfold bind, deref, store.
  destruct (heap w !! a) as [[items|d]|] eqn:Ha; try discriminate.
  intros [= <-]. eauto.
Qed.

(** The stamping loop of lines 80-81: when it completes, every element
    is stamped, and the list objects of the store are as before. *)
Lemma stamp_loop (c : pystr) (qs : list pyval) :
  forall w w1,
    for_each qs (fun q => py_setitem q key_category (VStr c)) w = (Ok tt, w1) ->
    Forall (stamped c w1) qs
    /\ (forall (a : addr) items, heap w !! a = Some (OList items) ->
                        heap w1 !! a = Some (OList items))
    /\ (forall q, stamped c w q -> stamped c w1 q)
    /\ (qs = [] -> w1 = w).
Proof.
  induction qs as [|q qs IH]; intros w w1 H.
  - injection H as <-. repeat split; auto.
  - simpl in H. apply bind_inv_Ok in H as ([] & w0 & Hq & Hrest).
    apply setitem_inv in Hq as (a & d & -> & Ha & ->).
    apply IH in Hrest as (Hall & Hlists & Hkeep & _). cbn [heap trace] in *.
    assert (Hlt : (a < length (heap w))%nat) by (eapply lookup_lt_Some; eauto).
    repeat split.
    + constructor; [|exact Hall]. apply Hkeep.
      exists a, (dict_set key_category (VStr c) d). repeat split.
      * cbn [heap]. now apply list_lookup_insert_eq.
      * apply dict_get_set_same.
    + intros a' items Ha'. apply Hlists.
      destruct (decide (a = a')) as [->|Hne]; [congruence|].
      now rewrite list_lookup_insert_ne.
    + intros q (a' & d' & -> & Ha' & Hd'). apply Hkeep.
      destruct (decide (a = a')) as [->|Hne].
      * exists a', (dict_set key_category (VStr c) d). repeat split.
        -- cbn [heap]. now apply list_lookup_insert_eq.
        -- apply dict_get_set_same.
      * exists a', d'. repeat split; [|exact Hd'].
        cbn [heap]. now rewrite list_lookup_insert_ne.
    + discriminate.
Qed.

Lemma stamped_is_ref (c : pystr) (w : world) (s : pystr) : ~ stamped c w (VStr s).
Proof. intros (a & d & H & _). discriminate. Qed.

(** The elements of what [generate_questions] returns are stamped dicts. *)
Lemma generate_questions_stamped (E : env) (self : QuestionGenerator)
    (category : pystr) (n m : Z) (w w' : world) (v : pyval) (qs : list pyval) :
  generate_questions E self category n m w = (Ok v, w') ->
  py_iter v w' = (Ok qs, w') ->
  Forall (stamped category w') qs.
Proof.
  intros Hg Hiter.
  pose proof (generate_questions_cases E self category n m w) as Hc. cbv zeta in Hc.
  destruct (generate_try E category _ w) as [[v0|e] w1] eqn:Ht.
  - rewrite Hc in Hg. injection Hg as <- <-.
    rewrite generate_try_unfold in Ht.
    apply bind_inv_Ok in Ht as (response & wa & _ & Ht).
    apply bind_inv_Ok in Ht as (content & wb & _ & Ht).
    apply bind_inv_Ok in Ht as (questions & wc & _ & Ht).
    apply bind_inv_Ok in Ht as (qs0 & wd & Hit0 & Ht).
    apply bind_inv_Ok in Ht as ([] & we & Hloop & Ht).
    injection Ht as <- <-.
    pose proof (py_iter_pure questions wc) as Hp. rewrite Hit0 in Hp. simpl in Hp. subst wd.
    apply stamp_loop in Hloop as (Hall & Hlists & _ & Hnil).
    destruct questions as [| | | |s|a]; try discriminate.
    + simpl in Hit0, Hiter. injection Hit0 as <-. injection Hiter as <-. exact Hall.
    + unfold py_iter in Hit0, Hiter. unfold bind, deref in Hit0, Hiter.
      destruct (heap wc !! a) as [[items|d]|] eqn:Ha; try discriminate.
      * rewrite (Hlists _ _ Ha) in Hiter.
        injection Hit0 as <-. injection Hiter as <-. exact Hall.
      * injection Hit0 as <-.
        destruct d as [|[k x] d].
        -- rewrite (Hnil eq_refl), Ha in Hiter. injection Hiter as <-. constructor.
        -- inversion Hall as [|? ? Hk _]. now apply stamped_is_ref in Hk.
  - rewrite Hc in Hg.
    match type of Hg with
    | generate_handled E ?c e w1 = _ =>
        destruct (generate_handled_cases E c e w1) as [Hh|Hh]; rewrite Hh in Hg
    end; [|discriminate].
    injection Hg as <- <-.
    unfold py_iter, bind, deref in Hiter. simpl in Hiter.
    rewrite lookup_snoc_new in Hiter. injection Hiter as <-. constructor.
Qed.

(** C7. Every element of the value [generate_questions] returns is a dict
    whose [category] is the [category] argument, whatever the decoded
    output held under that key. *)
Theorem generate_questions_stamps_category (E : env) (self : QuestionGenerator)
    (category : pystr) (n m : Z) (w w' : world) (v : pyval)
    (qs : list pyval) (q : pyval) :
  generate_questions E self category n m w = (Ok v, w') ->
  py_iter v w' = (Ok qs, w') ->
  In q qs ->
  py_getitem q key_category w' = (Ok (VStr category), w').
Proof.
  intros Hg Hiter Hin. apply stamped_getitem.
  pose proof (generate_questions_stamped E self category n m w w' v qs Hg Hiter) as Hall.
  rewrite Forall_forall in Hall. apply Hall. now apply list_elem_of_In.
Qed.

Lemma generate_questions_stamps_category_witness :
  py_getitem (VRef 0) key_category
    (snd (generate_questions env_geography (QuestionGenerator_init API_URL None)
            (lit "Science") 5 3 initial_world))
  = (Ok (VStr (lit "Science")),
     snd (generate_questions env_geography (QuestionGenerator_init API_URL None)
            (lit "Science") 5 3 initial_world)).
Proof.
  apply (generate_questions_stamps_category env_geography
           (QuestionGenerator_init API_URL None) (lit "Science") 5 3 initial_world
           _ (VRef 1) [VRef 0] (VRef 0)).
  - vm_compute. reflexivity.
  - vm_compute. reflexivity.
  - left. reflexivity.
Defined.

(** ** What [generate_questions] returns *)

(** C9. What [generate_questions] returns is not always a list: when
    the completion is the text of an empty JSON object, the loop of line
    80 has nothing to visit and the call returns the decoded dict. *)
Theorem generate_questions_returns_dict :
  let r := generate_questions env_braces (QuestionGenerator_init API_URL None)
             (lit "Science") 5 3 initial_world in
  fst r = Ok (VRef 0) /\ heap (snd r) !! 0%nat = Some (ODict []).
Proof. vm_compute. split; reflexivity. Qed.

(** ** The publisher on well-formed records *)

(** More fuel and more objects do not change what a value is written as. *)
Lemma to_json_mono (fuel : nat) (h : list pyobj) :
  forall v j, to_json fuel h v = Some j ->
  forall fuel' h', (fuel <= fuel')%nat -> h `prefix_of` h' ->
    to_json fuel' h' v = Some j.
Proof.
  induction fuel as [|fuel IH]; intros v j H fuel' h' Hf Hh.
  - destruct v; try discriminate; destruct fuel'; exact H.
  - destruct v; try (destruct fuel'; exact H).
    destruct fuel' as [|fuel']; [lia|]. cbn [to_json] in *.
    destruct (h !! a) as [[items|d]|] eqn:Ha; try discriminate;
      rewrite (prefix_lookup_Some _ _ _ _ Ha Hh).
    + destruct (mapM (to_json fuel h) items) as [js|] eqn:Em; [|discriminate].
      apply mapM_Some in Em.
      assert (Em' : mapM (to_json fuel' h') items = Some js).
      { apply mapM_Some. eapply Forall2_impl; [exact Em|].
        intros x y Hx. apply (IH _ _ Hx); [lia | exact Hh]. }
      now rewrite Em'.
    + match type of H with
      | option_map _ (mapM ?g d) = _ => destruct (mapM g d) as [js|] eqn:Em; [|discriminate]
      end.
      apply mapM_Some in Em.
      match goal with
      | |- option_map _ (mapM ?g' d) = _ =>
          assert (Em' : mapM g' d = Some js)
      end.
      { apply mapM_Some. eapply Forall2_impl; [exact Em|].
        intros x y Hx. cbv beta in *.
        destruct (to_json fuel h x.2) as [jx|] eqn:Ex; [|discriminate].
        now rewrite (IH _ _ Ex fuel' h') by (lia || exact Hh). }
      now rewrite Em'.
Qed.

Lemma record_fields_lookup (h ext : list pyobj) (q : pyval)
    (fs : pyval * pyval * pyval * pyval) :
  record_fields h q = Some fs ->
  exists b d, q = VRef b /\ (h ++ ext) !! b = Some (ODict d)
    /\ dict_get key_text d = Some fs.1.1.1
    /\ dict_get key_answer d = Some fs.1.1.2
    /\ dict_get key_category d = Some fs.1.2
    /\ dict_get key_filler_answers d = Some fs.2.
Proof.
  unfold record_fields. destruct q as [| | | | |b]; try discriminate.
  destruct (h !! b) as [[items|d]|] eqn:Hb; try discriminate.
  destruct (dict_get key_text d) as [t|] eqn:Et; [|discriminate].
  destruct (dict_get key_answer d) as [a|] eqn:Ea; [|discriminate].
  destruct (dict_get key_category d) as [c|] eqn:Ec; [|discriminate].
  destruct (dict_get key_filler_answers d) as [f|] eqn:Ef; [|discriminate].
  intros [= <-]. exists b, d.
  split; [reflexivity|]. split; [now apply lookup_app_l_Some|]. now repeat split.
Qed.

Lemma py_getitem_ok (w : world) (b : addr) (d : list (pystr * pyval))
    (k : pystr) (v : pyval) :
  heap w !! b = Some (ODict d) -> dict_get k d = Some v ->
  py_getitem (VRef b) k w = (Ok v, w).
Proof. intros Hb Hk. unfold py_getitem, bind, deref. now rewrite Hb, Hk. Qed.

Lemma py_getitem_missing (w : world) (b : addr) (d : list (pystr * pyval)) (k : pystr) :
  heap w !! b = Some (ODict d) -> dict_get k d = None ->
  py_getitem (VRef b) k w = (Raise (KeyError k), w).
Proof. intros Hb Hk. unfold py_getitem, bind, deref. now rewrite Hb, Hk. Qed.

(** One turn of the reshaping loop on a record that has the four keys:
    a new dict is added to the store and appended to the new list. *)
Lemma reshape_step (h0 : list pyobj) (refs : list pyval) (dicts : list pyobj)
    (q : pyval) (fs : pyval * pyval * pyval * pyval) (w : world) :
  heap w = h0 ++ OList refs :: dicts ->
  record_fields h0 q = Some fs ->
  reshape (VRef (length h0)) q w
  = (Ok tt,
     {| heap := h0 ++ OList (refs ++ [VRef (length h0 + 1 + length dicts)])
                     :: (dicts ++ [reshaped_obj fs]);
        trace := trace w |}).
Proof.
  intros Hw Hq.
  destruct (record_fields_lookup h0 (OList refs :: dicts) q fs Hq)
    as (b & d & -> & Hb & Ht & Ha & Hc & Hf).
  destruct fs as [[[t a] c] f]. cbn [fst snd] in *. rewrite <- Hw in Hb.
  unfold reshape.
  rewrite (bind_Ok _ _ _ _ _ (py_getitem_ok _ _ _ _ _ Hb Ht)).
  rewrite (bind_Ok _ _ _ _ _ (py_getitem_ok _ _ _ _ _ Hb Ha)).
  rewrite (bind_Ok _ _ _ _ _ (py_getitem_ok _ _ _ _ _ Hb Hc)).
  rewrite (bind_Ok _ _ _ _ _ (py_getitem_ok _ _ _ _ _ Hb Hf)).
  unfold bind, alloc, list_append, bind, deref, store. cbn [heap trace].
  rewrite Hw.
  assert (Hl : ((h0 ++ OList refs :: dicts)
                  ++ [ODict [(key_text, t); (key_answer, a);
                             (key_category, c); (key_filler_answers, f)]])
               !! length h0 = Some (OList refs)).
  { rewrite <- app_assoc. rewrite lookup_app_r by lia. now rewrite Nat.sub_diag. }
  rewrite Hl. cbn [heap trace]. f_equal. f_equal.
  rewrite <- app_assoc. rewrite insert_app_r_alt by lia. rewrite Nat.sub_diag.
  cbn. rewrite length_app. cbn [length].
  replace (length h0 + S (length dicts))%nat with (length h0 + 1 + length dicts)%nat by lia.
  reflexivity.
Qed.

Lemma reshape_loop (h0 : list pyobj) (qs : list pyval)
    (fields : list (pyval * pyval * pyval * pyval)) :
  Forall2 (fun q fs => record_fields h0 q = Some fs) qs fields ->
  forall refs dicts w,
    heap w = h0 ++ OList refs :: dicts ->
    for_each qs (reshape (VRef (length h0))) w
    = (Ok tt,
       {| heap := h0 ++ OList (refs ++ map VRef (seq (length h0 + 1 + length dicts)
                                                     (length qs)))
                       :: (dicts ++ map reshaped_obj fields);
          trace := trace w |}).
Proof.
  induction 1 as [|q fs qs fields Hq _ IH]; intros refs dicts w Hw.
  - cbn. rewrite !app_nil_r, <- Hw. now destruct w.
  - cbn [for_each].
    rewrite (bind_Ok _ _ _ _ _ (reshape_step h0 refs dicts q fs w Hw Hq)).
    rewrite (IH (refs ++ [VRef (length h0 + 1 + length dicts)])
                (dicts ++ [reshaped_obj fs])
                {| heap := _; trace := trace w |} eq_refl).
    cbn [trace length map seq]. rewrite length_app. cbn [length].
    rewrite <- !app_assoc. cbn [app].
    replace (length h0 + 1 + (length dicts + 1))%nat
      with (S (length h0 + 1 + length dicts)) by lia.
    reflexivity.
Qed.

Lemma record_json_fields (h : list pyobj) (q : pyval) (j : json) :
  record_json h q = Some j ->
  exists t a c f jt ja jc jf,
    record_fields h q = Some (t, a, c, f)
    /\ to_json (length h) h t = Some jt /\ to_json (length h) h a = Some ja
    /\ to_json (length h) h c = Some jc /\ to_json (length h) h f = Some jf
    /\ j = JDict [ (key_text, jt); (key_answer, ja);
                   (key_category, jc); (key_filler_answers, jf) ].
Proof.
  unfold record_json.
  destruct (record_fields h q) as [[[[t a] c] f]|]; [|discriminate].
  destruct (to_json (length h) h t) as [jt|] eqn:Et; [|discriminate].
  destruct (to_json (length h) h a) as [ja|] eqn:Ea; [|discriminate].
  destruct (to_json (length h) h c) as [jc|] eqn:Ec; [|discriminate].
  destruct (to_json (length h) h f) as [jf|] eqn:Ef; [|discriminate].
  intros [= <-]. exists t, a, c, f, jt, ja, jc, jf. now repeat split.
Qed.

(** The trees of the reshaped dicts, read from the final store. *)
Lemma reshaped_refs_json (h0 h2 : list pyobj) (fuel : nat) (qs : list pyval) :
  h0 `prefix_of` h2 -> (length h0 <= fuel)%nat ->
  forall bodies, Forall2 (fun q j => record_json h0 q = Some j) qs bodies ->
  forall start fields,
    Forall2 (fun q fs => record_fields h0 q = Some fs) qs fields ->
    (forall i fs, fields !! i = Some fs -> h2 !! (start + i)%nat = Some (reshaped_obj fs)) ->
    Forall2 (fun x y => to_json (S fuel) h2 x = Some y)
            (map VRef (seq start (length qs))) bodies.
Proof.
  intros Hpre Hfuel bodies Hj.
  induction Hj as [|q j qs bodies Hq _ IH]; intros start fields Hf Hlook.
  - constructor.
  - inversion Hf as [|? fs ? fields' Hqf Hf' ]; subst.
    cbn [length seq map]. constructor.
    + apply record_json_fields in Hq
        as (t & a & c & f & jt & ja & jc & jf & Hrf & Ht & Ha & Hc & Hff & ->).
      rewrite Hrf in Hqf. injection Hqf as <-.
      cbn [to_json]. specialize (Hlook 0%nat _ eq_refl).
      rewrite Nat.add_0_r in Hlook. rewrite Hlook. cbn [reshaped_obj].
      cbn [mapM fst snd].
      rewrite (to_json_mono _ _ _ _ Ht fuel h2 Hfuel Hpre).
      rewrite (to_json_mono _ _ _ _ Ha fuel h2 Hfuel Hpre).
      rewrite (to_json_mono _ _ _ _ Hc fuel h2 Hfuel Hpre).
      rewrite (to_json_mono _ _ _ _ Hff fuel h2 Hfuel Hpre).
      reflexivity.
    + apply (IH (S start) fields' Hf').
      intros i fs' Hi. specialize (Hlook (S i) fs' Hi).
      now rewrite Nat.add_succ_r in Hlook.
Qed.

(** What the handler of lines 134-139 does with an exception. *)
Lemma upload_except_run (E : env) (e : exn) (w : world) :
  upload_except E e w = (upload_handled E e, w).
Proof.
  unfold upload_except, upload_handled, upload_log_ok, bind.
  rewrite py_print_run, (printable_app E (lit "Error uploading questions: ")).
  change (printable E (lit "Error uploading questions: ")) with true. cbn [andb].
  destruct (printable E (exn_str e)); [|reflexivity]. cbn [andb].
  destruct (exn_response e) as [response|]; [|reflexivity].
  rewrite !py_print_run.
  rewrite (printable_app E (lit "Status code: ")), str_of_int_printable.
  rewrite (printable_app E (lit "Response: ")).
  change (printable E (lit "Status code: ")) with true.
  change (printable E (lit "Response: ")) with true. cbn [andb].
  now destruct (printable E (text response)).
Qed.

(** What [upload_questions] does with a non-empty list of records that
    have the four keys with values that can be written as JSON: one POST
    of the reshaped records, and an answer that depends on its outcome. *)
Lemma upload_questions_run (E : env) (self : QuestionGenerator) (w : world)
    (a : addr) (qs : list pyval) (bodies : list json) :
  heap w !! a = Some (OList qs) -> qs <> [] ->
  mapM (record_json (heap w)) qs = Some bodies ->
  exists h',
    upload_questions E self (VRef a) w
    = (upload_outcome E (trace w) (upload_request self bodies),
       {| heap := h'; trace := trace w ++ [EvPost (upload_request self bodies)] |}).
Proof.
  intros Ha Hne Hj. apply mapM_Some in Hj.
  assert (Hfields : exists fields,
             Forall2 (fun q fs => record_fields (heap w) q = Some fs) qs fields).
  { clear Ha Hne. induction Hj as [|q j qs bodies Hq _ [fields IH]]; [eexists; constructor|].
    apply record_json_fields in Hq as (t & a' & c & f & _ & _ & _ & _ & Hrf & _).
    exists ((t, a', c, f) :: fields). now constructor. }
  destruct Hfields as [fields Hf].
  set (h0 := heap w) in *.
  set (k := length qs).
  assert (Hk : (1 <= k)%nat) by (subst k; destruct qs; [contradiction | simpl; lia]).
  assert (Hlenf : length fields = k) by (symmetry; eapply Forall2_length; eauto).
  set (refs := map VRef (seq (length h0 + 1) k)).
  set (dicts := map reshaped_obj fields).
  set (payload := ODict [(key_questions, VRef (length h0))]).
  set (h2 := (h0 ++ OList refs :: dicts) ++ [payload]).
  exists h2.
  (* the run up to the payload *)
  unfold upload_questions.
  assert (Htruthy : truthy (VRef a) w = (Ok true, w)).
  { unfold truthy, bind, deref. fold h0. rewrite Ha. now destruct qs. }
  rewrite (bind_Ok _ _ _ _ _ Htruthy). cbn [negb].
  unfold bind at 1. unfold alloc at 1. fold h0.
  set (w1 := {| heap := h0 ++ [OList []]; trace := trace w |}).
  assert (Hiter : py_iter (VRef a) w1 = (Ok qs, w1)).
  { unfold py_iter, bind, deref. cbn [heap w1].
    now rewrite (lookup_app_l_Some _ _ _ _ Ha). }
  rewrite (bind_Ok _ _ _ _ _ Hiter).
  rewrite (bind_Ok _ _ _ _ _ (reshape_loop h0 qs fields Hf [] [] w1 eq_refl)).
  cbn [app length trace w1]. rewrite Nat.add_0_r. fold k refs dicts.
  unfold bind at 1. unfold alloc at 1. cbn [heap trace].
  fold payload.
  assert (Hlen1 : length (h0 ++ OList refs :: dicts) = (length h0 + 1 + k)%nat).
  { rewrite length_app. cbn [length]. unfold dicts. rewrite length_map. lia. }
  rewrite Hlen1. fold h2.
  set (w2 := {| heap := h2; trace := trace w |}).
  (* the payload as JSON *)
  assert (Hlen2 : length h2 = S (S (S (length h0 + k - 1)))).
  { unfold h2. rewrite length_app, Hlen1. cbn [length]. lia. }
  assert (Hpre : h0 `prefix_of` h2).
  { unfold h2. rewrite <- app_assoc. now apply prefix_app_r. }
  assert (Hpayload : h2 !! (length h0 + 1 + k)%nat = Some payload).
  { unfold h2. rewrite lookup_app_r by lia. now rewrite Hlen1, Nat.sub_diag. }
  assert (Hlist : h2 !! length h0 = Some (OList refs)).
  { unfold h2. rewrite <- app_assoc. rewrite lookup_app_r by lia.
    now rewrite Nat.sub_diag. }
  assert (Hdicts : forall i fs, fields !! i = Some fs ->
                     h2 !! (length h0 + 1 + i)%nat = Some (reshaped_obj fs)).
  { intros i fs Hi. unfold h2. rewrite <- app_assoc.
    rewrite lookup_app_r by lia.
    replace (length h0 + 1 + i - length h0)%nat with (S i) by lia.
    cbn [app]. rewrite lookup_cons_ne_0 by lia. cbn [pred].
    apply lookup_app_l_Some. unfold dicts. rewrite list_lookup_fmap.
    now rewrite Hi. }
  assert (Hbody : to_json (length h2) h2 (VRef (length h0 + 1 + k))
                  = Some (JDict [(key_questions, JList bodies)])).
  { assert (Hm : mapM (to_json (S (length h0 + k - 1)) h2) refs = Some bodies).
    { apply mapM_Some.
      apply (reshaped_refs_json h0 h2 (length h0 + k - 1) qs Hpre ltac:(lia)
               bodies Hj (length h0 + 1)%nat fields Hf Hdicts). }
    assert (Hinner : to_json (S (S (length h0 + k - 1))) h2 (VRef (length h0))
                     = Some (JList bodies)).
    { change (to_json (S (S (length h0 + k - 1))) h2 (VRef (length h0)))
        with (match h2 !! length h0 with
              | Some (OList items) =>
                  option_map JList (mapM (to_json (S (length h0 + k - 1)) h2) items)
              | Some (ODict d) =>
                  option_map JDict
                    (mapM (fun kv => option_map (pair (fst kv))
                                       (to_json (S (length h0 + k - 1)) h2 (snd kv))) d)
              | None => None
              end).
      now rewrite Hlist, Hm. }
    rewrite Hlen2.
    change (to_json (S (S (S (length h0 + k - 1)))) h2 (VRef (length h0 + 1 + k)))
      with (match h2 !! (length h0 + 1 + k)%nat with
            | Some (OList items) =>
                option_map JList (mapM (to_json (S (S (length h0 + k - 1))) h2) items)
            | Some (ODict d) =>
                option_map JDict
                  (mapM (fun kv => option_map (pair (fst kv))
                                     (to_json (S (S (length h0 + k - 1))) h2 (snd kv))) d)
            | None => None
            end).
    rewrite Hpayload. unfold payload. cbn [mapM fst snd]. now rewrite Hinner. }
  assert (Hdumps : json_dumps (VRef (length h0 + 1 + k)) w2
                   = (Ok (JDict [(key_questions, JList bodies)]), w2)).
  { unfold json_dumps, bind, get_heap. cbn [heap w2]. now rewrite Hbody. }
  unfold try_except, post, bind. rewrite Hdumps. cbv beta iota. rewrite Hdumps.
  cbv beta iota. fold (upload_request self bodies). unfold upload_outcome.
  cbn [trace w2 heap].
  destruct (requests_post E (trace w) (upload_request self bodies)) as [response|e].
  - unfold raise_for_status.
    destruct ((400 <=? status_code response)%Z && (status_code response <? 600)%Z);
      [|reflexivity].
    cbn [raise pick_handler is_RequestException]. now rewrite upload_except_run.
  - cbn [pick_handler]. destruct (is_RequestException e); [|reflexivity].
    now rewrite upload_except_run.
Qed.






(** ** A record without a required key *)

Lemma reshape_missing_key (h0 ext : list pyobj) (fq q : pyval) (w : world) :
  heap w = h0 ++ ext -> is_dict h0 q -> record_fields h0 q = None ->
  exists k, In k required_keys /\ reshape fq q w = (Raise (KeyError k), w).
Proof.
  intros Hw (b & d & -> & Hb) Hnone.
  assert (Hb' : heap w !! b = Some (ODict d))
    by (rewrite Hw; now apply lookup_app_l_Some).
  unfold record_fields in Hnone. rewrite Hb in Hnone. unfold reshape, required_keys.
  destruct (dict_get key_text d) as [t|] eqn:Et.
  2:{ exists key_text. split; [now left|].
      now rewrite (bind_Raise _ _ _ _ _ (py_getitem_missing _ _ _ _ Hb' Et)). }
  rewrite (bind_Ok _ _ _ _ _ (py_getitem_ok _ _ _ _ _ Hb' Et)).
  destruct (dict_get key_answer d) as [x|] eqn:Ea.
  2:{ exists key_answer. split; [right; now left|].
      now rewrite (bind_Raise _ _ _ _ _ (py_getitem_missing _ _ _ _ Hb' Ea)). }
  rewrite (bind_Ok _ _ _ _ _ (py_getitem_ok _ _ _ _ _ Hb' Ea)).
  destruct (dict_get key_category d) as [c|] eqn:Ec.
  2:{ exists key_category. split; [right; right; now left|].
      now rewrite (bind_Raise _ _ _ _ _ (py_getitem_missing _ _ _ _ Hb' Ec)). }
  rewrite (bind_Ok _ _ _ _ _ (py_getitem_ok _ _ _ _ _ Hb' Ec)).
  destruct (dict_get key_filler_answers d) as [f|] eqn:Ef; [discriminate|].
  exists key_filler_answers. split; [right; right; right; now left|].
  now rewrite (bind_Raise _ _ _ _ _ (py_getitem_missing _ _ _ _ Hb' Ef)).
Qed.

(** The reshaping loop stops at the first record that lacks a key. *)
Lemma reshape_loop_missing (h0 : list pyobj) (qs : list pyval) :
  Forall (is_dict h0) qs ->
  Exists (fun q => record_fields h0 q = None) qs ->
  forall refs dicts w,
    heap w = h0 ++ OList refs :: dicts ->
    exists k w',
      In k required_keys
      /\ for_each qs (reshape (VRef (length h0))) w = (Raise (KeyError k), w')
      /\ trace w' = trace w.
Proof.
  induction 1 as [|q qs Hq _ IH]; intros Hex refs dicts w Hw.
  - inversion Hex.
  - cbn [for_each].
    destruct (record_fields h0 q) as [fs|] eqn:Hf.
    + rewrite (bind_Ok _ _ _ _ _ (reshape_step h0 refs dicts q fs w Hw Hf)).
      assert (Hex' : Exists (fun q => record_fields h0 q = None) qs).
      { inversion Hex as [? ? Hhd|? ? Htl]; subst; [congruence | exact Htl]. }
      destruct (IH Hex' (refs ++ [VRef (length h0 + 1 + length dicts)])
                  (dicts ++ [reshaped_obj fs])
                  {| heap := _; trace := trace w |} eq_refl) as (k & w' & Hk & Hrun & Ht).
      exists k, w'. repeat split; assumption.
    + destruct (reshape_missing_key h0 (OList refs :: dicts) (VRef (length h0)) q w
                  Hw Hq Hf) as (k & Hk & Hrun).
      exists k, w. repeat split; [exact Hk|].
      now rewrite (bind_Raise _ _ _ _ _ Hrun).
Qed.

(** The lookup failure leaves [upload_questions]: no handler of the
    method catches a [KeyError], and it is raised before the POST. *)
Lemma upload_questions_missing_key (E : env) (self : QuestionGenerator) (w : world)
    (a : addr) (qs : list pyval) :
  heap w !! a = Some (OList qs) ->
  Forall (is_dict (heap w)) qs ->
  Exists (fun q => record_fields (heap w) q = None) qs ->
  exists k w',
    In k required_keys
    /\ upload_questions E self (VRef a) w = (Raise (KeyError k), w')
    /\ trace w' = trace w.
Proof.
  intros Ha Hd Hex. unfold upload_questions.
  assert (Htruthy : truthy (VRef a) w = (Ok true, w)).
  { unfold truthy, bind, deref. rewrite Ha. destruct qs; [inversion Hex | reflexivity]. }
  rewrite (bind_Ok _ _ _ _ _ Htruthy). cbn [negb].
  unfold bind at 1. unfold alloc at 1.
  set (w1 := {| heap := heap w ++ [OList []]; trace := trace w |}).
  assert (Hiter : py_iter (VRef a) w1 = (Ok qs, w1)).
  { unfold py_iter, bind, deref. cbn [heap w1].
    now rewrite (lookup_app_l_Some _ _ _ _ Ha). }
  rewrite (bind_Ok _ _ _ _ _ Hiter).
  destruct (reshape_loop_missing (heap w) qs Hd Hex [] [] w1 eq_refl)
    as (k & w' & Hk & Hrun & Ht).
  exists k, w'. repeat split; [exact Hk | | exact Ht].
  now rewrite (bind_Raise _ _ _ _ _ Hrun).
Qed.

(** C4, as the code has it.  When a record of the list the generator
    returned lacks one of the four required keys, the [KeyError] leaves
    [upload_questions] before any POST is made, and it leaves the loop of
    the driver too, which has no handler: the run ends there, with the
    later categories not processed. *)
Theorem missing_key_ends_the_run (E : env) (generator : QuestionGenerator)
    (category : pystr) (rest : list pystr) (w w1 : world) (a : addr)
    (qs : list pyval) :
  generate_questions E generator category QUESTIONS_PER_CATEGORY 3 w = (Ok (VRef a), w1) ->
  heap w1 !! a = Some (OList qs) ->
  Exists (fun q => record_fields (heap w1) q = None) qs ->
  exists k w2,
    In k required_keys
    /\ upload_questions E generator (VRef a) w1 = (Raise (KeyError k), w2)
    /\ trace w2 = trace w1
    /\ for_each (category :: rest) (process_category E generator) w
       = (Raise (KeyError k), w2).
Proof.
  intros Hg Ha Hex.
  assert (Hiter : py_iter (VRef a) w1 = (Ok qs, w1)).
  { unfold py_iter, bind, deref. now rewrite Ha. }
  assert (Hd : Forall (is_dict (heap w1)) qs).
  { eapply Forall_impl; [exact (generate_questions_stamped _ _ _ _ _ _ _ _ _ Hg Hiter)|].
    intros q (b & d & -> & Hb & _). now exists b, d. }
  destruct (upload_questions_missing_key E generator w1 a qs Ha Hd Hex)
    as (k & w2 & Hk & Hup & Ht).
  exists k, w2. repeat split; try assumption.
  cbn [for_each]. unfold process_category at 1.
  assert (Htruthy : truthy (VRef a) w1 = (Ok true, w1)).
  { unfold truthy, bind, deref. rewrite Ha. destruct qs; [inversion Hex | reflexivity]. }
  apply bind_Raise.
  rewrite (bind_Ok _ _ _ _ _ Hg), (bind_Ok _ _ _ _ _ Htruthy). cbn [negb].
  now apply bind_Raise.
Qed.

Lemma missing_key_ends_the_run_witness :
  exists k w2,
    In k required_keys
    /\ upload_questions env_text_only (QuestionGenerator_init API_URL None) (VRef 1)
         (snd (generate_questions env_text_only (QuestionGenerator_init API_URL None)
                 (lit "Science") QUESTIONS_PER_CATEGORY 3 initial_world))
       = (Raise (KeyError k), w2)
    /\ trace w2
       = trace (snd (generate_questions env_text_only (QuestionGenerator_init API_URL None)
                       (lit "Science") QUESTIONS_PER_CATEGORY 3 initial_world))
    /\ for_each (lit "Science" :: [lit "History"])
         (process_category env_text_only (QuestionGenerator_init API_URL None))
         initial_world
       = (Raise (KeyError k), w2).
Proof.
  apply (missing_key_ends_the_run env_text_only (QuestionGenerator_init API_URL None)
           (lit "Science") [lit "History"] initial_world _ 1%nat [VRef 0]).
  - vm_compute. reflexivity.
  - vm_compute. reflexivity.
  - left. vm_compute. reflexivity.
Defined.

(** C4 as stated fails: with records that have no [answer], the driver
    raises at the first category, Science, and the completion for History
    and the categories after it is never asked for. *)
Lemma driver_stops_at_missing_key :
  fst (main env_text_only initial_world) = Raise (KeyError key_answer)
  /\ trace (snd (main env_text_only initial_world))
     = [EvCreate (chat_request_of (prompt_text (lit "Science") 5 3))]
  /\ ~ In (EvCreate (chat_request_of (prompt_text (lit "History") 5 3)))
          (trace (snd (main env_text_only initial_world))).
Proof.
  assert (Ht : trace (snd (main env_text_only initial_world))
               = [EvCreate (chat_request_of (prompt_text (lit "Science") 5 3))])
    by (vm_compute; reflexivity).
  split; [vm_compute; reflexivity|]. split; [exact Ht|].
  rewrite Ht. intros [H|[]]. revert H. vm_compute. discriminate.
Qed.

(** ** The program on concrete inputs *)

Example clean_content_fenced_array :
  clean_content (lit "```json
[1, 2]
```") = lit "[1, 2]".
Proof. vm_compute. reflexivity. Qed.

(** [str.strip(chars)] removes characters of a set, not a token: a text
    that starts or ends with one of the letters j, s, o, n loses it. *)
Example clean_content_trims_letters :
  clean_content (lit "null") = lit "ull" /\ json_loads (lit "null") = Some JNull.
Proof. vm_compute. split; reflexivity. Qed.

Example json_loads_array :
  json_loads (lit " [1, -2.50e1, true, null, [], {}] ")
  = Some (JList [JInt 1; JFloat (FDec true 250 (-1)); JBool true; JNull;
                 JList []; JDict []]).
Proof. vm_compute. reflexivity. Qed.

Example json_loads_rejects :
  json_loads (lit "sorry, I can't help") = None
  /\ json_loads (lit "[1,]") = None
  /\ json_loads (lit "01") = None
  /\ json_loads (lit "[1] 2") = None
  /\ json_loads [] = None.
Proof. vm_compute. repeat split; reflexivity. Qed.

(** A later value for a key replaces the earlier one. *)
Example json_loads_duplicate_key :
  json_loads (lit "{" ++ quoted "k" ++ lit ": 1, " ++ quoted "k" ++ lit ": 2}")
  = Some (JDict [(lit "k", JInt 2)]).
Proof. vm_compute. reflexivity. Qed.

Example prompt_with_clamped_counts :
  trace (snd (generate_questions env_sorry (QuestionGenerator_init API_URL None)
                (lit "Science") 50 0 initial_world))
  = [EvCreate (chat_request_of (prompt_text (lit "Science") 10 3))].
Proof. vm_compute. reflexivity. Qed.

Example upload_201_and_500 :
  fst (upload_questions (env_status 201) (QuestionGenerator_init API_URL None)
         (VRef 2) example_world) = Ok true
  /\ fst (upload_questions (env_status 500) (QuestionGenerator_init API_URL None)
            (VRef 2) example_world) = Ok false.
Proof. vm_compute. split; reflexivity. Qed.

(** A record that is not a dict: the subscript raises [TypeError]. *)
Example upload_of_a_number :
  fst (upload_questions (env_status 201) (QuestionGenerator_init API_URL None) (VRef 0)
         {| heap := [OList [VInt 1]]; trace := [] |}) = Raise TypeError.
Proof. vm_compute. reflexivity. Qed.

(** A list that contains itself cannot be written as JSON. *)
Example upload_of_a_cycle :
  fst (upload_questions (env_status 201) (QuestionGenerator_init API_URL None) (VRef 1)
         {| heap := [ ODict [ (key_text, VRef 1); (key_answer, VNone);
                              (key_category, VNone); (key_filler_answers, VNone) ];
                      OList [VRef 0] ];
            trace := [] |}) = Raise ValueError.
Proof. vm_compute. reflexivity. Qed.

(** With well-formed completions the driver asks for all five categories
    and uploads each. *)
Example main_processes_every_category :
  let E := {| chat_completions_create := fun _ _ =>
                Ok {| choices := [ {| message_content := Some (
                  lit "[{" ++ quoted "text" ++ lit ": " ++ quoted "Q" ++ lit ", "
                  ++ quoted "answer" ++ lit ": " ++ quoted "A" ++ lit ", "
                  ++ quoted "filler_answers" ++ lit ": ["
                  ++ quoted "B" ++ lit ", " ++ quoted "C" ++ lit ", " ++ quoted "D"
                  ++ lit "]}]") |} ] |};
              requests_post := fun _ _ =>
                Ok {| status_code := 201; reason := lit "Created";
                      response_url := API_URL; text := [] |};
              stdout_encodes := utf8_encodes |} in
  fst (main E initial_world) = Ok tt
  /\ map (fun ev => match ev with EvCreate _ => true | EvPost _ => false end)
         (trace (snd (main E initial_world)))
     = [true; false; true; false; true; false; true; false; true; false].
Proof. vm_compute. split; reflexivity. Qed.

(** * Further properties *)

(** ** What line 76 removes *)

Ltac app_nil_eq :=
  cbn [app]; rewrite ?app_nil_r, <- ?app_assoc; cbn [app]; rewrite ?app_nil_r; reflexivity.

Lemma head_last_cases (s : pystr) (c c' : pychar) :
  head s = Some c -> last s = Some c' ->
  (s = [c] /\ c' = c) \/ exists mid, s = c :: mid ++ [c'].
Proof.
  destruct s as [|x s]; [discriminate|]. intros [= ->] Hl.
  destruct (decide (s = [])) as [->|Hne].
  - left. injection Hl as <-. now split.
  - right. destruct (exists_last Hne) as (mid & y & ->).
    rewrite app_comm_cons, last_snoc in Hl. injection Hl as <-. now exists mid.
Qed.

(** A strip removes a wrapping of characters it matches and stops at the
    ends of a text whose first and last character it does not match. *)
Lemma strip_by_core (f : pychar -> bool) (pre body post : pystr) (c c' : pychar) :
  forallb f pre = true -> forallb f post = true ->
  head body = Some c -> last body = Some c' -> f c = false -> f c' = false ->
  strip_by f (pre ++ body ++ post) = body.
Proof.
  intros Hpre Hpost Hh Hl Hc Hc'.
  destruct (head_last_cases body c c' Hh Hl) as [[-> ->]|[mid ->]].
  - unfold strip_by, lstrip_by. rewrite drop_while_app, Hpre. cbn [app drop_while].
    rewrite Hc. change (c :: post) with ([c] ++ post).
    rewrite rstrip_by_app_drop by exact Hpost.
    now apply (rstrip_by_snoc_keep f []).
  - now apply strip_by_frame.
Qed.

Lemma head_app_l (a b : pystr) (c : pychar) : head a = Some c -> head (a ++ b) = Some c.
Proof. destruct a; [discriminate|]. trivial. Qed.

Lemma last_app_r (a b : pystr) (c : pychar) : last b = Some c -> last (a ++ b) = Some c.
Proof.
  intros Hb. destruct b as [|x b _] using rev_ind; [discriminate|].
  rewrite last_snoc in Hb. injection Hb as ->. now rewrite app_assoc, last_snoc.
Qed.

Lemma space_not_fence (c : pychar) :
  is_py_space c = true -> char_in fence_json c = false.
Proof.
  intros H. unfold char_in, fence_json. cbn [existsb].
  destruct (c =? 96) eqn:E1; [apply N.eqb_eq in E1; subst; discriminate|].
  destruct (c =? 106) eqn:E2; [apply N.eqb_eq in E2; subst; discriminate|].
  destruct (c =? 115) eqn:E3; [apply N.eqb_eq in E3; subst; discriminate|].
  destruct (c =? 111) eqn:E4; [apply N.eqb_eq in E4; subst; discriminate|].
  destruct (c =? 110) eqn:E5; [apply N.eqb_eq in E5; subst; discriminate|].
  reflexivity.
Qed.

Lemma fence_in_fence_json (c : pychar) :
  char_in fence c = true -> char_in fence_json c = true.
Proof.
  unfold char_in, fence, fence_json. cbn [existsb].
  destruct (c =? 96); [reflexivity | discriminate].
Qed.

Lemma strippable_false (c : pychar) :
  strippable c = false ->
  is_py_space c = false /\ char_in fence_json c = false /\ char_in fence c = false.
Proof.
  unfold strippable. intros H. apply orb_false_iff in H as [H1 H2].
  repeat split; try assumption.
  destruct (char_in fence c) eqn:E; [|reflexivity].
  apply fence_in_fence_json in E. congruence.
Qed.

(** The ends of a text with plain ends, between two runs of white
    space. *)
Lemma padded_ends (a body b : pystr) (c c' : pychar) :
  forallb is_py_space a = true -> forallb is_py_space b = true ->
  head body = Some c -> last body = Some c' ->
  strippable c = false -> strippable c' = false ->
  exists x x', head (a ++ body ++ b) = Some x /\ last (a ++ body ++ b) = Some x'
               /\ char_in fence_json x = false /\ char_in fence_json x' = false.
Proof.
  intros Ha Hb Hh Hl Hc Hc'.
  apply strippable_false in Hc as (_ & Hc & _).
  apply strippable_false in Hc' as (_ & Hc' & _).
  assert (Hx : exists x, head (a ++ body ++ b) = Some x /\ char_in fence_json x = false).
  { destruct a as [|x a].
    - exists c. split; [cbn [app]; now apply head_app_l | exact Hc].
    - exists x. split; [reflexivity|]. apply space_not_fence.
      simpl in Ha. now apply andb_true_iff in Ha as [Ha _]. }
  assert (Hx' : exists x', last (a ++ body ++ b) = Some x'
                           /\ char_in fence_json x' = false).
  { destruct b as [|y b _] using rev_ind.
    - exists c'. split; [|exact Hc']. rewrite app_nil_r. now apply last_app_r.
    - exists y. split; [now rewrite !app_assoc, last_snoc|]. apply space_not_fence.
      rewrite forallb_app in Hb. apply andb_true_iff in Hb as [_ Hb].
      simpl in Hb. now rewrite andb_true_r in Hb. }
  destruct Hx as (x & Hx1 & Hx2). destruct Hx' as (x' & Hx1' & Hx2').
  now exists x, x'.
Qed.

(** After the first [strip()], the text is the two fences around the
    body, with the white space that was between a fence and the body. *)
Lemma py_strip_wrapped (ws1 f1 ws2 body ws3 f2 ws4 : pystr) (c c' : pychar) :
  forallb is_py_space ws1 = true -> forallb is_py_space ws2 = true ->
  forallb is_py_space ws3 = true -> forallb is_py_space ws4 = true ->
  forallb (char_in fence_json) f1 = true -> forallb (char_in fence_json) f2 = true ->
  head body = Some c -> last body = Some c' ->
  strippable c = false -> strippable c' = false ->
  exists a b,
    forallb is_py_space a = true /\ forallb is_py_space b = true
    /\ py_strip (ws1 ++ f1 ++ ws2 ++ body ++ ws3 ++ f2 ++ ws4)
       = f1 ++ (a ++ body ++ b) ++ f2.
Proof.
  intros H1 H2 H3 H4 Hf1 Hf2 Hh Hl Hc Hc'.
  pose proof (strippable_false c Hc) as (Hcs & _ & _).
  pose proof (strippable_false c' Hc') as (Hcs' & _ & _).
  assert (Hfs : forall f x, forallb (char_in fence_json) f = true ->
                  (head f = Some x \/ last f = Some x) -> is_py_space x = false).
  { intros f x Hf Hx.
    assert (Hin : In x f).
    { destruct Hx as [Hx|Hx].
      - destruct f; [discriminate|]. injection Hx as ->. now left.
      - destruct f as [|y f _] using rev_ind; [discriminate|].
        rewrite last_snoc in Hx. injection Hx as ->. apply in_or_app. right. now left. }
    rewrite forallb_forall in Hf. specialize (Hf x Hin).
    destruct (is_py_space x) eqn:E; [|reflexivity].
    apply space_not_fence in E. congruence. }
  unfold py_strip.
  destruct f1 as [|x1 f1]; destruct f2 as [|y2 f2 _] using rev_ind.
  - (* no fence at all *)
    exists [], []. split; [reflexivity|]. split; [reflexivity|].
    replace (ws1 ++ [] ++ ws2 ++ body ++ ws3 ++ [] ++ ws4)
      with ((ws1 ++ ws2) ++ body ++ (ws3 ++ ws4)).
    + rewrite (strip_by_core is_py_space _ body _ c c'); try assumption.
      * app_nil_eq.
      * now rewrite forallb_app, H1, H2.
      * now rewrite forallb_app, H3, H4.
    + app_nil_eq.
  - (* a closing fence only *)
    exists [], ws3. split; [reflexivity|]. split; [exact H3|].
    replace (ws1 ++ [] ++ ws2 ++ body ++ ws3 ++ (f2 ++ [y2]) ++ ws4)
      with ((ws1 ++ ws2) ++ (body ++ ws3 ++ f2 ++ [y2]) ++ ws4).
    + rewrite (strip_by_core is_py_space _ (body ++ ws3 ++ f2 ++ [y2]) _ c y2);
        try assumption.
      * app_nil_eq.
      * now rewrite forallb_app, H1, H2.
      * now apply head_app_l.
      * now rewrite !app_assoc, last_snoc.
      * apply (Hfs _ _ Hf2). right. apply last_snoc.
    + app_nil_eq.
  - (* an opening fence only *)
    exists ws2, []. split; [exact H2|]. split; [reflexivity|].
    replace (ws1 ++ (x1 :: f1) ++ ws2 ++ body ++ ws3 ++ [] ++ ws4)
      with (ws1 ++ ((x1 :: f1) ++ ws2 ++ body) ++ (ws3 ++ ws4)).
    + rewrite (strip_by_core is_py_space _ ((x1 :: f1) ++ ws2 ++ body) _ x1 c');
        try assumption.
      * app_nil_eq.
      * now rewrite forallb_app, H3, H4.
      * reflexivity.
      * rewrite app_assoc. now apply last_app_r.
      * apply (Hfs _ _ Hf1). now left.
    + app_nil_eq.
  - (* both fences *)
    exists ws2, ws3. split; [exact H2|]. split; [exact H3|].
    replace (ws1 ++ (x1 :: f1) ++ ws2 ++ body ++ ws3 ++ (f2 ++ [y2]) ++ ws4)
      with (ws1 ++ ((x1 :: f1) ++ (ws2 ++ body ++ ws3) ++ f2 ++ [y2]) ++ ws4).
    + rewrite (strip_by_core is_py_space _ _ _ x1 y2); try assumption.
      * reflexivity.
      * reflexivity.
      * rewrite !app_assoc. apply last_snoc.
      * apply (Hfs _ _ Hf1). now left.
      * apply (Hfs _ _ Hf2). right. apply last_snoc.
    + app_nil_eq.
Qed.

(** X1. Line 76 unwraps a fenced text: around a body whose first and
    last character are neither white space nor one of the characters
    backtick, j, s, o, n, it removes on each side a run of white space, a
    run of those characters (the fence, with or without its language
    tag), and a run of white space again, and returns the body
    unchanged. *)
Theorem clean_content_unwraps (ws1 f1 ws2 body ws3 f2 ws4 : pystr) :
  forallb is_py_space ws1 = true -> forallb is_py_space ws2 = true ->
  forallb is_py_space ws3 = true -> forallb is_py_space ws4 = true ->
  forallb (char_in fence_json) f1 = true -> forallb (char_in fence_json) f2 = true ->
  plain_ends body ->
  clean_content (ws1 ++ f1 ++ ws2 ++ body ++ ws3 ++ f2 ++ ws4) = body.
Proof.
  intros H1 H2 H3 H4 Hf1 Hf2 (c & c' & Hh & Hl & Hc & Hc').
  destruct (py_strip_wrapped ws1 f1 ws2 body ws3 f2 ws4 c c')
    as (a & b & Ha & Hb & E1); try assumption.
  destruct (padded_ends a body b c c') as (x & x' & Hx & Hx' & Hxf & Hxf');
    try assumption.
  pose proof (strippable_false c Hc) as (Hcs & _ & _).
  pose proof (strippable_false c' Hc') as (Hcs' & _ & _).
  unfold clean_content. rewrite E1. unfold py_strip_chars.
  rewrite (strip_by_core (char_in fence_json) f1 (a ++ body ++ b) f2 x x');
    try assumption.
  assert (E3 : strip_by (char_in fence) (a ++ body ++ b) = a ++ body ++ b).
  { rewrite <- (app_nil_r (a ++ body ++ b)) at 1.
    change ((a ++ body ++ b) ++ []) with ([] ++ (a ++ body ++ b) ++ []).
    apply (strip_by_core (char_in fence) [] (a ++ body ++ b) [] x x');
      try assumption; try reflexivity.
    - destruct (char_in fence x) eqn:E; [|reflexivity].
      apply fence_in_fence_json in E. congruence.
    - destruct (char_in fence x') eqn:E; [|reflexivity].
      apply fence_in_fence_json in E. congruence. }
  rewrite E3. unfold py_strip.
  now apply (strip_by_core is_py_space a body b c c').
Qed.

Lemma clean_content_unwraps_witness :
  clean_content (lit "  ```json
{" ++ quoted "a" ++ lit ": 1}
```
") = lit "{" ++ quoted "a" ++ lit ": 1}".
Proof.
  apply (clean_content_unwraps (lit "  ") fence_json [10]
           (lit "{" ++ quoted "a" ++ lit ": 1}") [10] fence [10]);
    try reflexivity.
  exists 123, 125. repeat split; reflexivity.
Defined.

(** What a strip removes on each side is a run of characters it
    matches. *)
Lemma strip_by_split (f : pychar -> bool) (s : pystr) :
  exists pre post, s = pre ++ strip_by f s ++ post
                   /\ forallb f pre = true /\ forallb f post = true.
Proof.
  unfold strip_by, lstrip_by, rstrip_by.
  destruct (drop_while_split f s) as (pre & Hs & Hpre).
  destruct (drop_while_split f (rev (drop_while f s))) as (tail & Ht & Htail).
  exists pre, (rev tail). split; [|split; [exact Hpre|]].
  - rewrite <- rev_app_distr, <- Ht, rev_involutive. exact Hs.
  - rewrite forallb_forall in *. intros x Hx. apply Htail. now apply in_rev.
Qed.

Lemma forallb_weaken (f g : pychar -> bool) (s : pystr) :
  (forall c, f c = true -> g c = true) -> forallb f s = true -> forallb g s = true.
Proof.
  intros Hfg. rewrite !forallb_forall. intros H x Hx. apply Hfg, H, Hx.
Qed.

(** X2. Line 76 takes characters away at the two ends of the text only,
    and only white space, backticks and the letters j, s, o, n: the input
    is the result between two runs of such characters.  The result
    neither starts nor ends with white space. *)
Theorem clean_content_trims_ends (s : pystr) :
  (exists pre post,
      s = pre ++ clean_content s ++ post
      /\ forallb strippable pre = true /\ forallb strippable post = true)
  /\ (forall c r, clean_content s = c :: r -> is_py_space c = false)
  /\ (forall r c, clean_content s = r ++ [c] -> is_py_space c = false).
Proof.
  split; [|split].
  - unfold clean_content, py_strip, py_strip_chars.
    destruct (strip_by_split is_py_space s) as (p1 & q1 & E1 & Hp1 & Hq1).
    set (s1 := strip_by is_py_space s) in *.
    destruct (strip_by_split (char_in fence_json) s1) as (p2 & q2 & E2 & Hp2 & Hq2).
    set (s2 := strip_by (char_in fence_json) s1) in *.
    destruct (strip_by_split (char_in fence) s2) as (p3 & q3 & E3 & Hp3 & Hq3).
    set (s3 := strip_by (char_in fence) s2) in *.
    destruct (strip_by_split is_py_space s3) as (p4 & q4 & E4 & Hp4 & Hq4).
    set (s4 := strip_by is_py_space s3) in *.
    assert (Hs : forall c, is_py_space c = true -> strippable c = true).
    { intros c Hc. unfold strippable. now rewrite Hc. }
    assert (Hj : forall c, char_in fence_json c = true -> strippable c = true).
    { intros c Hc. unfold strippable. rewrite Hc. apply orb_true_r. }
    assert (Hb : forall c, char_in fence c = true -> strippable c = true).
    { intros c Hc. apply Hj. now apply fence_in_fence_json. }
    exists (p1 ++ p2 ++ p3 ++ p4), (q4 ++ q3 ++ q2 ++ q1). split; [|split].
    + rewrite E1 at 1. rewrite E2 at 1. rewrite E3 at 1. rewrite E4 at 1.
      now rewrite <- !app_assoc.
    + rewrite !forallb_app.
      rewrite (forallb_weaken _ _ _ Hs Hp1), (forallb_weaken _ _ _ Hj Hp2),
              (forallb_weaken _ _ _ Hb Hp3), (forallb_weaken _ _ _ Hs Hp4).
      reflexivity.
    + rewrite !forallb_app.
      rewrite (forallb_weaken _ _ _ Hs Hq1), (forallb_weaken _ _ _ Hj Hq2),
              (forallb_weaken _ _ _ Hb Hq3), (forallb_weaken _ _ _ Hs Hq4).
      reflexivity.
  - intros c r H. unfold clean_content, py_strip in H. now apply strip_by_first in H.
  - intros r c H. unfold clean_content, py_strip in H. now apply strip_by_last in H.
Qed.

(** ** The calls of [upload_questions] *)

Lemma quiet_ret {A : Type} (t : list event) (a : A) : quiet t (ret a).
Proof. intros w Hw. split; [exact Hw | discriminate]. Qed.

Lemma quiet_raise {A : Type} (t : list event) (e : exn) :
  is_RequestException e = false -> quiet t (@raise A e).
Proof. intros He w Hw. split; [exact Hw|]. now intros ? [= <-]. Qed.

Lemma quiet_bind {A B : Type} (t : list event) (m : M A) (k : A -> M B) :
  quiet t m -> (forall a, quiet t (k a)) -> quiet t (bind m k).
Proof.
  intros Hm Hk w Hw. destruct (Hm w Hw) as [Ht He]. unfold bind.
  destruct (m w) as [[a|e] w1]; cbn [fst snd] in *.
  - now apply Hk.
  - split; [exact Ht|]. intros e' [= <-]. now apply He.
Qed.

Lemma quiet_for_each {A : Type} (t : list event) (l : list A) (body : A -> M unit) :
  (forall x, quiet t (body x)) -> quiet t (for_each l body).
Proof.
  intros Hb. induction l as [|x l IH]; cbn [for_each].
  - apply quiet_ret.
  - apply quiet_bind; [apply Hb | intros _; exact IH].
Qed.

Lemma quiet_deref (t : list event) (a : addr) : quiet t (deref a).
Proof.
  intros w Hw. unfold deref. destruct (heap w !! a); cbn [fst snd].
  - split; [exact Hw | discriminate].
  - split; [exact Hw|]. now intros ? [= <-].
Qed.

Lemma quiet_truthy (t : list event) (v : pyval) : quiet t (truthy v).
Proof.
  destruct v; try apply quiet_ret. cbn [truthy].
  apply quiet_bind; [apply quiet_deref|].
  intros [[|? ?]|[|? ?]]; apply quiet_ret.
Qed.

Lemma quiet_py_iter (t : list event) (v : pyval) : quiet t (py_iter v).
Proof.
  destruct v; try (now apply quiet_raise); try apply quiet_ret. cbn [py_iter].
  apply quiet_bind; [apply quiet_deref|]. intros [?|?]; apply quiet_ret.
Qed.

Lemma quiet_py_getitem (t : list event) (q : pyval) (k : pystr) : quiet t (py_getitem q k).
Proof.
  destruct q; try (now apply quiet_raise). cbn [py_getitem].
  apply quiet_bind; [apply quiet_deref|]. intros [?|d]; [now apply quiet_raise|].
  destruct (dict_get k d); [apply quiet_ret | now apply quiet_raise].
Qed.

Lemma quiet_alloc (t : list event) (o : pyobj) : quiet t (alloc o).
Proof. intros w Hw. split; [exact Hw | discriminate]. Qed.

Lemma quiet_list_append (t : list event) (l v : pyval) : quiet t (list_append l v).
Proof.
  destruct l; try (now apply quiet_raise). cbn [list_append].
  apply quiet_bind; [apply quiet_deref|]. intros [?|?]; [|now apply quiet_raise].
  intros w Hw. split; [exact Hw | discriminate].
Qed.

Lemma quiet_reshape (t : list event) (fq q : pyval) : quiet t (reshape fq q).
Proof.
  unfold reshape.
  repeat (apply quiet_bind; [apply quiet_py_getitem|]; intros ?).
  apply quiet_bind; [apply quiet_alloc|]. intros d. apply quiet_list_append.
Qed.

(** A quiet step in front of a computation. *)
Lemma quiet_then {A B : Type} (t : list event) (m : M A) (k : A -> M B)
    (P : result B * world -> Prop) (w : world) :
  quiet t m -> trace w = t ->
  (forall e w1, trace w1 = t -> is_RequestException e = false -> P (Raise e, w1)) ->
  (forall a w1, trace w1 = t -> P (k a w1)) ->
  P (bind m k w).
Proof.
  intros Hm Hw Hraise Hok. destruct (Hm w Hw) as [Ht He]. unfold bind.
  destruct (m w) as [[a|e] w1]; cbn [fst snd] in *.
  - now apply Hok.
  - apply Hraise; [exact Ht | now apply He].
Qed.

Lemma bind_cases {A B : Type} (m : M A) (k : A -> M B)
    (P : result B * world -> Prop) (w : world) :
  (forall e w1, m w = (Raise e, w1) -> P (Raise e, w1)) ->
  (forall a w1, m w = (Ok a, w1) -> P (k a w1)) ->
  P (bind m k w).
Proof.
  intros Hr Ho. unfold bind.
  destruct (m w) as [[a|e] w1]; [now apply Ho | now apply Hr].
Qed.

(** The [try] of lines 119-139. *)
Lemma upload_try_shape (E : env) (self : QuestionGenerator) (payload : pyval)
    (w0 w : world) :
  trace w = trace w0 ->
  upload_shape E self w0
    (try_except
       (json_dumps payload ;;;
        response <- post E (api_url self) payload (headers self) 30 ;;
        raise_for_status response ;;;
        ret true)
       [ (is_RequestException, upload_except E) ] w).
Proof.
  intros Hw. unfold try_except, bind, post, bind.
  pose proof (json_dumps_pure payload w) as Hp.
  destruct (json_dumps payload w) as [[body|e] w1] eqn:Hd; cbn [snd] in Hp; subst w1.
  - rewrite Hd. right. right. exists body. fold (post_request self body).
    unfold upload_outcome. rewrite <- Hw.
    destruct (requests_post E (trace w) (post_request self body)) as [response|e].
    + unfold raise_for_status.
      destruct ((400 <=? status_code response)%Z && (status_code response <? 600)%Z);
        [|split; reflexivity].
      cbn [raise pick_handler is_RequestException]. rewrite upload_except_run.
      split; reflexivity.
    + cbn [pick_handler]. destruct (is_RequestException e); [|split; reflexivity].
      rewrite upload_except_run. split; reflexivity.
  - right. left.
    assert (He : e = ValueError).
    { unfold json_dumps, bind, get_heap in Hd.
      destruct (to_json (length (heap w)) (heap w) payload); [discriminate|].
      now injection Hd as <-. }
    subst e. cbn. split; [exact Hw|]. now exists ValueError.
Qed.

(** Every call of [upload_questions] ends in one of the three ways. *)
Lemma upload_questions_shape (E : env) (self : QuestionGenerator) (questions : pyval)
    (w : world) :
  upload_shape E self w (upload_questions E self questions w).
Proof.
  unfold upload_questions.
  assert (Hraise : forall e w1, trace w1 = trace w -> is_RequestException e = false ->
                     upload_shape E self w (@Raise bool e, w1)).
  { intros e w1 Ht He. right. left. split; [exact Ht|]. now exists e. }
  apply bind_cases.
  { intros e w1 H. destruct (quiet_truthy (trace w) questions w eq_refl) as [Ht He].
    rewrite H in Ht, He. apply Hraise; [exact Ht | now apply He]. }
  intros nonempty w1 H. pose proof (f_equal snd H) as Hw1.
  rewrite truthy_pure in Hw1. cbn [snd] in Hw1. subst w1.
  destruct (negb nonempty); [now left|].
  apply (quiet_then (trace w)); [apply quiet_alloc | reflexivity | exact Hraise |].
  intros fq w2 Hw2.
  apply (quiet_then (trace w)); [apply quiet_py_iter | exact Hw2 | exact Hraise |].
  intros qs w3 Hw3.
  apply (quiet_then (trace w));
    [apply quiet_for_each; intros q; apply quiet_reshape | exact Hw3 | exact Hraise |].
  intros _ w4 Hw4.
  apply (quiet_then (trace w)); [apply quiet_alloc | exact Hw4 | exact Hraise |].
  intros payload w5 Hw5. now apply upload_try_shape.
Qed.

(** X3. Whatever it is called with, [upload_questions] never calls the
    completion service and makes at most one POST; the POST goes to the
    generator's [api_url] with the generator's headers and a timeout of 30
    seconds. *)
Theorem upload_questions_at_most_one_post (E : env) (self : QuestionGenerator)
    (questions : pyval) (w : world) :
  let w' := snd (upload_questions E self questions w) in
  trace w' = trace w
  \/ exists body,
       trace w' = trace w ++ [EvPost {| url := api_url self; json_body := body;
                                        headers_sent := headers self; timeout := 30 |}].
Proof.
  intros w'. subst w'.
  destruct (upload_questions_shape E self questions w) as [->|[[Ht _]|[body [_ Ht]]]].
  - now left.
  - now left.
  - right. now exists body.
Qed.

(** X4. [upload_questions] returns [True] only when it made its POST and
    the POST completed with a status outside 400..599: whatever the input,
    [True] is never the answer to a request that was not made or that
    failed. *)
Theorem upload_questions_true_means_posted (E : env) (self : QuestionGenerator)
    (questions : pyval) (w : world) :
  fst (upload_questions E self questions w) = Ok true ->
  exists body response,
    trace (snd (upload_questions E self questions w))
      = trace w ++ [EvPost (post_request self body)]
    /\ requests_post E (trace w) (post_request self body) = Ok response
    /\ ~ (400 <= status_code response < 600)%Z.
Proof.
  intros Htrue.
  destruct (upload_questions_shape E self questions w)
    as [Hr|[[_ (e & Hf & _)]|[body [Hr Ht]]]].
  - rewrite Hr in Htrue. discriminate.
  - congruence.
  - rewrite Htrue in Hr. unfold upload_outcome in Hr.
    destruct (requests_post E (trace w) (post_request self body)) as [response|e] eqn:Hp.
    + exists body, response. split; [exact Ht|]. split; [exact Hp|].
      destruct ((400 <=? status_code response)%Z && (status_code response <? 600)%Z)
        eqn:Hs.
      { unfold upload_handled in Hr. destruct (upload_log_ok E _); discriminate. }
      intros [H1 H2]. apply Z.leb_le in H1. apply Z.ltb_lt in H2.
      rewrite H1, H2 in Hs. discriminate.
    + destruct (is_RequestException e); [|discriminate].
      unfold upload_handled in Hr. destruct (upload_log_ok E e); discriminate.
Qed.

Lemma upload_questions_true_means_posted_witness :
  exists body response,
    trace (snd (upload_questions (env_status 204) main_generator (VRef 2) example_world))
      = trace example_world ++ [EvPost (post_request main_generator body)]
    /\ requests_post (env_status 204) (trace example_world)
         (post_request main_generator body) = Ok response
    /\ ~ (400 <= status_code response < 600)%Z.
Proof.
  apply (upload_questions_true_means_posted (env_status 204) main_generator
           (VRef 2) example_world).
  vm_compute. reflexivity.
Defined.

(** X5. [False] is the answer of [upload_questions] in two situations
    that the caller cannot tell apart: the test of line 103 found nothing
    to upload, and then nothing at all was done; or the POST was made and
    failed, with a status from 400 to 599 or with an exception of the
    requests library. *)
Theorem upload_questions_false_means (E : env) (self : QuestionGenerator)
    (questions : pyval) (w : world) :
  fst (upload_questions E self questions w) = Ok false ->
  upload_questions E self questions w = (Ok false, w)
  \/ exists body,
       trace (snd (upload_questions E self questions w))
         = trace w ++ [EvPost (post_request self body)]
       /\ ((exists response,
              requests_post E (trace w) (post_request self body) = Ok response
              /\ (400 <= status_code response < 600)%Z)
           \/ (exists e,
                 requests_post E (trace w) (post_request self body) = Raise e
                 /\ is_RequestException e = true)).
Proof.
  intros Hfalse.
  destruct (upload_questions_shape E self questions w)
    as [Hr|[[_ (e & Hf & _)]|[body [Hr Ht]]]].
  - now left.
  - congruence.
  - right. exists body. split; [exact Ht|].
    rewrite Hfalse in Hr. unfold upload_outcome in Hr.
    destruct (requests_post E (trace w) (post_request self body)) as [response|e] eqn:Hp.
    + left. exists response. split; [reflexivity|].
      destruct (400 <=? status_code response)%Z eqn:H1;
        destruct (status_code response <? 600)%Z eqn:H2; try discriminate.
      apply Z.leb_le in H1. apply Z.ltb_lt in H2. now split.
    + right. exists e. split; [reflexivity|].
      destruct (is_RequestException e); [reflexivity | discriminate].
Qed.

Lemma upload_questions_false_means_witness :
  upload_questions (env_status 404) main_generator (VRef 2) example_world
  = (Ok false, example_world)
  \/ exists body,
       trace (snd (upload_questions (env_status 404) main_generator (VRef 2) example_world))
         = trace example_world ++ [EvPost (post_request main_generator body)]
       /\ ((exists response,
              requests_post (env_status 404) (trace example_world)
                (post_request main_generator body) = Ok response
              /\ (400 <= status_code response < 600)%Z)
           \/ (exists e,
                 requests_post (env_status 404) (trace example_world)
                   (post_request main_generator body) = Raise e
                 /\ is_RequestException e = true)).
Proof.
  apply (upload_questions_false_means (env_status 404) main_generator
           (VRef 2) example_world).
  vm_compute. reflexivity.
Defined.

(** X6. No exception of the requests library leaves [upload_questions]:
    an [HTTPError], a connection error, a timeout or any other
    [RequestException] is caught by the handler of line 134.  An exception
    that does leave the method was raised before any POST was made; or it
    is one that [requests.post] itself raised and that is none of the
    requests library; or it is the [UnicodeEncodeError] of a log line of
    the handler, after a POST that failed with a message or a response
    body that the standard output cannot write. *)
Theorem upload_questions_raises (E : env) (self : QuestionGenerator)
    (questions : pyval) (w : world) (e : exn) :
  fst (upload_questions E self questions w) = Raise e ->
  is_RequestException e = false
  /\ (trace (snd (upload_questions E self questions w)) = trace w
      \/ exists body,
           trace (snd (upload_questions E self questions w))
             = trace w ++ [EvPost (post_request self body)]
           /\ (requests_post E (trace w) (post_request self body) = Raise e
               \/ (e = UnicodeEncodeError
                   /\ exists failure,
                        upload_log_ok E failure = false
                        /\ is_RequestException failure = true
                        /\ (requests_post E (trace w) (post_request self body)
                              = Raise failure
                            \/ exists response,
                                 requests_post E (trace w) (post_request self body)
                                   = Ok response
                                 /\ (400 <= status_code response < 600)%Z
                                 /\ failure = HTTPError (http_error_message response)
                                                        response)))).
Proof.
  intros Hraise.
  destruct (upload_questions_shape E self questions w)
    as [Hr|[[Ht (e' & Hf & He')]|[body [Hr Ht]]]].
  - rewrite Hr in Hraise. discriminate.
  - rewrite Hraise in Hf. injection Hf as ->. split; [exact He' | now left].
  - rewrite Hraise in Hr. unfold upload_outcome, upload_handled in Hr.
    destruct (requests_post E (trace w) (post_request self body)) as [response|e'] eqn:Hp.
    + destruct ((400 <=? status_code response)%Z && (status_code response <? 600)%Z)
        eqn:Hs; [|discriminate].
      destruct (upload_log_ok E _) eqn:Hlog; [discriminate|]. injection Hr as ->.
      split; [reflexivity|]. right. exists body. split; [exact Ht|]. right.
      split; [reflexivity|]. eexists. split; [exact Hlog|]. split; [reflexivity|].
      right. exists response. split; [exact Hp|]. split; [|reflexivity].
      apply andb_true_iff in Hs as [H1 H2].
      apply Z.leb_le in H1. apply Z.ltb_lt in H2. now split.
    + destruct (is_RequestException e') eqn:He'.
      * destruct (upload_log_ok E e') eqn:Hlog; [discriminate|]. injection Hr as ->.
        split; [reflexivity|]. right. exists body. split; [exact Ht|]. right.
        split; [reflexivity|]. exists e'. split; [exact Hlog|]. split; [exact He'|].
        left. exact Hp.
      * injection Hr as ->. split; [exact He'|]. right. exists body.
        split; [exact Ht|]. left. exact Hp.
Qed.

Lemma upload_questions_raises_witness :
  let E := env_bad_gateway in
  is_RequestException UnicodeEncodeError = false
  /\ (trace (snd (upload_questions E main_generator (VRef 2) example_world))
        = trace example_world
      \/ exists body,
           trace (snd (upload_questions E main_generator (VRef 2) example_world))
             = trace example_world ++ [EvPost (post_request main_generator body)]
           /\ (requests_post E (trace example_world) (post_request main_generator body)
                 = Raise UnicodeEncodeError
               \/ (UnicodeEncodeError = UnicodeEncodeError
                   /\ exists failure,
                        upload_log_ok E failure = false
                        /\ is_RequestException failure = true
                        /\ (requests_post E (trace example_world)
                              (post_request main_generator body) = Raise failure
                            \/ exists response,
                                 requests_post E (trace example_world)
                                   (post_request main_generator body) = Ok response
                                 /\ (400 <= status_code response < 600)%Z
                                 /\ failure = HTTPError (http_error_message response)
                                                        response)))).
Proof.
  intros E.
  apply (upload_questions_raises E main_generator (VRef 2) example_world
           UnicodeEncodeError).
  vm_compute. reflexivity.
Defined.

(** ** The first record that cannot be reshaped *)

Lemma for_each_app {A : Type} (l1 l2 : list A) (body : A -> M unit) (w : world) :
  for_each (l1 ++ l2) body w
  = bind (for_each l1 body) (fun _ => for_each l2 body) w.
Proof.
  revert w. induction l1 as [|x l1 IH]; intros w; cbn [app for_each].
  - reflexivity.
  - unfold bind.
    destruct (body x w) as [[[]|e] w1]; [|reflexivity]. now rewrite IH.
Qed.

Lemma fields_of_records (h : list pyobj) (good : list pyval) :
  Forall (fun g => record_fields h g <> None) good ->
  exists fields, Forall2 (fun q fs => record_fields h q = Some fs) good fields.
Proof.
  induction 1 as [|g good Hg _ [fields IH]]; [now exists []|].
  destruct (record_fields h g) as [fs|] eqn:E; [|contradiction].
  exists (fs :: fields). now constructor.
Qed.

(** The reshaping loop runs through the records that have the four keys
    and stops at the first record that raises. *)
Lemma upload_questions_bad_record (E : env) (self : QuestionGenerator) (w : world)
    (a : addr) (good : list pyval) (q : pyval) (rest : list pyval) (e : exn) :
  heap w !! a = Some (OList (good ++ q :: rest)) ->
  Forall (fun g => record_fields (heap w) g <> None) good ->
  (forall fq w1, heap w `prefix_of` heap w1 -> reshape fq q w1 = (Raise e, w1)) ->
  fst (upload_questions E self (VRef a) w) = Raise e
  /\ trace (snd (upload_questions E self (VRef a) w)) = trace w.
Proof.
  intros Ha Hgood Hbad.
  destruct (fields_of_records _ _ Hgood) as [fields Hf].
  set (w1 := {| heap := heap w ++ [OList []]; trace := trace w |}).
  set (w2 := {| heap := heap w ++ OList ([] ++ map VRef (seq (length (heap w) + 1 + 0)
                                                           (length good)))
                               :: ([] ++ map reshaped_obj fields);
                trace := trace w |}).
  assert (Hrun : upload_questions E self (VRef a) w = (Raise e, w2)).
  { unfold upload_questions.
    assert (Htruthy : truthy (VRef a) w = (Ok true, w)).
    { unfold truthy, bind, deref. rewrite Ha. now destruct good. }
    rewrite (bind_Ok _ _ _ _ _ Htruthy). cbn [negb].
    unfold bind at 1. unfold alloc at 1. fold w1.
    assert (Hiter : py_iter (VRef a) w1 = (Ok (good ++ q :: rest), w1)).
    { unfold py_iter, bind, deref. cbn [heap w1].
      now rewrite (lookup_app_l_Some _ _ _ _ Ha). }
    rewrite (bind_Ok _ _ _ _ _ Hiter).
    apply bind_Raise. rewrite for_each_app.
    rewrite (bind_Ok _ _ _ _ _ (reshape_loop (heap w) good fields Hf [] [] w1 eq_refl)).
    cbn [for_each length trace w1]. apply bind_Raise. apply Hbad.
    cbn [heap]. now apply prefix_app_r. }
  rewrite Hrun. now split.
Qed.

Lemma reshape_first_missing (fq : pyval) (b : addr) (d : list (pystr * pyval))
    (k : pystr) (w : world) :
  heap w !! b = Some (ODict d) -> first_missing_key d = Some k ->
  reshape fq (VRef b) w = (Raise (KeyError k), w).
Proof.
  intros Hb. unfold first_missing_key, required_keys, reshape. cbn [find].
  destruct (dict_get key_text d) as [t|] eqn:Et.
  2:{ intros [= <-].
      now rewrite (bind_Raise _ _ _ _ _ (py_getitem_missing _ _ _ _ Hb Et)). }
  rewrite (bind_Ok _ _ _ _ _ (py_getitem_ok _ _ _ _ _ Hb Et)).
  destruct (dict_get key_answer d) as [x|] eqn:Ea.
  2:{ intros [= <-].
      now rewrite (bind_Raise _ _ _ _ _ (py_getitem_missing _ _ _ _ Hb Ea)). }
  rewrite (bind_Ok _ _ _ _ _ (py_getitem_ok _ _ _ _ _ Hb Ea)).
  destruct (dict_get key_category d) as [c|] eqn:Ec.
  2:{ intros [= <-].
      now rewrite (bind_Raise _ _ _ _ _ (py_getitem_missing _ _ _ _ Hb Ec)). }
  rewrite (bind_Ok _ _ _ _ _ (py_getitem_ok _ _ _ _ _ Hb Ec)).
  destruct (dict_get key_filler_answers d) as [f|] eqn:Ef; [discriminate|].
  intros [= <-].
  now rewrite (bind_Raise _ _ _ _ _ (py_getitem_missing _ _ _ _ Hb Ef)).
Qed.

(** X7. The [KeyError] of [upload_questions] names the first missing key
    of the first incomplete record: the records before it have the four
    keys, and of the keys [text], [answer], [category], [filler_answers],
    read in this order, it is the first one the record lacks.  No POST is
    made. *)
Theorem upload_questions_first_missing_key (E : env) (self : QuestionGenerator)
    (w : world) (a b : addr) (good rest : list pyval) (d : list (pystr * pyval))
    (k : pystr) :
  heap w !! a = Some (OList (good ++ VRef b :: rest)) ->
  Forall (fun g => record_fields (heap w) g <> None) good ->
  heap w !! b = Some (ODict d) ->
  first_missing_key d = Some k ->
  fst (upload_questions E self (VRef a) w) = Raise (KeyError k)
  /\ trace (snd (upload_questions E self (VRef a) w)) = trace w.
Proof.
  intros Ha Hgood Hb Hk.
  apply (upload_questions_bad_record E self w a good (VRef b) rest _ Ha Hgood).
  intros fq w1 Hpre. apply (reshape_first_missing fq b d k w1); [|exact Hk].
  exact (prefix_lookup_Some _ _ _ _ Hb Hpre).
Qed.

Lemma upload_questions_first_missing_key_witness :
  let w := {| heap := [ ODict [ (key_text, VStr (lit "Q")); (key_answer, VStr (lit "A"));
                                (key_category, VStr (lit "C"));
                                (key_filler_answers, VNone) ];
                        ODict [ (key_filler_answers, VNone); (key_text, VStr (lit "Q")) ];
                        ODict [];
                        OList [VRef 0; VRef 1; VRef 2] ];
              trace := [] |} in
  fst (upload_questions (env_status 201) main_generator (VRef 3) w)
  = Raise (KeyError key_answer)
  /\ trace (snd (upload_questions (env_status 201) main_generator (VRef 3) w)) = trace w.
Proof.
  intros w.
  apply (upload_questions_first_missing_key (env_status 201) main_generator w
           3%nat 1%nat [VRef 0] [VRef 2]
           [ (key_filler_answers, VNone); (key_text, VStr (lit "Q")) ] key_answer).
  - reflexivity.
  - constructor; [|constructor]. vm_compute. discriminate.
  - reflexivity.
  - vm_compute. reflexivity.
Defined.

Lemma reshape_not_a_dict (fq q : pyval) (w : world) :
  not_a_dict (heap w) q -> reshape fq q w = (Raise TypeError, w).
Proof.
  destruct q as [| | | | |b]; try reflexivity.
  intros [items Hb]. unfold reshape, py_getitem, bind, deref. now rewrite Hb.
Qed.

(** X8. A record that is not a dict (a list, a string, a number, a
    boolean or [None]) after records that have the four keys makes
    [upload_questions] raise [TypeError]; no POST is made. *)
Theorem upload_questions_record_not_a_dict (E : env) (self : QuestionGenerator)
    (w : world) (a : addr) (good : list pyval) (q : pyval) (rest : list pyval) :
  heap w !! a = Some (OList (good ++ q :: rest)) ->
  Forall (fun g => record_fields (heap w) g <> None) good ->
  not_a_dict (heap w) q ->
  fst (upload_questions E self (VRef a) w) = Raise TypeError
  /\ trace (snd (upload_questions E self (VRef a) w)) = trace w.
Proof.
  intros Ha Hgood Hq.
  apply (upload_questions_bad_record E self w a good q rest _ Ha Hgood).
  intros fq w1 Hpre. apply reshape_not_a_dict.
  destruct q as [| | | | |b]; try exact I.
  destruct Hq as [items Hb]. exists items. exact (prefix_lookup_Some _ _ _ _ Hb Hpre).
Qed.

Lemma upload_questions_record_not_a_dict_witness :
  let w := {| heap := [ ODict [ (key_text, VStr (lit "Q")); (key_answer, VStr (lit "A"));
                                (key_category, VStr (lit "C"));
                                (key_filler_answers, VNone) ];
                        OList [VRef 0; VStr (lit "a question")] ];
              trace := [] |} in
  fst (upload_questions (env_status 201) main_generator (VRef 1) w) = Raise TypeError
  /\ trace (snd (upload_questions (env_status 201) main_generator (VRef 1) w)) = trace w.
Proof.
  intros w.
  apply (upload_questions_record_not_a_dict (env_status 201) main_generator w
           1%nat [VRef 0] (VStr (lit "a question")) []).
  - reflexivity.
  - constructor; [|constructor]. vm_compute. discriminate.
  - exact I.
Defined.

(** ** The objects [json.loads] builds *)

Lemma json_nested_ind (P : json -> Prop) :
  P JNull -> (forall b, P (JBool b)) -> (forall z, P (JInt z)) ->
  (forall f, P (JFloat f)) -> (forall s, P (JStr s)) ->
  (forall l, Forall P l -> P (JList l)) ->
  (forall d, Forall (fun kv => P (snd kv)) d -> P (JDict d)) ->
  forall j, P j.
Proof.
  intros Hn Hb Hi Hf Hs Hl Hd. fix IH 1.
  intros [|b|z|f|s|l|d]; [exact Hn | apply Hb | apply Hi | apply Hf | apply Hs | | ].
  - apply Hl. revert l. fix IHl 1. intros [|x l]; constructor; [apply IH | apply IHl].
  - apply Hd. revert d. fix IHd 1. intros [|[k x] d]; constructor; [apply IH | apply IHd].
Qed.

Lemma alloc_json_list (l : list json) (h : list pyobj) :
  alloc_json (JList l) h
  = let '(vs, h') := alloc_list l h in (VRef (length h'), h' ++ [OList vs]).
Proof. reflexivity. Qed.

Lemma alloc_json_dict (d : list (pystr * json)) (h : list pyobj) :
  alloc_json (JDict d) h
  = let '(kvs, h') := alloc_fields d h in (VRef (length h'), h' ++ [ODict kvs]).
Proof. reflexivity. Qed.

Lemma to_json_more_fuel (fuel fuel' : nat) (h : list pyobj) (v : pyval) (j : json) :
  to_json fuel h v = Some j -> (fuel <= fuel')%nat -> to_json fuel' h v = Some j.
Proof. intros H Hf. now apply (to_json_mono fuel h v j H fuel' h). Qed.

Lemma agree_sub (lo hi lo' hi' : nat) (H h h' : list pyobj) :
  agree lo hi H h -> (lo <= lo')%nat -> (hi' <= hi)%nat -> (hi' <= length h')%nat ->
  h' `prefix_of` h -> agree lo' hi' H h'.
Proof.
  intros Hag Hlo Hhi Hlen [ext ->] a Ha. rewrite Hag by lia.
  apply lookup_app_l. lia.
Qed.

Lemma alloc_list_builds (l : list json) :
  Forall builds l ->
  forall h vs h1, alloc_list l h = (vs, h1) ->
    exists ext, h1 = h ++ ext
      /\ forall H, agree (length h) (length h1) H h1 ->
           Forall2 (fun v x => to_json (length ext) H v = Some x) vs l.
Proof.
  induction 1 as [|x l Hx _ IH]; intros h vs h1 Hal; cbn [alloc_list] in Hal.
  - injection Hal as <- <-. exists []. split; [now rewrite app_nil_r | constructor].
  - destruct (alloc_json x h) as [v ha] eqn:Ex.
    destruct (alloc_list l ha) as [vs' hb] eqn:El. injection Hal as <- <-.
    destruct (Hx _ _ _ Ex) as (e1 & -> & H1).
    destruct (IH _ _ _ El) as (e2 & -> & H2).
    exists (e1 ++ e2). split; [now rewrite app_assoc|]. intros H Hag. constructor.
    + apply (to_json_more_fuel (length e1)); [|rewrite length_app; lia].
      apply H1. apply (agree_sub _ _ _ _ _ _ _ Hag); try lia.
      * rewrite !length_app. lia.
      * now apply prefix_app_r.
    + eapply Forall2_impl.
      * apply H2. intros a Ha. apply Hag. rewrite !length_app in *. lia.
      * intros v' x' Hv. cbv beta in Hv.
        apply (to_json_more_fuel _ _ _ _ _ Hv). rewrite length_app. lia.
Qed.

Lemma alloc_fields_builds (d : list (pystr * json)) :
  Forall (fun kv => builds (snd kv)) d ->
  forall h kvs h1, alloc_fields d h = (kvs, h1) ->
    exists ext, h1 = h ++ ext
      /\ forall H, agree (length h) (length h1) H h1 ->
           fields_written (length ext) H kvs d.
Proof.
  induction 1 as [|[k x] d Hx _ IH]; intros h kvs h1 Hal; cbn [alloc_fields] in Hal.
  - injection Hal as <- <-. exists []. split; [now rewrite app_nil_r | constructor].
  - destruct (alloc_json x h) as [v ha] eqn:Ex.
    destruct (alloc_fields d ha) as [kvs' hb] eqn:El. injection Hal as <- <-.
    destruct (Hx _ _ _ Ex) as (e1 & -> & H1).
    destruct (IH _ _ _ El) as (e2 & -> & H2).
    exists (e1 ++ e2). split; [now rewrite app_assoc|]. intros H Hag. constructor.
    + split; [reflexivity|]. cbn [snd]. unfold written_as.
      apply (to_json_more_fuel (length e1)); [|rewrite length_app; lia].
      apply H1. apply (agree_sub _ _ _ _ _ _ _ Hag); try lia.
      * rewrite !length_app. lia.
      * now apply prefix_app_r.
    + eapply Forall2_impl.
      * apply H2. intros a Ha. apply Hag. rewrite !length_app in *. lia.
      * intros kv' kv [Hk Hv]. split; [exact Hk|]. unfold written_as in *.
        apply (to_json_more_fuel _ _ _ _ _ Hv). rewrite length_app. lia.
Qed.

Lemma fields_written_mapM (fuel : nat) (H : list pyobj)
    (kvs : list (pystr * pyval)) (d : list (pystr * json)) :
  fields_written fuel H kvs d ->
  mapM (fun kv => option_map (pair (fst kv)) (to_json fuel H (snd kv))) kvs = Some d.
Proof.
  intros Hw. apply mapM_Some. eapply Forall2_impl; [exact Hw|].
  intros [k v] [k' x] [Hk Hv]. cbn [fst snd] in *. unfold written_as in Hv.
  subst k'. now rewrite Hv.
Qed.

(** The value [json.loads] builds for a tree is written by [json.dumps]
    as the same tree, with as much fuel as objects were built, in every
    store that holds these objects unchanged. *)
Lemma alloc_json_builds (j : json) : builds j.
Proof.
  induction j as [|b|z|f|s|l Hl|d Hd] using json_nested_ind;
    try (intros h v h' [= <- <-]; exists []; split; [now rewrite app_nil_r | reflexivity]).
  - intros h v h' Hal. rewrite alloc_json_list in Hal.
    destruct (alloc_list l h) as [vs h1] eqn:El. injection Hal as <- <-.
    destruct (alloc_list_builds l Hl _ _ _ El) as (ext & -> & Hvs).
    exists (ext ++ [OList vs]). split; [now rewrite app_assoc|]. intros H Hag.
    rewrite length_app. cbn [length]. rewrite Nat.add_1_r. cbn [to_json].
    rewrite Hag by (rewrite !length_app; cbn [length]; lia).
    rewrite lookup_snoc_new.
    assert (Hm : mapM (to_json (length ext) H) vs = Some l).
    { apply mapM_Some, Hvs. intros a Ha. rewrite Hag.
      - apply lookup_app_l. lia.
      - rewrite !length_app in *. cbn [length]. lia. }
    now rewrite Hm.
  - intros h v h' Hal. rewrite alloc_json_dict in Hal.
    destruct (alloc_fields d h) as [kvs h1] eqn:El. injection Hal as <- <-.
    destruct (alloc_fields_builds d Hd _ _ _ El) as (ext & -> & Hvs).
    exists (ext ++ [ODict kvs]). split; [now rewrite app_assoc|]. intros H Hag.
    rewrite length_app. cbn [length]. rewrite Nat.add_1_r. cbn [to_json].
    rewrite Hag by (rewrite !length_app; cbn [length]; lia).
    rewrite lookup_snoc_new.
    rewrite (fields_written_mapM (length ext) H kvs d); [reflexivity|].
    apply Hvs. intros a Ha. rewrite Hag.
    + apply lookup_app_l. lia.
    + rewrite !length_app in *. cbn [length]. lia.
Qed.

Lemma alloc_fields_written (d : list (pystr * json)) (h : list pyobj)
    (kvs : list (pystr * pyval)) (h1 : list pyobj) :
  alloc_fields d h = (kvs, h1) ->
  exists ext, h1 = h ++ ext
    /\ forall H, agree (length h) (length h1) H h1 -> fields_written (length ext) H kvs d.
Proof.
  apply alloc_fields_builds. apply Forall_forall. intros kv _. apply alloc_json_builds.
Qed.

Lemma fields_written_fuel (fuel fuel' : nat) (H : list pyobj)
    (kvs : list (pystr * pyval)) (d : list (pystr * json)) :
  fields_written fuel H kvs d -> (fuel <= fuel')%nat -> fields_written fuel' H kvs d.
Proof.
  intros Hw Hf. eapply Forall2_impl; [exact Hw|].
  intros kv' kv [Hk Hv]. split; [exact Hk|].
  exact (to_json_more_fuel _ _ _ _ _ Hv Hf).
Qed.

Lemma fields_written_set (fuel : nat) (H : list pyobj)
    (kvs : list (pystr * pyval)) (d : list (pystr * json))
    (k : pystr) (v : pyval) (x : json) :
  fields_written fuel H kvs d -> to_json fuel H v = Some x ->
  fields_written fuel H (dict_set k v kvs) (dict_set k x d).
Proof.
  intros Hw Hv. induction Hw as [|[k1 v1] [k2 x2] kvs d [Hk Hx] Hrest IH]; cbn [dict_set].
  - constructor; [now split | constructor].
  - cbn [fst snd] in *. subst k2. destruct (pystr_eqb k k1).
    + constructor; [now split | exact Hrest].
    + constructor; [now split | exact IH].
Qed.

Lemma fields_written_get (fuel : nat) (H : list pyobj)
    (kvs : list (pystr * pyval)) (d : list (pystr * json)) (k : pystr) (x : json) :
  fields_written fuel H kvs d -> dict_get k d = Some x ->
  exists v, dict_get k kvs = Some v /\ to_json fuel H v = Some x.
Proof.
  intros Hw. induction Hw as [|[k1 v1] [k2 x2] kvs d [Hk Hx] _ IH]; cbn [dict_get].
  - discriminate.
  - cbn [fst snd] in *. subst k2. destruct (pystr_eqb k k1).
    + intros [= <-]. now exists v1.
    + exact IH.
Qed.

Lemma dict_get_set_other {V : Type} (k k' : pystr) (v : V) (d : list (pystr * V)) :
  pystr_eqb k k' = false -> dict_get k (dict_set k' v d) = dict_get k d.
Proof.
  intros Hne. induction d as [|[k1 v1] d IH]; cbn [dict_set dict_get].
  - now rewrite Hne.
  - destruct (pystr_eqb k' k1) eqn:E1; cbn [dict_get].
    + rewrite Hne.
      assert (Hk : pystr_eqb k k1 = false).
      { destruct (pystr_eqb k k1) eqn:E2; [|reflexivity].
        assert (Heq : forall a b, pystr_eqb a b = true -> a = b).
        { induction a as [|c a IHa]; intros [|c' b'] Hab; try discriminate; [reflexivity|].
          cbn in Hab. apply andb_true_iff in Hab as [Hc Hab].
          apply N.eqb_eq in Hc. subst. f_equal. now apply IHa. }
        apply Heq in E1. apply Heq in E2. subst. now rewrite pystr_eqb_refl in Hne. }
      now rewrite Hk.
    + destruct (pystr_eqb k k1); [reflexivity | exact IH].
Qed.

(** The dicts built for an array of objects: each at an address of its
    own, with its fields written as the members of the object in every
    store that differs from this one at the addresses of the dicts
    only. *)
Lemma alloc_records (records : list (list (pystr * json))) :
  forall h vs h1, alloc_list (map JDict records) h = (vs, h1) ->
    exists bs kvss,
      vs = map VRef bs
      /\ h `prefix_of` h1
      /\ Forall (fun b => (length h <= b < length h1)%nat) bs
      /\ NoDup bs
      /\ Forall2 (fun b kvs => h1 !! b = Some (ODict kvs)) bs kvss
      /\ forall H,
           (forall a, (length h <= a < length h1)%nat -> a ∉ bs -> H !! a = h1 !! a) ->
           Forall2 (fields_written (pred (length h1)) H) kvss records.
Proof.
  induction records as [|d records IH]; intros h vs h1 Hal.
  - injection Hal as <- <-. exists [], [].
    repeat split; try constructor; try reflexivity.
  - cbn [map alloc_list] in Hal. rewrite alloc_json_dict in Hal.
    destruct (alloc_fields d h) as [kvs hf] eqn:Ef.
    destruct (alloc_list (map JDict records) (hf ++ [ODict kvs])) as [vs' hb] eqn:El.
    injection Hal as <- <-.
    destruct (alloc_fields_written _ _ _ _ Ef) as (e1 & -> & Hw1).
    destruct (IH _ _ _ El) as (bs & kvss & -> & Hpre & Hrange & Hnd & Hlook & Htrees).
    pose proof (prefix_length _ _ Hpre) as Hlen.
    rewrite !length_app in Hlen. cbn [length] in Hlen.
    assert (Hfresh : length (h ++ e1) ∉ bs).
    { intros Hin. rewrite Forall_forall in Hrange. specialize (Hrange _ Hin).
      rewrite !length_app in Hrange. cbn [length] in Hrange. lia. }
    assert (Hb0 : hb !! length (h ++ e1) = Some (ODict kvs)).
    { apply (prefix_lookup_Some _ _ _ _ (lookup_snoc_new _ _) Hpre). }
    exists (length (h ++ e1) :: bs), (kvs :: kvss).
    split; [reflexivity|]. split; [|split; [|split; [|split]]].
    + transitivity ((h ++ e1) ++ [ODict kvs]); [|exact Hpre].
      rewrite <- app_assoc. now apply prefix_app_r.
    + constructor.
      * rewrite !length_app. lia.
      * eapply Forall_impl; [exact Hrange|]. intros b Hb. cbv beta in *.
        rewrite !length_app in Hb. cbn [length] in Hb. lia.
    + now constructor.
    + now constructor.
    + intros H Hag. constructor.
      * apply (fields_written_fuel (length e1)); [|lia].
        apply Hw1. intros a Ha. rewrite Hag.
        -- destruct ((h ++ e1) !! a) as [o|] eqn:Eo.
           ++ apply (prefix_lookup_Some _ hb) in Eo; [exact Eo|].
              transitivity ((h ++ e1) ++ [ODict kvs]); [now apply prefix_app_r | exact Hpre].
           ++ apply lookup_ge_None in Eo. lia.
        -- rewrite !length_app in *. lia.
        -- intros Hin. apply elem_of_cons in Hin as [Heq|Hin]; [lia|].
           rewrite Forall_forall in Hrange. specialize (Hrange _ Hin).
           rewrite !length_app in Hrange. cbn [length] in Hrange.
           rewrite length_app in Ha. lia.
      * apply Htrees. intros a Ha Hnin. apply Hag.
        -- rewrite !length_app in Ha. cbn [length] in Ha. lia.
        -- intros Hin. apply elem_of_cons in Hin as [Heq|Hin]; [|contradiction].
           rewrite !length_app in Ha. cbn [length] in Ha.
           rewrite length_app in Heq. lia.
Qed.

(** The stamping loop of lines 80-81 over dicts at distinct addresses:
    each gets its [category], and nothing else changes. *)
Lemma stamp_loop_run (c : pystr) (bs : list nat) :
  NoDup bs ->
  forall kvss w,
    Forall2 (fun b kvs => heap w !! b = Some (ODict kvs)) bs kvss ->
    exists h',
      for_each (map VRef bs) (fun q => py_setitem q key_category (VStr c)) w
      = (Ok tt, {| heap := h'; trace := trace w |})
      /\ length h' = length (heap w)
      /\ (forall a, a ∉ bs -> h' !! a = heap w !! a)
      /\ Forall2 (fun b kvs =>
                    h' !! b = Some (ODict (dict_set key_category (VStr c) kvs))) bs kvss.
Proof.
  induction 1 as [|b bs Hnin Hnd IH]; intros kvss w HF.
  - inversion HF; subst. exists (heap w). destruct w.
    repeat split; try constructor; reflexivity.
  - inversion HF as [|? kvs ? kvss' Hb HF']; subst. cbn [map for_each].
    assert (Hlt : (b < length (heap w))%nat) by (eapply lookup_lt_Some; eauto).
    assert (Hset : py_setitem (VRef b) key_category (VStr c) w
                   = (Ok tt, {| heap := <[b := ODict (dict_set key_category (VStr c) kvs)]>
                                          (heap w);
                                trace := trace w |})).
    { unfold py_setitem, bind, deref, store. now rewrite Hb. }
    rewrite (bind_Ok _ _ _ _ _ Hset).
    destruct (IH kvss' {| heap := <[b := ODict (dict_set key_category (VStr c) kvs)]>
                                    (heap w);
                          trace := trace w |}) as (h' & Hrun & Hlen & Hother & Hst).
    { cbn [heap]. clear -HF' Hnin.
      induction HF' as [|b' kvs' bs kvss' Hb' _ IH']; constructor.
      - rewrite list_lookup_insert_ne; [exact Hb'|].
        intros ->. apply Hnin. now left.
      - apply IH'. intros Hin. apply Hnin. now right. }
    cbn [heap trace] in *.
    exists h'. split; [exact Hrun|]. split; [|split].
    + rewrite Hlen. apply length_insert.
    + intros a Ha. apply not_elem_of_cons in Ha as [Hne Ha].
      rewrite (Hother a Ha). now apply list_lookup_insert_ne.
    + constructor; [|exact Hst].
      rewrite (Hother b Hnin). now apply list_lookup_insert_eq.
Qed.

(** ** What [generate_questions] returns for an array of objects *)

Lemma to_json_str (fuel : nat) (h : list pyobj) (s : pystr) :
  to_json fuel h (VStr s) = Some (JStr s).
Proof. now destruct fuel. Qed.

Lemma Forall2_chain {X Y Z X' Z' : Type} (A : X -> Y -> Prop) (B : Y -> Z -> Prop)
    (C : X' -> Z' -> Prop) (f : X -> X') (g : Z -> Z') :
  (forall x y z, A x y -> B y z -> C (f x) (g z)) ->
  forall xs ys zs, Forall2 A xs ys -> Forall2 B ys zs -> Forall2 C (map f xs) (map g zs).
Proof.
  intros HC xs ys zs HA. revert zs.
  induction HA as [|x y xs ys Hxy _ IH]; intros zs HB; inversion HB; subst; cbn [map].
  - constructor.
  - constructor; [eapply HC; eauto | now apply IH].
Qed.

(** The run of the [try] of lines 63-83 on a completion that decodes to
    an array of objects, and the store it leaves. *)
Lemma generate_try_records (E : env) (category prompt text : pystr)
    (rest : list chat_choice) (records : list (list (pystr * json))) (w : world) :
  chat_completions_create E (trace w) (chat_request_of prompt)
    = Ok {| choices := {| message_content := Some text |} :: rest |} ->
  json_loads (clean_content text) = Some (JList (map JDict records)) ->
  exists a bs kvss h',
    generate_try E category prompt w
    = (Ok (VRef a),
       {| heap := h'; trace := trace w ++ [EvCreate (chat_request_of prompt)] |})
    /\ length h' = S a
    /\ h' !! a = Some (OList (map VRef bs))
    /\ Forall2 (fun b kvs =>
                  h' !! b = Some (ODict (dict_set key_category (VStr category) kvs)))
               bs kvss
    /\ Forall2 (fields_written (pred a) h') kvss records.
Proof.
  intros Hc Hj.
  destruct (alloc_list (map JDict records) (heap w)) as [vs h1] eqn:El.
  destruct (alloc_records records _ _ _ El)
    as (bs & kvss & -> & Hpre & Hrange & Hnd & Hlook & Htrees).
  set (w1 := {| heap := h1 ++ [OList (map VRef bs)];
                trace := trace w ++ [EvCreate (chat_request_of prompt)] |}).
  destruct (stamp_loop_run category bs Hnd kvss w1) as (h' & Hrun & Hlen & Hother & Hst).
  { cbn [heap w1]. eapply Forall2_impl; [exact Hlook|].
    intros b kvs Hb. now apply lookup_app_l_Some. }
  cbn [heap trace w1] in *.
  assert (Hfresh : length h1 ∉ bs).
  { intros Hin. rewrite Forall_forall in Hrange. specialize (Hrange _ Hin). lia. }
  exists (length h1), bs, kvss, h'. split; [|split; [|split; [|split]]].
  - rewrite generate_try_unfold. unfold bind at 1. unfold create. rewrite Hc.
    cbn [choices message_content]. unfold bind at 1. unfold ret at 1.
    unfold bind at 1. unfold py_json_loads. rewrite Hj. cbn [heap trace].
    rewrite alloc_json_list, El. fold w1.
    assert (Hiter : py_iter (VRef (length h1)) w1 = (Ok (map VRef bs), w1)).
    { unfold py_iter, bind, deref. cbn [heap w1]. now rewrite lookup_snoc_new. }
    rewrite (bind_Ok _ _ _ _ _ Hiter), (bind_Ok _ _ _ _ _ Hrun). reflexivity.
  - rewrite Hlen, length_app. cbn [length]. lia.
  - rewrite (Hother _ Hfresh). apply lookup_snoc_new.
  - exact Hst.
  - apply Htrees. intros a Ha Hnin. rewrite (Hother a Hnin). apply lookup_app_l. lia.
Qed.

(** X9. When the completion is (after the cleaning of line 76) the text
    of a JSON array of objects, [generate_questions] returns a list with
    one dict for each object, in the order of the array: written out by
    [json.dumps], each is the decoded object with [category] set to the
    argument (in place when the model gave the key, as a last key
    otherwise) and every other member as the model gave it. *)
Theorem generate_questions_keeps_fields (E : env) (self : QuestionGenerator)
    (category : pystr) (n m : Z) (text : pystr) (rest : list chat_choice)
    (records : list (list (pystr * json))) (w : world) :
  let prompt := prompt_text category (Z.max 1 (Z.min 10 n)) (Z.max 3 (Z.min 5 m)) in
  chat_completions_create E (trace w) (chat_request_of prompt)
    = Ok {| choices := {| message_content := Some text |} :: rest |} ->
  json_loads (clean_content text) = Some (JList (map JDict records)) ->
  exists a w',
    generate_questions E self category n m w = (Ok (VRef a), w')
    /\ json_dumps (VRef a) w'
       = (Ok (JList (map (stamp_record category) records)), w').
Proof.
  intros prompt Hc Hj.
  destruct (generate_try_records E category prompt text rest records w Hc Hj)
    as (a & bs & kvss & h' & Hrun & Hlen & Hlist & Hst & Hw).
  pose proof (generate_questions_cases E self category n m w) as Hcases.
  cbv zeta in Hcases. fold prompt in Hcases. rewrite Hrun in Hcases.
  eexists _, _. split; [exact Hcases|].
  unfold json_dumps, bind, get_heap. cbn [heap]. rewrite Hlen. cbn [to_json].
  rewrite Hlist.
  assert (Helem : forall b kvs d,
             h' !! b = Some (ODict (dict_set key_category (VStr category) kvs)) ->
             fields_written (pred a) h' kvs d ->
             to_json a h' (VRef b) = Some (stamp_record category d)).
  { intros b kvs d Hb Hd. destruct a as [|a'].
    - assert (b = 0%nat) by (apply lookup_lt_Some in Hb; lia).
      subst b. congruence.
    - cbn [to_json pred] in *. rewrite Hb. unfold stamp_record.
      rewrite (fields_written_mapM a' h' _ (dict_set key_category (JStr category) d));
        [reflexivity|].
      apply fields_written_set; [exact Hd | apply to_json_str]. }
  assert (Hm : mapM (to_json a h') (map VRef bs)
               = Some (map (stamp_record category) records)).
  { apply mapM_Some. eapply Forall2_chain; [|exact Hst|exact Hw]. exact Helem. }
  now rewrite Hm.
Qed.

Lemma generate_questions_keeps_fields_witness :
  exists a w',
    generate_questions (env_two_records (Raise (ConnectionError []))) main_generator
      (lit "Science") 5 3 initial_world = (Ok (VRef a), w')
    /\ json_dumps (VRef a) w'
       = (Ok (JList (map (stamp_record (lit "Science")) two_records)), w').
Proof.
  apply (generate_questions_keeps_fields (env_two_records (Raise (ConnectionError [])))
           main_generator (lit "Science") 5 3 two_records_text [] two_records
           initial_world).
  - reflexivity.
  - vm_compute. reflexivity.
Defined.

(** ** From the completion to the upload *)

Lemma Forall2_compose {X Y Z : Type} (A : X -> Y -> Prop) (B : Y -> Z -> Prop)
    (xs : list X) (ys : list Y) (zs : list Z) :
  Forall2 A xs ys -> Forall2 B ys zs ->
  Forall2 (fun x z => exists y, A x y /\ B y z) xs zs.
Proof.
  intros HA. revert zs.
  induction HA as [|x y xs ys Hxy _ IH]; intros zs HB; inversion HB; subst.
  - constructor.
  - constructor; [now exists y | now apply IH].
Qed.

(** A stamped dict of the store as [upload_questions] reads it. *)
Lemma stamped_record_json (h' : list pyobj) (b : nat) (kvs : list (pystr * pyval))
    (d : list (pystr * json)) (c : pystr) (fuel : nat) (j : json) :
  h' !! b = Some (ODict (dict_set key_category (VStr c) kvs)) ->
  fields_written fuel h' kvs d -> (fuel <= length h')%nat ->
  uploaded_record c d = Some j ->
  record_json h' (VRef b) = Some j.
Proof.
  intros Hb Hw Hf. unfold uploaded_record.
  destruct (dict_get key_text d) as [jt|] eqn:Et; [|discriminate].
  destruct (dict_get key_answer d) as [ja|] eqn:Ea; [|discriminate].
  destruct (dict_get key_filler_answers d) as [jf|] eqn:Ef; [|discriminate].
  intros [= <-].
  destruct (fields_written_get _ _ _ _ _ _ Hw Et) as (vt & Hvt & Jt).
  destruct (fields_written_get _ _ _ _ _ _ Hw Ea) as (va & Hva & Ja).
  destruct (fields_written_get _ _ _ _ _ _ Hw Ef) as (vf & Hvf & Jf).
  unfold record_json, record_fields. rewrite Hb.
  rewrite (dict_get_set_other key_text key_category) by reflexivity. rewrite Hvt.
  rewrite (dict_get_set_other key_answer key_category) by reflexivity. rewrite Hva.
  rewrite dict_get_set_same.
  rewrite (dict_get_set_other key_filler_answers key_category) by reflexivity.
  rewrite Hvf.
  rewrite (to_json_more_fuel _ _ _ _ _ Jt Hf), (to_json_more_fuel _ _ _ _ _ Ja Hf),
          (to_json_more_fuel _ _ _ _ _ Jf Hf), to_json_str.
  reflexivity.
Qed.

(** One turn of the driver's loop on a completion that decodes to a
    non-empty array of records with the keys that are read. *)
Lemma process_category_run (E : env) (generator : QuestionGenerator)
    (category text : pystr) (rest : list chat_choice)
    (records : list (list (pystr * json))) (bodies : list json) (w : world) :
  chat_completions_create E (trace w) (category_request category)
    = Ok {| choices := {| message_content := Some text |} :: rest |} ->
  json_loads (clean_content text) = Some (JList (map JDict records)) ->
  records <> [] ->
  mapM (uploaded_record category) records = Some bodies ->
  let t1 := trace w ++ [EvCreate (category_request category)] in
  exists h'',
    process_category E generator category w
    = (match upload_outcome E t1 (upload_request generator bodies) with
       | Ok _ => Ok tt
       | Raise e => Raise e
       end,
       {| heap := h''; trace := t1 ++ [EvPost (upload_request generator bodies)] |}).
Proof.
  intros Hc Hj Hne Hb t1.
  destruct (generate_try_records E category (prompt_text category QUESTIONS_PER_CATEGORY 3)
              text rest records w Hc Hj)
    as (a & bs & kvss & h' & Hrun & Hlen & Hlist & Hst & Hw).
  pose proof (generate_questions_cases E generator category QUESTIONS_PER_CATEGORY 3 w)
    as Hcases.
  cbv zeta in Hcases.
  change (prompt_text category (Z.max 1 (Z.min 10 QUESTIONS_PER_CATEGORY))
            (Z.max 3 (Z.min 5 3)))
    with (prompt_text category QUESTIONS_PER_CATEGORY 3) in Hcases.
  rewrite Hrun in Hcases. fold (category_request category) in Hcases. fold t1 in Hcases.
  set (w' := {| heap := h'; trace := t1 |}) in *.
  assert (Hbs : bs <> []).
  { intros ->. inversion Hst; subst. inversion Hw; subst. contradiction. }
  assert (Hmap : mapM (record_json (heap w')) (map VRef bs) = Some bodies).
  { apply mapM_Some. apply mapM_Some in Hb.
    pose proof (Forall2_compose _ _ _ _ _ Hst Hw) as H1.
    rewrite <- (map_id bodies).
    eapply Forall2_chain; [|exact H1|exact Hb].
    intros b d j (kvs & Hlook & Hfw) Hu. cbn [heap w'].
    apply (stamped_record_json h' b kvs d category (pred a) j Hlook Hfw); [lia | exact Hu]. }
  destruct (upload_questions_run E generator w' a (map VRef bs) bodies Hlist
              ltac:(now destruct bs) Hmap) as [h'' Hup].
  exists h''. unfold process_category.
  rewrite (bind_Ok _ _ _ _ _ Hcases).
  assert (Htruthy : truthy (VRef a) w' = (Ok true, w')).
  { unfold truthy, bind, deref. cbn [heap w']. rewrite Hlist. now destruct bs. }
  rewrite (bind_Ok _ _ _ _ _ Htruthy). cbn [negb]. unfold bind. rewrite Hup.
  cbn [trace w'].
  now destruct (upload_outcome E t1 (upload_request generator bodies)).
Qed.

Lemma settles_outcome (E : env) (t : list event) (request : http_request) :
  settles E (requests_post E t request) ->
  exists b, upload_outcome E t request = Ok b.
Proof.
  unfold settles, upload_outcome, upload_handled.
  destruct (requests_post E t request) as [response|e].
  - intros Hs.
    destruct ((400 <=? status_code response)%Z && (status_code response <? 600)%Z)
      eqn:Hr; [|eauto].
    apply andb_true_iff in Hr as [H1 H2].
    apply Z.leb_le in H1. apply Z.ltb_lt in H2.
    rewrite (Hs (conj H1 H2)). eauto.
  - intros [-> ->]. eauto.
Qed.



(** ** The driver *)

Lemma generate_try_no_questions (E : env) (category prompt : pystr) (w : world) :
  no_questions E (chat_completions_create E (trace w) (chat_request_of prompt)) ->
  exists e,
    generate_try E category prompt w
    = (Raise e,
       {| heap := heap w; trace := trace w ++ [EvCreate (chat_request_of prompt)] |})
    /\ generate_log_ok E (content_bound E prompt w) e = true.
Proof.
  unfold no_questions, content_bound, generate_try, generate_content, bind, create.
  destruct (chat_completions_create E (trace w) (chat_request_of prompt))
    as [response|e].
  - destruct (choices response) as [|c cs].
    { intros _. exists IndexError. split; reflexivity. }
    destruct (message_content c) as [s|].
    + intros [Hj Hp]. exists JSONDecodeError.
      unfold ret, generate_decode, bind, py_json_loads. rewrite Hj.
      split; [reflexivity | exact Hp].
    + intros _. exists AttributeError. split; reflexivity.
  - intros Hp. exists e. split; [reflexivity|].
    unfold generate_log_ok. destruct (is_JSONDecodeError e); [reflexivity | exact Hp].
Qed.

(** A turn of the loop without questions: the category is skipped. *)
Lemma process_category_skips (E : env) (generator : QuestionGenerator)
    (category : pystr) (w : world) :
  no_questions E (chat_completions_create E (trace w) (category_request category)) ->
  process_category E generator category w
  = (Ok tt, {| heap := heap w ++ [OList []];
               trace := trace w ++ [EvCreate (category_request category)] |}).
Proof.
  intros Hno.
  destruct (generate_try_no_questions E category _ w Hno) as (e & Hrun & Hlog).
  pose proof (generate_questions_cases E generator category QUESTIONS_PER_CATEGORY 3 w)
    as Hcases.
  cbv zeta in Hcases.
  change (prompt_text category (Z.max 1 (Z.min 10 QUESTIONS_PER_CATEGORY))
            (Z.max 3 (Z.min 5 3)))
    with (prompt_text category QUESTIONS_PER_CATEGORY 3) in Hcases.
  rewrite Hrun in Hcases. unfold generate_handled in Hcases.
  rewrite Hlog in Hcases. cbn [heap trace] in Hcases.
  fold (category_request category) in Hcases.
  unfold process_category. rewrite (bind_Ok _ _ _ _ _ Hcases).
  unfold truthy, bind, deref. cbn [heap]. now rewrite lookup_snoc_new.
Qed.

Lemma for_each_skips (E : env) (generator : QuestionGenerator) (categories : list pystr) :
  (forall t r, no_questions E (chat_completions_create E t r)) ->
  forall w,
    for_each categories (process_category E generator) w
    = (Ok tt, {| heap := heap w ++ repeat (OList []) (length categories);
                 trace := trace w
                          ++ map (fun c => EvCreate (category_request c)) categories |}).
Proof.
  intros Hno. induction categories as [|c categories IH]; intros w.
  - cbn. rewrite !app_nil_r. now destruct w.
  - cbn [for_each].
    rewrite (bind_Ok _ _ _ _ _ (process_category_skips E generator c w (Hno _ _))).
    rewrite IH. cbn [heap trace length repeat map]. now rewrite <- !app_assoc.
Qed.

(** X11. When no completion yields questions (each call to the service
    raises, or answers without a choice, with a content that is [None], or
    with a text that is not JSON after cleaning) and the standard output
    can write what the handlers of lines 85-91 then log (the message of
    the exception that the service raised, the cleaned text that is not
    JSON), [main] asks for every category, in the order of [CATEGORIES],
    makes no POST, and returns normally. *)
Theorem main_without_questions (E : env) (w : world) :
  (forall t r, no_questions E (chat_completions_create E t r)) ->
  fst (main E w) = Ok tt
  /\ trace (snd (main E w))
     = trace w ++ map (fun c => EvCreate (category_request c)) CATEGORIES.
Proof.
  intros Hno. unfold main. now rewrite (for_each_skips E _ CATEGORIES Hno w).
Qed.

Lemma main_without_questions_witness :
  fst (main env_sorry initial_world) = Ok tt
  /\ trace (snd (main env_sorry initial_world))
     = trace initial_world ++ map (fun c => EvCreate (category_request c)) CATEGORIES.
Proof.
  apply (main_without_questions env_sorry initial_world).
  intros t r. split; vm_compute; reflexivity.
Defined.

(** The calls of one turn, whatever the services answer. *)
Lemma process_category_turn (E : env) (generator : QuestionGenerator)
    (category : pystr) (w : world) :
  exists turn,
    trace (snd (process_category E generator category w)) = trace w ++ turn
    /\ turn_of generator category turn.
Proof.
  unfold process_category.
  pose proof (generate_questions_trace E generator category QUESTIONS_PER_CATEGORY 3 w) as Ht.
  change (prompt_text category (Z.max 1 (Z.min 10 QUESTIONS_PER_CATEGORY))
            (Z.max 3 (Z.min 5 3)))
    with (prompt_text category QUESTIONS_PER_CATEGORY 3) in Ht.
  fold (category_request category) in Ht.
  destruct (generate_questions E generator category QUESTIONS_PER_CATEGORY 3 w)
    as [[v|e] w1] eqn:Hg; cbn [snd] in Ht.
  2: { rewrite (bind_Raise _ _ _ _ _ Hg).
       exists [EvCreate (category_request category)]. split; [exact Ht | now left]. }
  rewrite (bind_Ok _ _ _ _ _ Hg).
  pose proof (truthy_pure v w1) as Hp.
  unfold bind at 1. destruct (truthy v w1) as [[nonempty|e] w2]; cbn [snd] in Hp; subst w2.
  - destruct (negb nonempty).
    + exists [EvCreate (category_request category)]. split; [exact Ht | now left].
    + unfold bind.
      pose proof (upload_questions_shape E generator v w1) as Hs.
      destruct (upload_questions E generator v w1) as [r w3].
      assert (Hw3 : trace w3 = trace w1
                    \/ exists body, trace w3 = trace w1 ++ [EvPost (post_request generator body)]).
      { destruct Hs as [Hs|[[Hs _]|[body [_ Hs]]]];
          [left; congruence | now left | right; now exists body]. }
      assert (Hsnd : trace (snd (match r with
                                 | Ok _ => (Ok tt, w3)
                                 | Raise e => (@Raise unit e, w3)
                                 end)) = trace w3) by now destruct r.
      destruct r as [b|e]; cbn [snd ret] in *.
      * destruct Hw3 as [Hw3|[body Hw3]].
        -- exists [EvCreate (category_request category)]. rewrite Hw3. split; [exact Ht | now left].
        -- exists [EvCreate (category_request category); EvPost (post_request generator body)].
           rewrite Hw3, Ht. split; [now rewrite <- app_assoc | right; now exists body].
      * destruct Hw3 as [Hw3|[body Hw3]].
        -- exists [EvCreate (category_request category)]. rewrite Hw3. split; [exact Ht | now left].
        -- exists [EvCreate (category_request category); EvPost (post_request generator body)].
           rewrite Hw3, Ht. split; [now rewrite <- app_assoc | right; now exists body].
  - exists [EvCreate (category_request category)]. split; [exact Ht | now left].
Qed.

Lemma for_each_turns (E : env) (generator : QuestionGenerator) (categories : list pystr) :
  forall w,
    exists turns,
      trace (snd (for_each categories (process_category E generator) w))
      = trace w ++ concat turns
      /\ Forall2 (turn_of generator) (take (length turns) categories) turns
      /\ (fst (for_each categories (process_category E generator) w) = Ok tt ->
          length turns = length categories).
Proof.
  induction categories as [|c categories IH]; intros w.
  - exists []. cbn. rewrite app_nil_r. repeat split. constructor.
  - cbn [for_each]. unfold bind.
    destruct (process_category_turn E generator c w) as (turn & Ht & Hturn).
    destruct (process_category E generator c w) as [[[]|e] w1]; cbn [snd] in Ht.
    + destruct (IH w1) as (turns & Hts & HF & Hlen).
      exists (turn :: turns). cbn [concat length take]. split; [|split].
      * rewrite Hts, Ht. now rewrite <- app_assoc.
      * now constructor.
      * intros Hok. now rewrite (Hlen Hok).
    + exists [turn]. cbn [concat length take fst snd]. split; [|split].
      * now rewrite app_nil_r.
      * rewrite take_0. constructor; [exact Hturn | constructor].
      * discriminate.
Qed.

(** X12. Whatever the two services answer, the calls [main] makes are,
    category by category in the order of [CATEGORIES], one completion
    request for the category (for 5 questions with 3 fillers) followed by
    at most one POST to [API_URL] with the default header and a timeout of
    30; a category is asked for only after the turns of the categories
    before it, and when [main] returns every category was asked for. *)
Theorem main_events (E : env) (w : world) :
  exists turns,
    trace (snd (main E w)) = trace w ++ concat turns
    /\ Forall2 (turn_of main_generator) (take (length turns) CATEGORIES) turns
    /\ (fst (main E w) = Ok tt -> length turns = length CATEGORIES).
Proof. apply for_each_turns. Qed.

Lemma good_questions_bodies (category : pystr) (records : list (list (pystr * json))) :
  records <> [] ->
  Forall (fun d => dict_get key_text d <> None /\ dict_get key_answer d <> None
                   /\ dict_get key_filler_answers d <> None) records ->
  exists bodies, bodies <> [] /\ mapM (uploaded_record category) records = Some bodies.
Proof.
  intros Hne HF.
  assert (H : exists bodies, Forall2 (fun d j => uploaded_record category d = Some j)
                               records bodies).
  { clear Hne. induction HF as [|d records (Ht & Ha & Hf) _ [bodies IH]];
      [now exists []|].
    destruct (dict_get key_text d) as [jt|] eqn:Et; [|contradiction].
    destruct (dict_get key_answer d) as [ja|] eqn:Ea; [|contradiction].
    destruct (dict_get key_filler_answers d) as [jf|] eqn:Ef; [|contradiction].
    eexists (_ :: bodies).
    constructor; [unfold uploaded_record; rewrite Et, Ea, Ef; reflexivity | exact IH]. }
  destruct H as [bodies H]. exists bodies. split.
  - intros ->. inversion H; subst. contradiction.
  - now apply mapM_Some.
Qed.

Lemma for_each_uploads (E : env) (generator : QuestionGenerator) (categories : list pystr) :
  (forall t r, good_questions (chat_completions_create E t r)) ->
  (forall t r, settles E (requests_post E t r)) ->
  forall w,
    exists turns,
      fst (for_each categories (process_category E generator) w) = Ok tt
      /\ trace (snd (for_each categories (process_category E generator) w))
         = trace w ++ concat turns
      /\ uploading_turns E generator (trace w) categories turns.
Proof.
  intros Hgood Hset. induction categories as [|c categories IH]; intros w.
  - exists []. cbn. rewrite app_nil_r. repeat split.
  - destruct (Hgood (trace w) (category_request c))
      as (s & rest & records & Hc & Hj & Hne & HF).
    destruct (good_questions_bodies c records Hne HF) as (bodies & Hbne & Hb).
    destruct (process_category_run E generator c s rest records bodies w Hc Hj Hne Hb)
      as [h'' Hrun].
    cbv zeta in Hrun.
    destruct (settles_outcome E (trace w ++ [EvCreate (category_request c)])
                (upload_request generator bodies) (Hset _ _)) as [b Hout].
    rewrite Hout in Hrun.
    cbn [for_each]. rewrite (bind_Ok _ _ _ _ _ Hrun).
    destruct (IH {| heap := h'';
                    trace := (trace w ++ [EvCreate (category_request c)])
                             ++ [EvPost (upload_request generator bodies)] |})
      as (turns & Hok & Hts & HF2).
    cbn [trace] in Hts, HF2.
    exists ([EvCreate (category_request c); EvPost (upload_request generator bodies)]
            :: turns).
    split; [exact Hok|]. split.
    + rewrite Hts. cbn [concat app]. now rewrite <- !app_assoc.
    + cbn [uploading_turns]. split.
      * exists s, rest, records, bodies. repeat split; assumption.
      * rewrite <- app_assoc in HF2. exact HF2.
Qed.

(** X13. A failed upload does not stop the driver.  When every
    completion decodes to a non-empty array of records with a [text], an
    [answer] and [filler_answers], and every POST completes or fails with
    an exception of the requests library, and the standard output can
    write the log lines of the handler of line 134 for each POST that
    fails or completes with a status from 400 to 599, then [main] returns
    normally, and its calls are, for each category in the order of
    [CATEGORIES], the completion request for the category and then one
    POST whose body holds the records that this completion decodes to,
    each reshaped to its [text], its [answer], the category of the turn
    and its [filler_answers]. *)
Theorem main_uploads_every_category (E : env) (w : world) :
  (forall t r, good_questions (chat_completions_create E t r)) ->
  (forall t r, settles E (requests_post E t r)) ->
  exists turns,
    fst (main E w) = Ok tt
    /\ trace (snd (main E w)) = trace w ++ concat turns
    /\ uploading_turns E main_generator (trace w) CATEGORIES turns.
Proof. intros Hgood Hset. now apply for_each_uploads. Qed.

Lemma main_uploads_every_category_witness :
  exists turns,
    fst (main (env_two_records (Raise (Timeout []))) initial_world) = Ok tt
    /\ trace (snd (main (env_two_records (Raise (Timeout []))) initial_world))
       = trace initial_world ++ concat turns
    /\ uploading_turns (env_two_records (Raise (Timeout []))) main_generator
         (trace initial_world) CATEGORIES turns.
Proof.
  apply (main_uploads_every_category (env_two_records (Raise (Timeout []))) initial_world).
  - intros t r. exists two_records_text, [], two_records.
    split; [reflexivity|]. split; [vm_compute; reflexivity|].
    split; [discriminate|].
    constructor; [|constructor; [|constructor]];
      (split; [|split]); vm_compute; discriminate.
  - intros t r. split; reflexivity.
Defined.

(** X14. No exception of the requests library ends [main]: whatever the
    services answer, an exception that leaves the driver is none of
    [HTTPError], a connection error, a timeout or another
    [RequestException]. *)
Theorem main_raises (E : env) (w : world) (e : exn) :
  fst (main E w) = Raise e -> is_RequestException e = false.
Proof.
  unfold main. generalize (QuestionGenerator_init API_URL None). intros generator.
  revert w. induction CATEGORIES as [|c categories IH]; intros w; [discriminate|].
  cbn [for_each]. unfold bind at 1.
  destruct (process_category E generator c w) as [[[]|e'] w1] eqn:Hp; [apply IH|].
  cbn [fst]. intros [= <-]. revert Hp. unfold process_category.
  destruct (generate_questions_ends E generator c QUESTIONS_PER_CATEGORY 3 w)
    as [[v Hv]|Hv];
    destruct (generate_questions E generator c QUESTIONS_PER_CATEGORY 3 w) as [r w2] eqn:Hg;
    cbn [fst] in Hv; subst r.
  2: { rewrite (bind_Raise _ _ _ _ _ Hg). now intros [= <- _]. }
  rewrite (bind_Ok _ _ _ _ _ Hg).
  unfold bind at 1.
  pose proof (quiet_truthy (trace w2) v w2 eq_refl) as [_ Hq].
  destruct (truthy v w2) as [[nonempty|e0] w3].
  - destruct (negb nonempty); [discriminate|]. unfold bind.
    pose proof (upload_questions_shape E generator v w3) as Hs.
    destruct (upload_questions E generator v w3) as [[b|e1] w4]; [discriminate|].
    intros [= -> _].
    destruct Hs as [Hs|[[_ (e2 & Hf & He2)]|[body [Hr _]]]]; cbn [fst] in *.
    + discriminate.
    + now injection Hf as ->.
    + unfold upload_outcome, upload_handled in Hr.
      destruct (requests_post E (trace w3) (post_request generator body)) as [response|e2].
      * destruct (_ && _); [|discriminate].
        destruct (upload_log_ok E _); [discriminate|]. now injection Hr as ->.
      * destruct (is_RequestException e2) eqn:He2.
        -- destruct (upload_log_ok E e2); [discriminate|]. now injection Hr as ->.
        -- now injection Hr as ->.
  - intros [= -> _]. now apply Hq.
Qed.

Lemma main_raises_witness : is_RequestException (KeyError key_answer) = false.
Proof.
  apply (main_raises env_text_only initial_world (KeyError key_answer)).
  vm_compute. reflexivity.
Defined.

(** ** The store around [generate_questions] *)

Lemma alloc_list_extends (l : list json) (h : list pyobj) (vs : list pyval)
    (h1 : list pyobj) :
  alloc_list l h = (vs, h1) -> h `prefix_of` h1.
Proof.
  intros Hal.
  destruct (alloc_list_builds l) with (h := h) (vs := vs) (h1 := h1) as (ext & -> & _).
  - apply Forall_forall. intros x _. apply alloc_json_builds.
  - exact Hal.
  - now apply prefix_app_r.
Qed.

Lemma alloc_json_new (j : json) (h : list pyobj) (v : pyval) (h' : list pyobj) :
  alloc_json j h = (v, h') -> h `prefix_of` h' /\ new_value h v.
Proof.
  intros Hal. split.
  - destruct (alloc_json_builds j h v h' Hal) as (ext & -> & _). now apply prefix_app_r.
  - destruct j as [|b|z|f|s|l|d]; try (injection Hal as <- _; exact I).
    + rewrite alloc_json_list in Hal. destruct (alloc_list l h) as [vs h1] eqn:El.
      injection Hal as <- _. cbn. apply prefix_length. now apply alloc_list_extends in El.
    + rewrite alloc_json_dict in Hal. destruct (alloc_fields d h) as [kvs h1] eqn:El.
      injection Hal as <- _. cbn. apply prefix_length.
      destruct (alloc_fields_written _ _ _ _ El) as (ext & -> & _). now apply prefix_app_r.
Qed.

Lemma new_value_mono (h h' : list pyobj) (v : pyval) :
  h `prefix_of` h' -> new_value h' v -> new_value h v.
Proof.
  intros Hpre. destruct v; try trivial. cbn. apply prefix_length in Hpre. lia.
Qed.

Lemma alloc_list_new (l : list json) :
  forall h vs h1, alloc_list l h = (vs, h1) -> Forall (new_value h) vs.
Proof.
  induction l as [|x l IH]; intros h vs h1 Hal; cbn [alloc_list] in Hal.
  - injection Hal as <- _. constructor.
  - destruct (alloc_json x h) as [v ha] eqn:Ex.
    destruct (alloc_list l ha) as [vs' hb] eqn:El. injection Hal as <- _.
    destruct (alloc_json_new _ _ _ _ Ex) as [Hpre Hv].
    constructor; [exact Hv|].
    eapply Forall_impl; [exact (IH _ _ _ El)|].
    intros v'. now apply new_value_mono.
Qed.

Lemma keeps_setitem_new (h0 : list pyobj) (q : pyval) (k : pystr) (v : pyval) :
  new_value h0 q -> keeps (extends_heap h0) (py_setitem q k v) any.
Proof.
  destruct q; try (intros _; apply keeps_raise). cbn. intros Ha.
  eapply keeps_bind; [apply pure_read_keeps, deref_pure|].
  intros [items|d] _; [apply keeps_raise | now apply keeps_store_new].
Qed.

Lemma keeps_stamp_new (h0 : list pyobj) (c : pystr) (qs : list pyval) :
  Forall (new_value h0) qs ->
  keeps (extends_heap h0)
        (for_each qs (fun q => py_setitem q key_category (VStr c))) any.
Proof.
  induction 1 as [|q qs Hq _ IH]; cbn [for_each].
  - now apply keeps_ret.
  - eapply keeps_bind; [now apply keeps_setitem_new|]. intros _ _. exact IH.
Qed.

(** What the loop of lines 80-81 visits are new values. *)
Lemma iter_of_new (j : json) (h : list pyobj) (v : pyval) (h1 : list pyobj)
    (t : list event) (qs : list pyval) (w2 : world) :
  alloc_json j h = (v, h1) ->
  py_iter v {| heap := h1; trace := t |} = (Ok qs, w2) ->
  Forall (new_value h) qs.
Proof.
  intros Hal. destruct j as [|b|z|f|s|l|d]; try (injection Hal as <- <-; discriminate).
  - injection Hal as <- <-. cbn. intros [= <- _].
    apply Forall_forall. intros x Hx. apply list_elem_of_In, in_map_iff in Hx.
    destruct Hx as (c & <- & _). exact I.
  - rewrite alloc_json_list in Hal. destruct (alloc_list l h) as [vs hl] eqn:El.
    injection Hal as <- <-. unfold py_iter, bind, deref. cbn [heap].
    rewrite lookup_snoc_new. intros [= <- _]. exact (alloc_list_new _ _ _ _ El).
  - rewrite alloc_json_dict in Hal. destruct (alloc_fields d h) as [kvs hd] eqn:El.
    injection Hal as <- <-. unfold py_iter, bind, deref. cbn [heap].
    rewrite lookup_snoc_new. intros [= <- _].
    apply Forall_forall. intros x Hx. apply list_elem_of_In, in_map_iff in Hx.
    destruct Hx as (kv & <- & _). exact I.
Qed.

Lemma generate_try_extends (E : env) (category prompt : pystr) (w : world) :
  extends_heap (heap w) (snd (generate_try E category prompt w))
  /\ forall v, fst (generate_try E category prompt w) = Ok v -> new_value (heap w) v.
Proof.
  set (P := fun r : result pyval * world =>
              extends_heap (heap w) (snd r)
              /\ forall v, fst r = Ok v -> new_value (heap w) v).
  change (P (generate_try E category prompt w)).
  assert (Hraise : forall e w1, heap w `prefix_of` heap w1 -> P (Raise e, w1)).
  { intros e w1 Hpre. split; [exact Hpre|]. cbn [fst]. discriminate. }
  rewrite generate_try_unfold. apply bind_cases.
  { intros e w1 H. unfold create in H. injection H as _ <-. now apply Hraise. }
  intros response w0 H. unfold create in H. injection H as _ <-.
  set (w0 := {| heap := heap w; trace := trace w ++ [EvCreate (chat_request_of prompt)] |}).
  assert (Hcontent : forall r w1,
             match choices response with
             | [] => raise IndexError
             | c :: _ => match message_content c with
                         | Some s => ret s
                         | None => raise AttributeError
                         end
             end w0 = (r, w1) -> w1 = w0).
  { intros r w1. destruct (choices response) as [|c cs]; [|destruct (message_content c)];
      cbv [raise ret]; now intros [= _ <-]. }
  apply bind_cases.
  { intros e w1 H. apply Hcontent in H. subst w1. now apply Hraise. }
  intros s w1 H. apply Hcontent in H. subst w1. clear Hcontent.
  apply bind_cases.
  { intros e w1 H. unfold py_json_loads in H.
    destruct (json_loads (clean_content s)) as [j|].
    - destruct (alloc_json j (heap w0)); discriminate.
    - injection H as _ <-. now apply Hraise. }
  intros v w1 H. unfold py_json_loads in H.
  destruct (json_loads (clean_content s)) as [j|]; [|discriminate].
  cbn [heap trace w0] in H. destruct (alloc_json j (heap w)) as [v' h1] eqn:Hal.
  injection H as <- <-.
  destruct (alloc_json_new _ _ _ _ Hal) as [Hpre Hnew].
  set (w1 := {| heap := h1; trace := trace w ++ [EvCreate (chat_request_of prompt)] |}).
  apply bind_cases.
  { intros e w2 H. pose proof (f_equal snd H) as H'. rewrite py_iter_pure in H'.
    cbn [snd] in H'. subst w2. now apply Hraise. }
  intros qs w2 Hit. pose proof (f_equal snd Hit) as H'. rewrite py_iter_pure in H'.
  cbn [snd] in H'. subst w2.
  pose proof (iter_of_new _ _ _ _ _ _ _ Hal Hit) as Hqs.
  destruct (keeps_stamp_new (heap w) category qs Hqs w1 Hpre) as [Hk _].
  apply bind_cases.
  - intros e w2 H. rewrite H in Hk. now apply Hraise.
  - intros [] w2 H. rewrite H in Hk. split; [exact Hk|].
    cbn [fst ret]. now intros ? [= <-].
Qed.

(** X15. [generate_questions] changes no object that existed before the
    call: the store after it is the store before it with new objects
    behind.  A value that it returns refers to no object that existed
    before (the caller gets a list of its own), and the one exception that
    can leave it is the [UnicodeEncodeError] of a log line of its handlers
    (lines 86, 87 and 90), which the standard output could not write. *)
Theorem generate_questions_leaves_store (E : env) (self : QuestionGenerator)
    (category : pystr) (n m : Z) (w : world) :
  extends_heap (heap w) (snd (generate_questions E self category n m w))
  /\ ((exists v, fst (generate_questions E self category n m w) = Ok v
                 /\ new_value (heap w) v)
      \/ (fst (generate_questions E self category n m w) = Raise UnicodeEncodeError
          /\ exists e,
               fst (generate_try E category
                      (prompt_text category (Z.max 1 (Z.min 10 n)) (Z.max 3 (Z.min 5 m)))
                      w) = Raise e
               /\ generate_log_ok E
                    (content_bound E
                       (prompt_text category (Z.max 1 (Z.min 10 n))
                          (Z.max 3 (Z.min 5 m))) w) e = false)).
Proof.
  pose proof (generate_questions_cases E self category n m w) as Hc. cbv zeta in Hc.
  destruct (generate_try_extends E category
              (prompt_text category (Z.max 1 (Z.min 10 n)) (Z.max 3 (Z.min 5 m))) w)
    as [Hext Hnew].
  destruct (generate_try E category _ w) as [[v|e] w1]; rewrite Hc; cbn [fst snd] in *.
  - split; [exact Hext|]. left. exists v. split; [reflexivity | now apply Hnew].
  - unfold generate_handled.
    destruct (generate_log_ok E _ e) eqn:Hlog; cbn [fst snd].
    + split.
      * unfold extends_heap in *. cbn [heap]. now apply prefix_app_r.
      * left. eexists. split; [reflexivity|]. cbn. now apply prefix_length.
    + split; [exact Hext|]. right. split; [reflexivity|]. now exists e.
Qed.

(** ** A completion of another shape *)

Lemma alloc_list_app (l1 l2 : list json) (h : list pyobj) :
  alloc_list (l1 ++ l2) h
  = let '(vs1, h1) := alloc_list l1 h in
    let '(vs2, h2) := alloc_list l2 h1 in
    (vs1 ++ vs2, h2).
Proof.
  revert h. induction l1 as [|x l1 IH]; intros h; cbn [app alloc_list].
  - now destruct (alloc_list l2 h).
  - destruct (alloc_json x h) as [v ha]. rewrite IH.
    destruct (alloc_list l1 ha) as [vs1 h1]. now destruct (alloc_list l2 h1).
Qed.

Lemma first_non_object (l : list json) :
  forallb is_object l = false ->
  exists records x rest, l = map JDict records ++ x :: rest /\ is_object x = false.
Proof.
  induction l as [|y l IH]; cbn [forallb]; [discriminate|].
  destruct (is_object y) eqn:Ey.
  - cbn [andb]. intros H. destruct (IH H) as (records & x & rest & -> & Hx).
    destruct y as [| | | | | |d]; try discriminate.
    now exists (d :: records), x, rest.
  - intros _. now exists [], y, l.
Qed.

(** The value built for a tree that is no object is not a dict. *)
Lemma non_object_value (x : json) (h : list pyobj) (v : pyval) (h' : list pyobj) :
  is_object x = false -> alloc_json x h = (v, h') ->
  not_a_dict h' v /\ new_value h v.
Proof.
  intros Hx Hal. destruct (alloc_json_new _ _ _ _ Hal) as [_ Hnew].
  split; [|exact Hnew].
  destruct x as [|b|z|f|s|l|d]; try discriminate; try (injection Hal as <- _; exact I).
  rewrite alloc_json_list in Hal. destruct (alloc_list l h) as [vs hl].
  injection Hal as <- <-. exists vs. apply lookup_snoc_new.
Qed.

Lemma setitem_not_a_dict (q : pyval) (k : pystr) (v : pyval) (w : world) :
  not_a_dict (heap w) q -> py_setitem q k v w = (Raise TypeError, w).
Proof.
  destruct q as [| | | | |b]; try reflexivity.
  intros [items Hb]. unfold py_setitem, bind, deref. now rewrite Hb.
Qed.

(** The [try] of [generate_questions] on a decoded value that the loop
    of lines 80-81 does not accept: a [TypeError], from the [for] or from
    the assignment. *)
Lemma generate_try_wrong_shape (E : env) (category prompt text : pystr)
    (rest : list chat_choice) (j : json) (w : world) :
  chat_completions_create E (trace w) (chat_request_of prompt)
    = Ok {| choices := {| message_content := Some text |} :: rest |} ->
  json_loads (clean_content text) = Some j ->
  loop_accepts j = false ->
  exists w1, generate_try E category prompt w = (Raise TypeError, w1).
Proof.
  intros Hc Hj Hshape.
  rewrite generate_try_unfold. unfold bind at 1. unfold create. rewrite Hc.
  cbn [choices message_content]. unfold bind at 1. unfold ret at 1.
  unfold bind at 1. unfold py_json_loads. rewrite Hj. cbn [heap trace].
  destruct j as [|b|z|f|s|l|d]; try (eexists; reflexivity).
  - destruct s as [|c s]; [discriminate|]. eexists. reflexivity.
  - cbn [loop_accepts] in Hshape.
    destruct (first_non_object l Hshape) as (records & x & others & -> & Hx).
    rewrite alloc_json_list, alloc_list_app.
    destruct (alloc_list (map JDict records) (heap w)) as [vs1 h1] eqn:E1.
    cbn [alloc_list].
    destruct (alloc_json x h1) as [vx hx] eqn:Ex.
    destruct (alloc_list others hx) as [vs2 h2] eqn:E2.
    destruct (alloc_records records _ _ _ E1)
      as (bs & kvss & -> & _ & Hrange & Hnd & Hlook & _).
    destruct (non_object_value x h1 vx hx Hx Ex) as [Hnot Hnew].
    assert (Hpre : hx `prefix_of` h2 ++ [OList (map VRef bs ++ vx :: vs2)]).
    { transitivity h2; [now apply alloc_list_extends in E2 | now apply prefix_app_r]. }
    assert (Hpre1 : h1 `prefix_of` h2 ++ [OList (map VRef bs ++ vx :: vs2)]).
    { transitivity hx; [|exact Hpre].
      now destruct (alloc_json_new _ _ _ _ Ex). }
    set (w1 := {| heap := h2 ++ [OList (map VRef bs ++ vx :: vs2)];
                  trace := trace w ++ [EvCreate (chat_request_of prompt)] |}).
    assert (Hiter : py_iter (VRef (length h2)) w1 = (Ok (map VRef bs ++ vx :: vs2), w1)).
    { unfold py_iter, bind, deref. cbn [heap w1]. now rewrite lookup_snoc_new. }
    rewrite (bind_Ok _ _ _ _ _ Hiter).
    destruct (stamp_loop_run category bs Hnd kvss w1) as (h' & Hrun & Hlen & Hother & _).
    { cbn [heap w1]. eapply Forall2_impl; [exact Hlook|].
      intros b kvs Hb. exact (prefix_lookup_Some _ _ _ _ Hb Hpre1). }
    exists {| heap := h'; trace := trace w1 |}.
    apply bind_Raise. rewrite for_each_app. rewrite (bind_Ok _ _ _ _ _ Hrun).
    cbn [for_each]. apply bind_Raise. apply setitem_not_a_dict. cbn [heap].
    destruct vx as [| | | | |bx]; try exact I.
    destruct Hnot as [items Hbx]. exists items.
    rewrite Hother.
    + cbn [heap w1]. exact (prefix_lookup_Some _ _ _ _ Hbx Hpre).
    + intros Hin. rewrite Forall_forall in Hrange. specialize (Hrange _ Hin).
      cbn in Hnew. lia.
  - destruct d as [|[k x] d]; [discriminate|].
    rewrite alloc_json_dict. cbn [alloc_fields].
    destruct (alloc_json x (heap w)) as [v ha].
    destruct (alloc_fields d ha) as [kvs hb].
    eexists. unfold bind, py_iter, bind, deref. cbn [heap].
    rewrite lookup_snoc_new. reflexivity.
Qed.

(** X16. When the completion decodes to JSON of another shape than an
    array of objects (a number, [true], [null], a non-empty string, a
    non-empty object, an array with an element that is no object),
    [generate_questions] returns a new empty list: only an empty object
    and an empty string are returned as they are. *)
Theorem generate_questions_wrong_shape (E : env) (self : QuestionGenerator)
    (category : pystr) (n m : Z) (text : pystr) (rest : list chat_choice)
    (j : json) (w : world) :
  let prompt := prompt_text category (Z.max 1 (Z.min 10 n)) (Z.max 3 (Z.min 5 m)) in
  chat_completions_create E (trace w) (chat_request_of prompt)
    = Ok {| choices := {| message_content := Some text |} :: rest |} ->
  json_loads (clean_content text) = Some j ->
  loop_accepts j = false ->
  returns_empty_list (generate_questions E self category n m w).
Proof.
  intros prompt Hc Hj Hshape.
  destruct (generate_try_wrong_shape E category prompt text rest j w Hc Hj Hshape)
    as [w1 Hrun].
  pose proof (generate_questions_cases E self category n m w) as Hcases.
  cbv zeta in Hcases. fold prompt in Hcases. rewrite Hrun in Hcases.
  eexists _, _. split; [exact Hcases|]. cbn [heap]. apply lookup_snoc_new.
Qed.

Lemma generate_questions_wrong_shape_witness :
  returns_empty_list
    (generate_questions
       {| chat_completions_create := fun _ _ =>
            Ok {| choices := [ {| message_content := Some (
              lit "[{" ++ quoted "text" ++ lit ": " ++ quoted "Q" ++ lit "}, "
              ++ quoted "and a string" ++ lit "]") |} ] |};
          requests_post := fun _ _ => Raise (ConnectionError []);
     stdout_encodes := utf8_encodes |}
       main_generator (lit "Science") 5 3 initial_world).
Proof.
  apply (generate_questions_wrong_shape _ main_generator (lit "Science") 5 3
           (lit "[{" ++ quoted "text" ++ lit ": " ++ quoted "Q" ++ lit "}, "
            ++ quoted "and a string" ++ lit "]") []
           (JList [JDict [(key_text, JStr (lit "Q"))]; JStr (lit "and a string")])
           initial_world).
  - reflexivity.
  - vm_compute. reflexivity.
  - reflexivity.
Defined.

(** ** The generator [__init__] builds *)

(** X17. The headers of a generator are never empty: built with
    [headers=None] or with an empty dict, it has the one header
    [Content-Type: application/json]; built with a non-empty dict, it has
    that dict.  Its [api_url] and these headers are what every POST of
    [upload_questions] carries. *)
Theorem init_headers (E : env) (u : pystr) (hs : option (list (pystr * pystr)))
    (questions : pyval) (w : world) :
  let self := QuestionGenerator_init u hs in
  let sent := match hs with
              | Some (h :: t) => h :: t
              | _ => [(lit "Content-Type", lit "application/json")]
              end in
  headers self = sent /\ sent <> [] /\ api_url self = u
  /\ (trace (snd (upload_questions E self questions w)) = trace w
      \/ exists body,
           trace (snd (upload_questions E self questions w))
           = trace w ++ [EvPost {| url := u; json_body := body;
                                   headers_sent := sent; timeout := 30 |}]).
Proof.
  intros self sent. split; [reflexivity|]. split.
  - subst sent. destruct hs as [[|h t]|]; discriminate.
  - split; [reflexivity|].
    destruct (upload_questions_shape E self questions w) as [->|[[Ht _]|[body [_ Ht]]]].
    + now left.
    + now left.
    + right. exists body. exact Ht.
Qed.

(** ** The turns that upload nothing *)

Lemma process_category_falsy (E : env) (generator : QuestionGenerator)
    (category : pystr) (w : world) (v : pyval) (w1 : world) :
  generate_questions E generator category QUESTIONS_PER_CATEGORY 3 w = (Ok v, w1) ->
  truthy v w1 = (Ok false, w1) ->
  fst (process_category E generator category w) = Ok tt
  /\ trace (snd (process_category E generator category w))
     = trace w ++ [EvCreate (category_request category)].
Proof.
  intros Hg Ht.
  pose proof (generate_questions_trace E generator category QUESTIONS_PER_CATEGORY 3 w)
    as Htr.
  rewrite Hg in Htr. cbn [snd] in Htr.
  unfold process_category.
  rewrite (bind_Ok _ _ _ _ _ Hg), (bind_Ok _ _ _ _ _ Ht). cbn [negb].
  split; [reflexivity | exact Htr].
Qed.

Lemma all_objects (l : list json) :
  forallb is_object l = true -> exists records, l = map JDict records.
Proof.
  induction l as [|x l IH]; cbn [forallb]; [now exists []|].
  intros H. apply andb_true_iff in H as [Hx Hl]. destruct (IH Hl) as [records ->].
  destruct x as [| | | | | |d]; try discriminate. now exists (d :: records).
Qed.

(** X18. The driver uploads for a category only when the completion
    decodes to a non-empty array of objects.  For JSON of every other
    shape (an empty array, an object, a string, a number, an array with an
    element that is no object) the turn makes the completion request and
    no POST and ends normally: also for the empty object and the empty
    string, which [generate_questions] returns as they are. *)
Theorem process_category_skips_other_shapes (E : env) (generator : QuestionGenerator)
    (category text : pystr) (rest : list chat_choice) (j : json) (w : world) :
  chat_completions_create E (trace w) (category_request category)
    = Ok {| choices := {| message_content := Some text |} :: rest |} ->
  json_loads (clean_content text) = Some j ->
  (forall records, j = JList (map JDict records) -> records = []) ->
  fst (process_category E generator category w) = Ok tt
  /\ trace (snd (process_category E generator category w))
     = trace w ++ [EvCreate (category_request category)].
Proof.
  intros Hc Hj Hshape.
  pose proof (generate_questions_cases E generator category QUESTIONS_PER_CATEGORY 3 w)
    as Hcases.
  cbv zeta in Hcases.
  change (prompt_text category (Z.max 1 (Z.min 10 QUESTIONS_PER_CATEGORY))
            (Z.max 3 (Z.min 5 3)))
    with (prompt_text category QUESTIONS_PER_CATEGORY 3) in Hcases.
  destruct (loop_accepts j) eqn:Hacc.
  - assert (Hrun : exists v w1,
               generate_try E category (prompt_text category QUESTIONS_PER_CATEGORY 3) w
               = (Ok v, w1)
               /\ truthy v w1 = (Ok false, w1)).
    { rewrite generate_try_unfold. unfold bind at 1. unfold create.
      unfold category_request in Hc. rewrite Hc.
      cbn [choices message_content]. unfold bind at 1. unfold ret at 1.
      unfold bind at 1. unfold py_json_loads. rewrite Hj. cbn [heap trace].
      destruct j as [|b|z|f|s|l|d]; try discriminate.
      - destruct s as [|c s]; [|discriminate]. eexists _, _. split; reflexivity.
      - cbn [loop_accepts] in Hacc. destruct (all_objects l Hacc) as [records ->].
        rewrite (Hshape records eq_refl). cbn [map alloc_json].
        eexists _, _. unfold bind, py_iter, bind, deref. cbn [heap].
        rewrite lookup_snoc_new. cbn [for_each ret]. split; [reflexivity|].
        unfold truthy, bind, deref. cbn [heap]. now rewrite lookup_snoc_new.
      - destruct d as [|kv d]; [|discriminate]. cbn [alloc_json].
        eexists _, _. unfold bind, py_iter, bind, deref. cbn [heap].
        rewrite lookup_snoc_new. cbn [map for_each ret]. split; [reflexivity|].
        unfold truthy, bind, deref. cbn [heap]. now rewrite lookup_snoc_new. }
    destruct Hrun as (v & w1 & Hrun & Ht). rewrite Hrun in Hcases.
    exact (process_category_falsy E generator category w v w1 Hcases Ht).
  - destruct (generate_try_wrong_shape E category _ text rest j w Hc Hj Hacc) as [w1 Hrun].
    rewrite Hrun in Hcases.
    apply (process_category_falsy E generator category w _ _ Hcases).
    unfold truthy, bind, deref. cbn [heap]. now rewrite lookup_snoc_new.
Qed.

Lemma process_category_skips_other_shapes_witness :
  fst (process_category env_braces main_generator (lit "Science") initial_world) = Ok tt
  /\ trace (snd (process_category env_braces main_generator (lit "Science") initial_world))
     = trace initial_world ++ [EvCreate (category_request (lit "Science"))].
Proof.
  apply (process_category_skips_other_shapes env_braces main_generator (lit "Science")
           (lit "{}") [] (JDict []) initial_world).
  - reflexivity.
  - vm_compute. reflexivity.
  - intros records H. discriminate H.
Defined.
